(** * Role-based access control demo: session, token and gateway model

    A shallow embedding of [src/Experiment_8/roledbased_access.tsx]:
    the JWT helpers ([decodeJWT], [isExpired]), the mock backend
    ([MockAPI]), the request helper ([createHttp]), the session held by
    [AuthProvider] and the two route guards.

    JavaScript strings are sequences of UTF-16 code units, numbers are
    modelled as integers (every number the program computes is one, and
    they stay below 10^21, where JavaScript starts printing exponents),
    and a call that may throw returns a [completion]. *)

From Stdlib Require Import ZArith NArith List String Ascii Lia Bool.
From Stdlib Require Import DecimalString.
From Stdlib Require DecimalFacts DecimalPos DecimalZ.
From stdpp Require Import base option gmap.
Import ListNotations.

#[local] Open Scope Z_scope.
Set Warnings "-register-all".

(** ** JavaScript values *)

(** A string is the list of its UTF-16 code units. *)
Abbreviation jstring := (list N).

(** The code units of an ASCII or Latin-1 literal. *)
Definition lit (s : string) : jstring :=
  map N_of_ascii (list_ascii_of_string s).

Definition jstr_eqb (a b : jstring) : bool :=
  bool_decide (a = b).

(** The values [JSON.parse] can produce, and [undefined]. An object is
    the list of its own properties, each key once. *)
Inductive JsVal : Type :=
| JUndefined
| JNull
| JBool (b : bool)
| JNum (n : Z)
| JStr (s : jstring)
| JArr (items : list JsVal)
| JObj (fields : list (jstring * JsVal)).

Inductive JsError : Type :=
| TypeError
| InvalidCharacterError
| SyntaxError
| Error (message : string) (status : option Z).

(** The outcome of evaluating an expression: a value or a thrown error. *)
Inductive completion (A : Type) : Type :=
| Normal (a : A)
| Throw (e : JsError).
Arguments Normal {A} a.
Arguments Throw {A} e.

Definition cbind {A B} (c : completion A) (k : A -> completion B)
  : completion B :=
  match c with
  | Normal a => k a
  | Throw e => Throw e
  end.

(** [try { body } catch { handler }] *)
Definition try_catch {A} (body : completion A)
  (handler : JsError -> completion A) : completion A :=
  match body with
  | Normal a => Normal a
  | Throw e => handler e
  end.

Definition returns {A} (c : completion A) : Prop :=
  exists a, c = Normal a.

(** *** Coercions *)

(** [!!v] *)
Definition truthy (v : JsVal) : bool :=
  match v with
  | JUndefined | JNull => false
  | JBool b => b
  | JNum n => negb (n =? 0)
  | JStr s => match s with [] => false | _ => true end
  | JArr _ | JObj _ => true
  end.

Definition Z_to_jstring (n : Z) : jstring :=
  lit (NilZero.string_of_int (Z.to_int n)).

Fixpoint join (sep : jstring) (parts : list jstring) : jstring :=
  match parts with
  | [] => []
  | [p] => p
  | p :: rest => p ++ sep ++ join sep rest
  end.

(** [String(v)]; an array prints as its elements joined by commas, with
    [null] and [undefined] elements printed empty. *)
Fixpoint js_to_string (v : JsVal) : jstring :=
  match v with
  | JUndefined => lit "undefined"
  | JNull => lit "null"
  | JBool true => lit "true"
  | JBool false => lit "false"
  | JNum n => Z_to_jstring n
  | JStr s => s
  | JArr items =>
      join (lit ",")
        (map (fun x => match x with
                       | JUndefined | JNull => []
                       | _ => js_to_string x
                       end) items)
  | JObj _ => lit "[object Object]"
  end.

(** ** The host environment

    Built-in functions of the browser that the program calls. Their
    results on a string are taken from the host; [None] from
    [StringToNumber] stands for [NaN]. *)
Class Host : Type := {
  atob : jstring -> completion jstring;
  btoa : jstring -> completion jstring;
  JSON_parse : jstring -> completion JsVal;
  JSON_stringify : JsVal -> jstring;
  StringToNumber : jstring -> option Z
}.

Section TokenInspector.
Context {host : Host}.

(** [Number(s)] for a string: the empty string is 0. *)
Definition string_number (s : jstring) : option Z :=
  match s with
  | [] => Some 0
  | _ :: _ => StringToNumber s
  end.

(** [Number(v)], [None] for [NaN]; an array or object is first turned
    into a string. *)
Definition ToNumber (v : JsVal) : option Z :=
  match v with
  | JUndefined => None
  | JNull => Some 0
  | JBool b => Some (if b then 1 else 0)
  | JNum n => Some n
  | JStr s => string_number s
  | JArr _ | JObj _ => string_number (js_to_string v)
  end.

(** [v <= n] for a number [n]. A comparison with [NaN] is false. *)
Definition js_le_num (v : JsVal) (n : Z) : bool :=
  match ToNumber v with
  | Some a => a <=? n
  | None => false
  end.

(** [v > n] for a number [n]. *)
Definition js_gt_num (v : JsVal) (n : Z) : bool :=
  match ToNumber v with
  | Some a => n <? a
  | None => false
  end.

Fixpoint assoc (k : jstring) (fields : list (jstring * JsVal))
  : option JsVal :=
  match fields with
  | [] => None
  | (k', v) :: rest => if jstr_eqb k k' then Some v else assoc k rest
  end.

(** [p?.exp]: no primitive, array or prototype carries a property of
    that name, so only an object's own property is found. *)
Definition get_exp (p : JsVal) : JsVal :=
  match p with
  | JObj fields => default JUndefined (assoc (lit "exp") fields)
  | _ => JUndefined
  end.

(** [s.split(sep)] for a one-unit separator. *)
Fixpoint split_on (sep : N) (s : jstring) : list jstring :=
  match s with
  | [] => [[]]
  | c :: rest =>
      if N.eqb c sep then [] :: split_on sep rest
      else match split_on sep rest with
           | [] => [[c]]
           | seg :: segs => (c :: seg) :: segs
           end
  end.

Definition dot : N := 46%N.

(** [token.split(".")]: only a string has the method. *)
Definition token_split (token : JsVal) : completion (list jstring) :=
  match token with
  | JStr s => Normal (split_on dot s)
  | _ => Throw TypeError
  end.

(** [parts[i]] *)
Definition index (parts : list jstring) (i : nat) : JsVal :=
  match nth_error parts i with
  | Some s => JStr s
  | None => JUndefined
  end.

Definition decodeJWT_try (token : JsVal) : completion JsVal :=
  cbind (token_split token) (fun parts =>
  let payload := index parts 1 in
  cbind (atob (js_to_string payload)) JSON_parse).

Definition decodeJWT (token : JsVal) : completion JsVal :=
  try_catch (decodeJWT_try token) (fun _ => Normal JNull).

(** [date_now] is the value of [Date.now()], in milliseconds. *)
Definition isExpired (token : JsVal) (date_now : Z) : completion bool :=
  cbind (decodeJWT token) (fun p =>
  if negb (truthy (get_exp p)) then Normal true
  else
    let now := date_now / 1000 in
    Normal (js_le_num (get_exp p) now)).

End TokenInspector.

(** ** The world the program runs in

    The clock, the entropy source, the key-value store, the record of
    backend calls and the state held by [AuthProvider]. *)

(** [{ id, name, roles }]; [ref] is the identity of the object, which
    React compares when it decides whether state changed. *)
Record User : Type := mkUser {
  ref : nat;
  id : Z;
  name : jstring;
  roles : list jstring
}.

(** The state of [AuthProvider]: [user], [accessToken] and
    [refreshRef.current]; [None] is [null]. *)
Record Session : Type := mkSession {
  user : option User;
  accessToken : option jstring;
  refreshToken : option jstring
}.

Definition empty_session : Session := mkSession None None None.

(** A call that reached the mock backend. *)
Inductive Call : Type :=
| CallLogin (username : jstring)
| CallRefresh (token : option jstring)
| CallGetSecret (resource : jstring).

Record World : Type := mkWorld {
  date_now : Z;                       (* Date.now() *)
  timers : nat;                       (* timers fired so far *)
  lag : nat -> Z;                     (* how late the n-th timer fires *)
  draws : nat;                        (* random draws so far *)
  random_bytes : nat -> option (list N);
                                      (* the 16 bytes of crypto.getRandomValues,
                                         None where it throws *)
  math_random36 : nat -> jstring;     (* Math.random().toString(36) *)
  next_ref : nat;                     (* next fresh object identity *)
  localStorage : gmap jstring jstring;
  network : list Call;                (* backend calls, oldest first *)
  session : Session;
  loading : bool;
  persisted : option User * option jstring
                                      (* [user, accessToken] as the persist
                                         effect last saw them *)
}.

Definition set_date_now (t : Z) (w : World) : World :=
  mkWorld t (timers w) (lag w) (draws w) (random_bytes w) (math_random36 w)
    (next_ref w) (localStorage w) (network w) (session w) (loading w)
    (persisted w).
Definition set_timers (n : nat) (w : World) : World :=
  mkWorld (date_now w) n (lag w) (draws w) (random_bytes w) (math_random36 w)
    (next_ref w) (localStorage w) (network w) (session w) (loading w)
    (persisted w).
Definition set_draws (n : nat) (w : World) : World :=
  mkWorld (date_now w) (timers w) (lag w) n (random_bytes w) (math_random36 w)
    (next_ref w) (localStorage w) (network w) (session w) (loading w)
    (persisted w).
Definition set_next_ref (n : nat) (w : World) : World :=
  mkWorld (date_now w) (timers w) (lag w) (draws w) (random_bytes w)
    (math_random36 w) n (localStorage w) (network w) (session w) (loading w)
    (persisted w).
Definition set_localStorage (m : gmap jstring jstring) (w : World) : World :=
  mkWorld (date_now w) (timers w) (lag w) (draws w) (random_bytes w)
    (math_random36 w) (next_ref w) m (network w) (session w) (loading w)
    (persisted w).
Definition set_network (l : list Call) (w : World) : World :=
  mkWorld (date_now w) (timers w) (lag w) (draws w) (random_bytes w)
    (math_random36 w) (next_ref w) (localStorage w) l (session w) (loading w)
    (persisted w).
Definition set_session (s : Session) (w : World) : World :=
  mkWorld (date_now w) (timers w) (lag w) (draws w) (random_bytes w)
    (math_random36 w) (next_ref w) (localStorage w) (network w) s (loading w)
    (persisted w).
Definition set_persisted (d : option User * option jstring) (w : World)
  : World :=
  mkWorld (date_now w) (timers w) (lag w) (draws w) (random_bytes w)
    (math_random36 w) (next_ref w) (localStorage w) (network w) (session w)
    (loading w) d.

(** *** State and exceptions

    A computation over state [S] ends in a value or a thrown error; the
    state changes made before a throw stay. *)
Definition ST (S A : Type) : Type := S -> completion A * S.

Definition ret {S A} (a : A) : ST S A := fun s => (Normal a, s).

Definition bind {S A B} (m : ST S A) (k : A -> ST S B) : ST S B :=
  fun s =>
    match m s with
    | (Normal a, s') => k a s'
    | (Throw e, s') => (Throw e, s')
    end.

Definition throw {S A} (e : JsError) : ST S A := fun s => (Throw e, s).

Definition lift_c {S A} (c : completion A) : ST S A := fun s => (c, s).

Definition modify {S} (f : S -> S) : ST S unit := fun s => (Normal tt, f s).

Definition gets {S A} (f : S -> A) : ST S A := fun s => (Normal (f s), s).

(** [try { body } catch (e) { handler }] *)
Definition catch {S A} (body : ST S A) (handler : JsError -> ST S A)
  : ST S A :=
  fun s =>
    match body s with
    | (Normal a, s') => (Normal a, s')
    | (Throw e, s') => handler e s'
    end.

Declare Scope st_scope.
Delimit Scope st_scope with st.
Notation "'let!' x ':=' m 'in' k" := (bind m (fun x => k))
  (at level 10, x name, m at level 100, k at level 200) : st_scope.
Notation "'do!' m 'in' k" := (bind m (fun _ => k))
  (at level 10, m at level 100, k at level 200) : st_scope.

Abbreviation M := (ST World).

#[local] Open Scope st_scope.

(** [await new Promise((r) => setTimeout(r, ms))]: the clock moves on by
    [ms] and by however late the timer fires. *)
Definition sleep (ms : Z) : M unit :=
  modify (fun w =>
    set_timers (S (timers w))
      (set_date_now (date_now w + ms + Z.max 0 (lag w (timers w))) w)).

Definition log_call (c : Call) : M unit :=
  modify (fun w => set_network (network w ++ [c]) w).

(** ** cryptoRandom *)

Definition hex_digit (d : N) : N :=
  (if d <? 10 then 48 + d else 87 + d)%N.

(** [b.toString(16).padStart(2, "0")] for a byte [b]. *)
Definition hex2 (b : N) : jstring :=
  [hex_digit (b / 16); hex_digit (b mod 16)]%N.

Definition cryptoRandom : M jstring :=
  fun w =>
    let w' := set_draws (S (draws w)) w in
    match random_bytes w (draws w) with
    | Some arr => (Normal (concat (map hex2 arr)), w')
    | None => (Normal (skipn 2 (math_random36 w (draws w))), w')
    end.

(** ** Mock API *)

Section Program.
Context {host : Host}.

Record LoginResult : Type := mkLoginResult {
  lr_user : User;
  lr_accessToken : jstring;
  lr_refreshToken : jstring
}.

Definition user_js (u : User) : JsVal :=
  JObj [(lit "id", JNum (id u)); (lit "name", JStr (name u));
        (lit "roles", JArr (map JStr (roles u)))].

(** [{ sub, name, roles, exp }] *)
Definition claims (sub : Z) (nm : jstring) (rs : list jstring) (exp : Z)
  : JsVal :=
  JObj [(lit "sub", JNum sub); (lit "name", JStr nm);
        (lit "roles", JArr (map JStr rs)); (lit "exp", JNum exp)].

(** [`header.${payload}.signature`] *)
Definition bearer (payload : jstring) : jstring :=
  lit "header." ++ payload ++ lit ".signature".

Definition roles_of (username : jstring) : list jstring :=
  if jstr_eqb username (lit "admin") then [lit "ADMIN"; lit "USER"]
  else if jstr_eqb username (lit "mod") || jstr_eqb username (lit "moderator")
  then [lit "MODERATOR"; lit "USER"]
  else [lit "USER"].

(** [!password || password.length < 6], a password being a string or
    absent. *)
Definition password_rejected (password : option jstring) : bool :=
  match password with
  | None => true
  | Some p => negb (truthy (JStr p)) || (Z.of_nat (length p) <? 6)
  end.

Definition invalid_credentials : JsError := Error "Invalid credentials" None.

Definition MockAPI_login (username : jstring) (password : option jstring)
  : M LoginResult :=
  do! log_call (CallLogin username) in
  do! sleep 600 in
  if password_rejected password then throw invalid_credentials
  else
    let rs := roles_of username in
    let! r := gets next_ref in
    do! modify (set_next_ref (S r)) in
    let u := mkUser r 1 username rs in
    let! t := gets date_now in
    let exp := t / 1000 + 60 in
    let! payload :=
      lift_c (btoa (JSON_stringify (claims (id u) (name u) rs exp))) in
    let accessToken := bearer payload in
    let! refresh := cryptoRandom in
    ret (mkLoginResult u accessToken refresh).

(** [refreshToken.startsWith("x")] *)
Definition starts_with_x (s : jstring) : bool :=
  match s with
  | c :: _ => N.eqb c 120
  | [] => false
  end.

Definition refresh_rejected (refreshToken : option jstring) : bool :=
  match refreshToken with
  | None => true
  | Some s => negb (truthy (JStr s)) || starts_with_x s
  end.

Definition refresh_invalid : JsError :=
  Error "Refresh token invalid" (Some 401).

Definition MockAPI_refresh (refreshToken : option jstring) : M jstring :=
  do! log_call (CallRefresh refreshToken) in
  do! sleep 400 in
  if refresh_rejected refreshToken then throw refresh_invalid
  else
    let! t := gets date_now in
    let exp := t / 1000 + 60 in
    let! payload :=
      lift_c (btoa (JSON_stringify (claims 1 (lit "demo") [lit "USER"] exp))) in
    ret (bearer payload).

(** [{ ok: true, data: `Top secret payload for ${resource}` }] *)
Definition secret (resource : jstring) : JsVal :=
  JObj [(lit "ok", JBool true);
        (lit "data", JStr (lit "Top secret payload for " ++ resource))].

Definition MockAPI_getSecret (resource : jstring) : M JsVal :=
  do! log_call (CallGetSecret resource) in
  do! sleep 300 in
  ret (secret resource).

End Program.

(** ** Request helper *)

(** What [get] called, in order. *)
Inductive GatewayCall : Type :=
| GFetchWithAuth (url : jstring) (token : JsVal)
| GGetSecret (resource : jstring)
| GTryRefresh
| GOnUnauthorized.

(** [{ status, json: async () => body }] *)
Record Response : Type := mkResponse {
  status : Z;
  json : JsVal
}.

(** The request helper runs over the world and a record of its calls. *)
Abbreviation G := (ST (World * list GatewayCall)).

Definition lift {A} (m : M A) : G A :=
  fun s =>
    match m (fst s) with
    | (c, w') => (c, (w', snd s))
    end.

Definition called (c : GatewayCall) : G unit :=
  modify (fun s => (fst s, snd s ++ [c])).

(** The argument of [createHttp]; [onUnauthorized] may be absent. *)
Record HttpConfig : Type := mkHttpConfig {
  getAccessToken : M JsVal;
  onUnauthorized : option (M unit);
  tryRefresh : M bool
}.

Section Gateway.
Context {host : Host}.

Definition unauthorized_body : JsVal :=
  JObj [(lit "error", JStr (lit "Unauthorized"))].

Definition fetchWithAuth (url : jstring) (token : JsVal) : G Response :=
  do! called (GFetchWithAuth url token) in
  let! t := lift (gets date_now) in
  let! expired :=
    (if negb (truthy token) then ret true
     else lift (lift_c (isExpired token t))) in
  if (expired : bool) then ret (mkResponse 401 unauthorized_body)
  else
    do! called (GGetSecret url) in
    let! data := lift (MockAPI_getSecret url) in
    ret (mkResponse 200 data).

(** [onUnauthorized?.()] *)
Definition call_onUnauthorized (cfg : HttpConfig) : G unit :=
  match onUnauthorized cfg with
  | Some f => do! called GOnUnauthorized in lift f
  | None => ret tt
  end.

(** [createHttp(cfg).get(url)] *)
Definition get (cfg : HttpConfig) (url : jstring) : G Response :=
  let! token := lift (getAccessToken cfg) in
  let! res1 := fetchWithAuth url token in
  if negb (status res1 =? 401) then ret res1
  else
    do! called GTryRefresh in
    let! refreshed := lift (tryRefresh cfg) in
    if negb refreshed then
      do! call_onUnauthorized cfg in
      ret res1
    else
      let! token := lift (getAccessToken cfg) in
      let! res2 := fetchWithAuth url token in
      do! (if status res2 =? 401 then call_onUnauthorized cfg else ret tt) in
      ret res2.

End Gateway.

(** ** Auth context

    The state of [AuthProvider], its handlers and its persist effect.
    The boot effect, which restores a stored snapshot and ends
    [loading], is not modelled: [loading] is a field of the world. *)

Definition demo_auth : jstring := lit "demo_auth".

Definition opt_js (s : option jstring) : JsVal :=
  match s with
  | Some x => JStr x
  | None => JNull
  end.

Definition snapshot_js (s : Session) : JsVal :=
  JObj [(lit "user", match user s with Some u => user_js u | None => JNull end);
        (lit "accessToken", opt_js (accessToken s));
        (lit "refreshToken", opt_js (refreshToken s))].

Definition setUser (u : option User) : M unit :=
  modify (fun w =>
    set_session (mkSession u (accessToken (session w))
                   (refreshToken (session w))) w).

Definition setAccessToken (t : option jstring) : M unit :=
  modify (fun w =>
    set_session (mkSession (user (session w)) t
                   (refreshToken (session w))) w).

(** [refreshRef.current = r] *)
Definition setRefresh (r : option jstring) : M unit :=
  modify (fun w =>
    set_session (mkSession (user (session w)) (accessToken (session w)) r) w).

Definition removeItem (k : jstring) : M unit :=
  modify (fun w => set_localStorage (delete k (localStorage w)) w).

Definition setItem (k v : jstring) : M unit :=
  modify (fun w => set_localStorage (<[k := v]> (localStorage w)) w).

Module AuthProvider.
Section Provider.
Context {host : Host}.

Definition login (username : jstring) (password : option jstring) : M User :=
  let! r := MockAPI_login username password in
  do! setUser (Some (lr_user r)) in
  do! setAccessToken (Some (lr_accessToken r)) in
  do! setRefresh (Some (lr_refreshToken r)) in
  ret (lr_user r).

Definition logout : M unit :=
  do! setUser None in
  do! setAccessToken None in
  do! setRefresh None in
  removeItem demo_auth.

Definition tryRefresh : M bool :=
  catch
    (let! rt := gets (fun w => refreshToken (session w)) in
     let! tok := MockAPI_refresh rt in
     do! setAccessToken (Some tok) in
     ret true)
    (fun _ => ret false).

(** [roles] is the array of required roles, [None] when the caller
    passes none. *)
Definition hasAnyRole (u : option User) (required : option (list jstring))
  : bool :=
  match required with
  | None => true
  | Some rs =>
      if (length rs =? 0)%nat then true
      else
        let current := match u with Some x => roles x | None => [] end in
        existsb (fun r => existsb (jstr_eqb r) current) rs
  end.

(** The [http] object of a render: [getAccessToken] returns the access
    token that render saw. *)
Definition http (rendered : option jstring) : HttpConfig :=
  mkHttpConfig (ret (opt_js rendered)) (Some logout) tryRefresh.

(** [Object.is] on the dependencies [[user, accessToken]]. *)
Definition same_user (a b : option User) : bool :=
  match a, b with
  | None, None => true
  | Some x, Some y => (ref x =? ref y)%nat
  | _, _ => false
  end.

Definition same_token (a b : option jstring) : bool :=
  bool_decide (a = b).

(** The persist effect. *)
Definition persist : M unit :=
  let! s := gets session in
  setItem demo_auth (JSON_stringify (snapshot_js s)).

(** React renders again after a state change and then runs the effects
    whose dependencies changed. *)
Definition rerender : M unit :=
  let! s := gets session in
  let! d := gets persisted in
  if same_user (fst d) (user s) && same_token (snd d) (accessToken s)
  then ret tt
  else
    do! modify (set_persisted (user s, accessToken s)) in
    persist.

End Provider.
End AuthProvider.

(** ** Route guards *)

(** What a guard renders. *)
Inductive Element : Type :=
| ScreenMsg (children : string)
| Navigate (to : jstring) (from : option jstring) (replace : bool)
| Outlet.

Section Guards.
Context {host : Host}.

(** [!user || !accessToken || isExpired(accessToken)] *)
Definition session_invalid (s : Session) (t : Z) : completion bool :=
  match user s with
  | None => Normal true
  | Some _ =>
      if negb (truthy (opt_js (accessToken s))) then Normal true
      else isExpired (opt_js (accessToken s)) t
  end.

Definition RequireAuth (location : jstring) (w : World)
  : completion Element :=
  if loading w then Normal (ScreenMsg "Loading session…")
  else
    cbind (session_invalid (session w) (date_now w)) (fun bad =>
    if (bad : bool) then Normal (Navigate (lit "/login") (Some location) true)
    else Normal Outlet).

Definition RequireRoles (required : option (list jstring)) (w : World)
  : Element :=
  if negb (AuthProvider.hasAnyRole (user (session w)) required)
  then Navigate (lit "/403") None true
  else Outlet.

(** Modelled from the spec: the route tree is not among the sources;
    the spec (4.5) has the role gate evaluated only after the
    authentication gate has passed, so [RequireRoles] is rendered where
    [RequireAuth] renders its [Outlet]. *)
Definition guarded_route (required : option (list jstring))
  (location : jstring) (w : World) : completion Element :=
  cbind (RequireAuth location w) (fun outer =>
  match outer with
  | Outlet => Normal (RequireRoles required w)
  | other => Normal other
  end).

End Guards.

(** ** A browser

    The built-ins as the WHATWG and ECMAScript standards define them, on
    the integers: [JSON.parse] here stops with an error at a number with
    a fraction or an exponent and keeps an integer beyond 2^53 exact,
    and [StringToNumber] reads decimal integers only. The theorems
    stated for this host apply it to text the program itself wrote,
    which holds integers of that range only. *)
Module Browser.

#[local] Open Scope N_scope.

(** *** Base64 *)

Definition b64_char (i : N) : N :=
  if i <? 26 then 65 + i
  else if i <? 52 then 97 + (i - 26)
  else if i <? 62 then 48 + (i - 52)
  else if i =? 62 then 43
  else 47.

Definition b64_index (c : N) : option N :=
  if (65 <=? c) && (c <=? 90) then Some (c - 65)
  else if (97 <=? c) && (c <=? 122) then Some (c - 97 + 26)
  else if (48 <=? c) && (c <=? 57) then Some (c - 48 + 52)
  else if c =? 43 then Some 62
  else if c =? 47 then Some 63
  else None.

Definition pad : N := 61.

Fixpoint b64_encode (s : list N) : list N :=
  match s with
  | a :: b :: c :: rest =>
      b64_char (a / 4) :: b64_char ((a mod 4) * 16 + b / 16)
      :: b64_char ((b mod 16) * 4 + c / 64) :: b64_char (c mod 64)
      :: b64_encode rest
  | [a; b] =>
      [b64_char (a / 4); b64_char ((a mod 4) * 16 + b / 16);
       b64_char ((b mod 16) * 4); pad]
  | [a] => [b64_char (a / 4); b64_char ((a mod 4) * 16); pad; pad]
  | [] => []
  end.

Definition latin1 (s : list N) : bool := forallb (fun c => c <? 256) s.

Definition btoa (s : jstring) : completion jstring :=
  if latin1 s then Normal (b64_encode s) else Throw InvalidCharacterError.

Definition is_ascii_whitespace (c : N) : bool :=
  (c =? 9) || (c =? 10) || (c =? 12) || (c =? 13) || (c =? 32).

(** Drop one or two [=] from the end. *)
Definition strip_padding (s : list N) : list N :=
  match rev s with
  | c1 :: r1 =>
      if c1 =? pad then
        match r1 with
        | c2 :: r2 => if c2 =? pad then rev r2 else rev r1
        | [] => rev r1
        end
      else s
  | [] => s
  end.

Fixpoint b64_indices (s : list N) : option (list N) :=
  match s with
  | [] => Some []
  | c :: rest =>
      match b64_index c, b64_indices rest with
      | Some i, Some r => Some (i :: r)
      | _, _ => None
      end
  end.

Fixpoint b64_decode (s : list N) : list N :=
  match s with
  | p :: q :: r :: t :: rest =>
      (p * 4 + q / 16) :: ((q mod 16) * 16 + r / 4)
      :: ((r mod 4) * 64 + t) :: b64_decode rest
  | [p; q; r] => [p * 4 + q / 16; (q mod 16) * 16 + r / 4]
  | [p; q] => [p * 4 + q / 16]
  | _ => []
  end.

(** Forgiving-base64 decode. *)
Definition atob (s : jstring) : completion jstring :=
  let s1 := List.filter (fun c => negb (is_ascii_whitespace c)) s in
  let s2 := if (N.of_nat (length s1) mod 4 =? 0) then strip_padding s1
            else s1 in
  if (N.of_nat (length s2) mod 4 =? 1) then Throw InvalidCharacterError
  else
    match b64_indices s2 with
    | Some ix => Normal (b64_decode ix)
    | None => Throw InvalidCharacterError
    end.

(** *** JSON.stringify *)

Definition hex4 (c : N) : list N :=
  [hex_digit (c / 4096); hex_digit ((c / 256) mod 16);
   hex_digit ((c / 16) mod 16); hex_digit (c mod 16)].

Definition is_high_surrogate (c : N) : bool := (55296 <=? c) && (c <=? 56319).
Definition is_low_surrogate (c : N) : bool := (56320 <=? c) && (c <=? 57343).

Definition u_escape (c : N) : list N := 92 :: 117 :: hex4 c.

(** The characters of a quoted string, between the quotes. *)
Fixpoint quote_units (s : list N) : list N :=
  match s with
  | [] => []
  | c :: rest =>
      if c =? 34 then 92 :: 34 :: quote_units rest
      else if c =? 92 then 92 :: 92 :: quote_units rest
      else if c =? 8 then 92 :: 98 :: quote_units rest
      else if c =? 9 then 92 :: 116 :: quote_units rest
      else if c =? 10 then 92 :: 110 :: quote_units rest
      else if c =? 12 then 92 :: 102 :: quote_units rest
      else if c =? 13 then 92 :: 114 :: quote_units rest
      else if c <? 32 then u_escape c ++ quote_units rest
      else if is_high_surrogate c then
        match rest with
        | d :: rest' =>
            if is_low_surrogate d then c :: d :: quote_units rest'
            else u_escape c ++ quote_units rest
        | [] => u_escape c
        end
      else if is_low_surrogate c then u_escape c ++ quote_units rest
      else c :: quote_units rest
  end.

Definition quote (s : jstring) : jstring := 34 :: quote_units s ++ [34].

Definition is_undefined (v : JsVal) : bool :=
  match v with
  | JUndefined => true
  | _ => false
  end.

(** [JSON.stringify(v)] for an object, array, string, number, boolean
    or [null]; an [undefined] array element prints as [null] and an
    [undefined] property is left out. *)
Fixpoint JSON_stringify (v : JsVal) : jstring :=
  match v with
  | JUndefined | JNull => lit "null"
  | JBool true => lit "true"
  | JBool false => lit "false"
  | JNum n => Z_to_jstring n
  | JStr s => quote s
  | JArr items =>
      lit "[" ++ join (lit ",") (map JSON_stringify items) ++ lit "]"
  | JObj fields =>
      lit "{" ++
      join (lit ",")
        (map snd
           (List.filter (fun p => negb (fst p))
              (map (fun kv =>
                      match kv with
                      | (k, x) =>
                          (is_undefined x,
                           quote k ++ lit ":" ++ JSON_stringify x)
                      end) fields)))
      ++ lit "}"
  end.

(** *** JSON.parse *)

Definition is_json_ws (c : N) : bool :=
  (c =? 32) || (c =? 9) || (c =? 10) || (c =? 13).

Fixpoint skip_ws (s : list N) : list N :=
  match s with
  | c :: r => if is_json_ws c then skip_ws r else s
  | [] => []
  end.

Definition is_digit (c : N) : bool := (48 <=? c) && (c <=? 57).

Definition digit_of (c : N) : option (Decimal.uint -> Decimal.uint) :=
  if c =? 48 then Some Decimal.D0 else if c =? 49 then Some Decimal.D1
  else if c =? 50 then Some Decimal.D2 else if c =? 51 then Some Decimal.D3
  else if c =? 52 then Some Decimal.D4 else if c =? 53 then Some Decimal.D5
  else if c =? 54 then Some Decimal.D6 else if c =? 55 then Some Decimal.D7
  else if c =? 56 then Some Decimal.D8 else if c =? 57 then Some Decimal.D9
  else None.

(** The longest run of digits at the front, and what follows it. *)
Fixpoint read_uint (s : list N) : Decimal.uint * list N :=
  match s with
  | c :: r =>
      match digit_of c with
      | Some d => let (u, r') := read_uint r in (d u, r')
      | None => (Decimal.Nil, s)
      end
  | [] => (Decimal.Nil, [])
  end.

Definition outside_integers : JsError :=
  Error "number with a fraction or exponent" None.

(** After the integer part: a fraction or exponent is not modelled. *)
Definition end_of_integer (n : Z) (r : list N)
  : completion (JsVal * list N) :=
  match r with
  | c :: _ =>
      if (c =? 46) || (c =? 101) || (c =? 69) then Throw outside_integers
      else Normal (JNum n, r)
  | [] => Normal (JNum n, r)
  end.

(** [s] starts at a digit; a leading zero is the whole integer part. *)
Definition read_int (negative : bool) (s : list N)
  : completion (JsVal * list N) :=
  match s with
  | c :: r =>
      if c =? 48 then end_of_integer 0 r
      else if is_digit c then
        let (u, r') := read_uint s in
        end_of_integer
          (Z.of_int (if negative then Decimal.Neg u else Decimal.Pos u)) r'
      else Throw SyntaxError
  | [] => Throw SyntaxError
  end.

Definition hex_value (c : N) : option N :=
  if is_digit c then Some (c - 48)
  else if (97 <=? c) && (c <=? 102) then Some (c - 87)
  else if (65 <=? c) && (c <=? 70) then Some (c - 55)
  else None.

Definition hex4_value (a b c d : N) : option N :=
  match hex_value a, hex_value b, hex_value c, hex_value d with
  | Some x, Some y, Some z, Some t => Some (((x * 16 + y) * 16 + z) * 16 + t)
  | _, _, _, _ => None
  end.

Definition unescape (e : N) : option N :=
  if e =? 34 then Some 34 else if e =? 92 then Some 92
  else if e =? 47 then Some 47 else if e =? 98 then Some 8
  else if e =? 102 then Some 12 else if e =? 110 then Some 10
  else if e =? 114 then Some 13 else if e =? 116 then Some 9
  else None.

Definition push {A} (c : N) (res : completion (list N * A))
  : completion (list N * A) :=
  cbind res (fun p => Normal (c :: fst p, snd p)).

(** The characters after an opening quote, up to the closing one. *)
Fixpoint read_string (s : list N) : completion (jstring * list N) :=
  match s with
  | [] => Throw SyntaxError
  | c :: r =>
      if c =? 34 then Normal ([], r)
      else if c =? 92 then
        match r with
        | [] => Throw SyntaxError
        | e :: r1 =>
            if e =? 117 then
              match r1 with
              | a :: b :: c2 :: d :: r2 =>
                  match hex4_value a b c2 d with
                  | Some u => push u (read_string r2)
                  | None => Throw SyntaxError
                  end
              | _ => Throw SyntaxError
              end
            else
              match unescape e with
              | Some u => push u (read_string r1)
              | None => Throw SyntaxError
              end
        end
      else if c <? 32 then Throw SyntaxError
      else push c (read_string r)
  end.

(** [s] with the literal [word] removed from its front. *)
Fixpoint expect (word s : list N) : option (list N) :=
  match word, s with
  | [], _ => Some s
  | a :: word', b :: s' => if a =? b then expect word' s' else None
  | _ :: _, [] => None
  end.

(** A later property of the same name replaces the earlier value. *)
Fixpoint set_field (k : jstring) (v : JsVal) (fields : list (jstring * JsVal))
  : list (jstring * JsVal) :=
  match fields with
  | [] => [(k, v)]
  | (k', v') :: rest =>
      if jstr_eqb k k' then (k', v) :: rest
      else (k', v') :: set_field k v rest
  end.

Definition object_of (members : list (jstring * JsVal)) : JsVal :=
  JObj (fold_left (fun acc kv => set_field (fst kv) (snd kv) acc) members []).

Fixpoint parse_value (fuel : nat) (s : list N)
  : completion (JsVal * list N) :=
  match fuel with
  | O => Throw SyntaxError
  | S f =>
      match skip_ws s with
      | [] => Throw SyntaxError
      | c :: r =>
          if c =? 123 then
            match skip_ws r with
            | 125 :: r' => Normal (JObj [], r')
            | _ =>
                cbind (parse_members f r) (fun p =>
                Normal (object_of (fst p), snd p))
            end
          else if c =? 91 then
            match skip_ws r with
            | 93 :: r' => Normal (JArr [], r')
            | _ =>
                cbind (parse_elements f r) (fun p =>
                Normal (JArr (fst p), snd p))
            end
          else if c =? 34 then
            cbind (read_string r) (fun p => Normal (JStr (fst p), snd p))
          else if c =? 45 then read_int true r
          else if is_digit c then read_int false (c :: r)
          else
            match expect (lit "true") (c :: r),
                  expect (lit "false") (c :: r),
                  expect (lit "null") (c :: r) with
            | Some r', _, _ => Normal (JBool true, r')
            | _, Some r', _ => Normal (JBool false, r')
            | _, _, Some r' => Normal (JNull, r')
            | _, _, _ => Throw SyntaxError
            end
      end
  end
with parse_elements (fuel : nat) (s : list N)
  : completion (list JsVal * list N) :=
  match fuel with
  | O => Throw SyntaxError
  | S f =>
      cbind (parse_value f s) (fun p =>
      match skip_ws (snd p) with
      | c :: r =>
          if c =? 44 then
            cbind (parse_elements f r) (fun q =>
            Normal (fst p :: fst q, snd q))
          else if c =? 93 then Normal ([fst p], r)
          else Throw SyntaxError
      | [] => Throw SyntaxError
      end)
  end
with parse_members (fuel : nat) (s : list N)
  : completion (list (jstring * JsVal) * list N) :=
  match fuel with
  | O => Throw SyntaxError
  | S f =>
      match skip_ws s with
      | c :: r =>
          if c =? 34 then
            cbind (read_string r) (fun k =>
            match skip_ws (snd k) with
            | c1 :: r1 =>
                if c1 =? 58 then
                  cbind (parse_value f r1) (fun p =>
                  match skip_ws (snd p) with
                  | c2 :: r2 =>
                      if c2 =? 44 then
                        cbind (parse_members f r2) (fun q =>
                        Normal ((fst k, fst p) :: fst q, snd q))
                      else if c2 =? 125 then Normal ([(fst k, fst p)], r2)
                      else Throw SyntaxError
                  | [] => Throw SyntaxError
                  end)
                else Throw SyntaxError
            | [] => Throw SyntaxError
            end)
          else Throw SyntaxError
      | [] => Throw SyntaxError
      end
  end.

Definition JSON_parse (s : jstring) : completion JsVal :=
  cbind (parse_value (S (length s)) s) (fun p =>
  match skip_ws (snd p) with
  | [] => Normal (fst p)
  | _ :: _ => Throw SyntaxError
  end).

(** *** StringToNumber *)

(** White space and line terminators, which [Number] trims. *)
Definition is_str_ws (c : N) : bool :=
  ((9 <=? c) && (c <=? 13)) || (c =? 32) || (c =? 160) || (c =? 5760)
  || ((8192 <=? c) && (c <=? 8202)) || (c =? 8232) || (c =? 8233)
  || (c =? 8239) || (c =? 8287) || (c =? 12288) || (c =? 65279).

Fixpoint trim_start (s : list N) : list N :=
  match s with
  | c :: r => if is_str_ws c then trim_start r else s
  | [] => []
  end.

Definition trim (s : list N) : list N :=
  rev (trim_start (rev (trim_start s))).

Definition all_digits (s : list N) : option Decimal.uint :=
  match s with
  | [] => None
  | _ :: _ =>
      match read_uint s with
      | (u, []) => Some u
      | (_, _ :: _) => None
      end
  end.

(** The empty string is 0 and a signed run of decimal digits is its
    value; any other string is read as [NaN]. *)
Definition StringToNumber (s : jstring) : option Z :=
  match trim s with
  | [] => Some 0%Z
  | c :: r =>
      if c =? 45 then
        option_map (fun u => Z.of_int (Decimal.Neg u)) (all_digits r)
      else if c =? 43 then
        option_map (fun u => Z.of_int (Decimal.Pos u)) (all_digits r)
      else option_map (fun u => Z.of_int (Decimal.Pos u)) (all_digits (c :: r))
  end.

End Browser.

(** The browser as a host. *)
Definition browser : Host :=
  Build_Host Browser.atob Browser.btoa Browser.JSON_parse
    Browser.JSON_stringify Browser.StringToNumber.

(** ** Worlds and tokens used in the examples *)

Definition quiet_world (t : Z) (s : Session) (busy : bool) : World :=
  mkWorld t 0 (fun _ => 0) 0 (fun _ => Some (repeat 171%N 16))
    (fun _ => lit "0.k3j9x2") 0 ∅ [] s busy (user s, accessToken s).

(** [header.] + base64 of [{"exp":"never"}] + [.signature] *)
Definition never_token : jstring :=
  lit "header.eyJleHAiOiJuZXZlciJ9.signature".

(** ** Contracts

    Statements that the theorems below prove. *)

(** The decoded payload [p] has no [exp] or a numeric one. *)
Definition exp_absent_or_number {host : Host} (p : JsVal) : Prop :=
  get_exp p = JUndefined \/ exists exp, get_exp p = JNum exp.

(** What [decodeJWT] and [isExpired] answer for a token at a clock
    reading [t] (milliseconds): the decoding returns, with [null] for a
    malformed token, and for a payload with no [exp] or a numeric one
    the token is expired iff the payload is [null], or has no [exp], or
    [exp <= now], and unexpired iff it decodes with [exp > now]. *)
Definition expiry_contract {host : Host} (token : JsVal) (t : Z) : Prop :=
  exists p,
    decodeJWT token = Normal p /\
    (forall e, decodeJWT_try token = Throw e -> p = JNull) /\
    (exp_absent_or_number p ->
     (isExpired token t = Normal true <->
        p = JNull \/ get_exp p = JUndefined
        \/ exists exp, get_exp p = JNum exp /\ exp <= t / 1000) /\
     (isExpired token t = Normal false <->
        p <> JNull /\ exists exp, get_exp p = JNum exp /\ t / 1000 < exp)).

(** A password that is absent or shorter than 6 characters. *)
Definition absent_or_short (password : option jstring) : Prop :=
  password = None \/ exists s, password = Some s /\ (length s < 6)%nat.

(** A user name outside Latin-1. *)
Definition nihon : jstring := [26085; 26412]%N.

Definition secret123 : jstring := lit "secret123".

(** The session after a call of [refresh]: nothing but the access token
    may differ, and it differs only where the backend issued one. *)
Definition refresh_contract {host : Host} (w : World) : Prop :=
  exists b w',
    AuthProvider.tryRefresh w = (Normal b, w') /\
    user (session w') = user (session w) /\
    refreshToken (session w') = refreshToken (session w) /\
    match MockAPI_refresh (refreshToken (session w)) w with
    | (Normal tok, _) => b = true /\ accessToken (session w') = Some tok
    | (Throw _, _) => b = false /\ session w' = session w
    end.

Definition shares_a_role (u : User) (required : list jstring) : Prop :=
  exists r, In r required /\ In r (roles u).

Definition admin_user : User :=
  mkUser 0 1 (lit "admin") [lit "ADMIN"; lit "USER"].

(** A session as [login("admin", ...)] leaves it at second
    1700000000 of the epoch. *)
Definition admin_token : jstring :=
  bearer (Browser.b64_encode
            (Browser.JSON_stringify
               (claims 1 (lit "admin") [lit "ADMIN"; lit "USER"]
                  1700000060))).

Definition admin_session : Session :=
  mkSession (Some admin_user) (Some admin_token) (Some (lit "abababab")).

Definition set_loading (b : bool) (w : World) : World :=
  mkWorld (date_now w) (timers w) (lag w) (draws w) (random_bytes w)
    (math_random36 w) (next_ref w) (localStorage w) (network w) (session w)
    b (persisted w).

(** The snapshot the persist effect writes for the empty session. *)
Definition empty_snapshot : jstring :=
  lit "{" ++ Browser.quote (lit "user") ++ lit ":null,"
  ++ Browser.quote (lit "accessToken") ++ lit ":null,"
  ++ Browser.quote (lit "refreshToken") ++ lit ":null}".

(** A settled world in which admin is logged in and the snapshot of the
    session is stored. *)
Definition admin_world : World :=
  set_localStorage
    {[ demo_auth := Browser.JSON_stringify (snapshot_js admin_session) ]}
    (quiet_world 1700000000000 admin_session false).

(** [logout()] and the render that follows it. *)
Definition logout_settled {host : Host} : M unit :=
  bind AuthProvider.logout (fun _ => AuthProvider.rerender).

(** A world still restoring its session: [loading] is true and no user
    is known yet. *)
Definition loading_world : World :=
  quiet_world 1700000000000 empty_session true.

Definition checking : Element := ScreenMsg "Loading session…".

(** *** Counting the calls of the request helper *)

Definition is_fetch (c : GatewayCall) : bool :=
  match c with GFetchWithAuth _ _ => true | _ => false end.
Definition is_getSecret (c : GatewayCall) : bool :=
  match c with GGetSecret _ => true | _ => false end.
Definition is_refresh (c : GatewayCall) : bool :=
  match c with GTryRefresh => true | _ => false end.
Definition is_unauthorized (c : GatewayCall) : bool :=
  match c with GOnUnauthorized => true | _ => false end.

Fixpoint count {A} (p : A -> bool) (l : list A) : nat :=
  match l with
  | [] => 0%nat
  | x :: r => ((if p x then 1 else 0) + count p r)%nat
  end.

Definition unauthorized : Response := mkResponse 401 unauthorized_body.

(** [get] started with an empty record of calls. *)
Definition run_get {host : Host} (cfg : HttpConfig) (url : jstring)
  (w : World) : completion Response * (World * list GatewayCall) :=
  get cfg url (w, []).

(** *** The request helper as [AuthProvider] builds it *)

(** [http.get(url)] on the [http] object of the current render. *)
Definition request {host : Host} (url : jstring) (w : World)
  : completion Response * (World * list GatewayCall) :=
  run_get (AuthProvider.http (accessToken (session w))) url w.

(** Token [token] is absent or expired in world [w]. *)
Definition unusable {host : Host} (token : JsVal) (w : World) : Prop :=
  truthy token = false \/ isExpired token (date_now w) = Normal true.

(** The access token of the session is absent or expired. *)
Definition token_unusable {host : Host} (w : World) : Prop :=
  unusable (opt_js (accessToken (session w))) w.

(** How [get] ends once it is left with a 401 in world [w]:
    [onUnauthorized?.()] is called, once where a callback is
    configured, and the 401 is the result; an error the callback
    itself throws is the only other result. [tail] is what [get]
    called from there, [c] its result and [w'] the world it leaves. *)
Definition gives_up (cfg : HttpConfig) (w : World)
  (tail : list GatewayCall) (c : completion Response) (w' : World)
  : Prop :=
  match onUnauthorized cfg with
  | None => tail = [] /\ c = Normal unauthorized /\ w' = w
  | Some f =>
      tail = [GOnUnauthorized] /\ w' = snd (f w) /\
      c = match fst (f w) with
          | Normal _ => Normal unauthorized
          | Throw e => Throw e
          end
  end.

(** What [request] does with an unusable token in this program, whose
    [http] object keeps the token of its render: it answers 401 and
    never reaches the protected resource, but it does call the refresh
    operation, once, and then the unauthorized callback. *)
Definition logs_out_on_local_401 {host : Host} (url : jstring) (w : World)
  : Prop :=
  exists w' calls,
    request url w = (Normal unauthorized, (w', calls)) /\
    count is_getSecret calls = 0%nat /\
    count is_refresh calls = 1%nat /\
    count is_unauthorized calls = 1%nat /\
    network w' = network w ++ [CallRefresh (refreshToken (session w))] /\
    session w' = empty_session.


(** What [get] does when the token it reads first, [token] in world
    [w1], is unusable: the first fetch is answered without the backend
    and one refresh follows, and nothing else is refreshed. Where the
    refresh fails, or the token read after it is unusable again, the
    protected resource is never called, the unauthorized callback is
    called (once, where one is configured) and the result is the 401,
    or the error of the callback where that throws. *)
Definition refresh_on_local_401 {host : Host} (cfg : HttpConfig)
  (url : jstring) (w : World) (token : JsVal) (w1 : World) : Prop :=
  exists c w' rest,
    run_get cfg url w
    = (c, (w', GFetchWithAuth url token :: GTryRefresh :: rest)) /\
    count is_refresh rest = 0%nat /\
    (forall w2, tryRefresh cfg w1 = (Normal false, w2) ->
       count is_fetch rest = 0%nat /\ count is_getSecret rest = 0%nat /\
       gives_up cfg w2 rest c w') /\
    (forall w2 token2 w3,
       tryRefresh cfg w1 = (Normal true, w2) ->
       getAccessToken cfg w2 = (Normal token2, w3) ->
       unusable token2 w3 ->
       count is_getSecret rest = 0%nat /\
       exists tail,
         rest = GFetchWithAuth url token2 :: tail /\
         gives_up cfg w3 tail c w').

(** A token that expired at second 1 of the epoch. *)
Definition expired_token : jstring :=
  bearer (Browser.b64_encode
            (Browser.JSON_stringify (JObj [(lit "exp", JNum 1)]))).

Definition expired_session : Session :=
  mkSession (Some admin_user) (Some expired_token) (Some (lit "abababab")).

Definition expired_world : World :=
  quiet_world 1700000000000 expired_session false.

(** *** The parts of a base64 encoding *)

(** The 6-bit groups of a byte string. *)
Fixpoint sextets (s : list N) : list N :=
  match s with
  | a :: b :: c :: rest =>
      (a / 4 :: (a mod 4) * 16 + b / 16 :: (b mod 16) * 4 + c / 64
       :: c mod 64 :: sextets rest)%N
  | [a; b] => [a / 4; (a mod 4) * 16 + b / 16; (b mod 16) * 4]%N
  | [a] => [a / 4; (a mod 4) * 16]%N
  | [] => []
  end.

(** The padding that completes the last group. *)
Fixpoint padding (s : list N) : list N :=
  match s with
  | _ :: _ :: _ :: rest => padding rest
  | [_; _] => [Browser.pad]
  | [_] => [Browser.pad; Browser.pad]
  | [] => []
  end.

(** The character of index [i] decodes to [i] and is neither white
    space, nor the padding, nor a dot. *)
Definition alphabet_ok (i : N) : bool :=
  (match Browser.b64_index (Browser.b64_char i) with
   | Some j => j =? i
   | None => false
   end
   && negb (Browser.is_ascii_whitespace (Browser.b64_char i))
   && negb (Browser.b64_char i =? Browser.pad)
   && negb (Browser.b64_char i =? dot))%N.

(** *** The claims [MockAPI.refresh] issues *)

Definition demo_claims (exp : Z) : JsVal :=
  claims 1 (lit "demo") [lit "USER"] exp.

(** The text of [JSON.stringify(demo_claims(exp))] up to the expiry. *)
Definition demo_prefix : jstring :=
  Eval vm_compute in
    (lit "{" ++ Browser.quote (lit "sub") ++ lit ":1,"
     ++ Browser.quote (lit "name") ++ lit ":" ++ Browser.quote (lit "demo")
     ++ lit "," ++ Browser.quote (lit "roles") ++ lit ":["
     ++ Browser.quote (lit "USER") ++ lit "],"
     ++ Browser.quote (lit "exp") ++ lit ":").

(** The token [MockAPI.refresh] builds when the clock reads [t]. *)
Definition demo_token (t : Z) : jstring :=
  bearer (Browser.b64_encode
            (Browser.JSON_stringify (demo_claims (t / 1000 + 60)))).

(** What a refresh with an accepted token [rt] yields, at the backend
    and, where [rt] is the refresh token of the session, in the session:
    a token that decodes to the demo claims, whoever the session's user
    is. *)
Definition refresh_yields_demo (rt : option jstring) (w : World) : Prop :=
  exists w1,
    @MockAPI_refresh browser rt w = (Normal (demo_token (date_now w1)), w1) /\
    date_now w + 400 <= date_now w1 /\
    @decodeJWT browser (JStr (demo_token (date_now w1)))
    = Normal (demo_claims (date_now w1 / 1000 + 60)) /\
    (refreshToken (session w) = rt ->
     exists w',
       @AuthProvider.tryRefresh browser w = (Normal true, w') /\
       accessToken (session w') = Some (demo_token (date_now w1)) /\
       user (session w') = user (session w) /\
       forall u, user (session w') = Some u -> roles u <> [lit "USER"] ->
         JArr (map JStr (roles u)) <> JArr [JStr (lit "USER")]).

(** The world once [MockAPI.refresh] has been called and its timer has
    fired. *)
Definition after_refresh_call (rt : option jstring) (w : World) : World :=
  snd (sleep 400 (snd (log_call (CallRefresh rt) w))).

(** A token whose [exp] is 0. *)
Definition zero_exp_token : jstring :=
  bearer (Browser.b64_encode
            (Browser.JSON_stringify (JObj [(lit "exp", JNum 0)]))).

(** ** Further contracts *)

(** Token [token] is present and unexpired in world [w]. *)
Definition usable {host : Host} (token : JsVal) (w : World) : Prop :=
  truthy token = true /\ isExpired token (date_now w) = Normal false.

(** What [get] does when the token it reads, [token] in world [w1], is
    usable: one fetch, one backend call, the backend's payload as a 200
    answer, and neither a refresh nor the unauthorized callback. *)
Definition direct_success {host : Host} (cfg : HttpConfig) (url : jstring)
  (w : World) (token : JsVal) (w1 : World) : Prop :=
  exists w',
    run_get cfg url w
    = (Normal (mkResponse 200 (secret url)),
       (w', [GFetchWithAuth url token; GGetSecret url])) /\
    network w' = network w1 ++ [CallGetSecret url] /\
    session w' = session w1 /\
    localStorage w' = localStorage w1 /\
    date_now w1 + 300 <= date_now w'.

(** One call of [get] refreshes at most once and fetches at most twice,
    the backend being reached at most once. Where it fetched, refreshed
    and fetched again, the refresh had succeeded and the second fetch
    used the token read after it; a second 401 (that token is unusable)
    is not retried: [get] ends as [gives_up] says, with that 401 as its
    result; otherwise the one backend call follows and its answer is
    the result. *)
Definition single_retry {host : Host} (cfg : HttpConfig) (url : jstring)
  (w : World) : Prop :=
  exists c w' calls,
    run_get cfg url w = (c, (w', calls)) /\
    (count is_refresh calls <= 1)%nat /\
    (count is_fetch calls <= 2)%nat /\
    (count is_getSecret calls <= 1)%nat /\
    forall t1 t2 rest,
      calls = GFetchWithAuth url t1 :: GTryRefresh
              :: GFetchWithAuth url t2 :: rest ->
      exists w1 w2 w3,
        getAccessToken cfg w = (Normal t1, w1) /\
        tryRefresh cfg w1 = (Normal true, w2) /\
        getAccessToken cfg w2 = (Normal t2, w3) /\
        ((usable t2 w3 /\ rest = [GGetSecret url] /\
          c = Normal (mkResponse 200 (secret url))) \/
         (unusable t2 w3 /\ gives_up cfg w3 rest c w')).

(** The same for the request helper as [AuthProvider] builds it, whose
    callback is [logout]: a second 401 is the result, after the one
    call of [logout]. *)
Definition gateway_single_retry {host : Host} (url : jstring) (w : World)
  : Prop :=
  exists c w' calls,
    request url w = (c, (w', calls)) /\
    (count is_refresh calls <= 1)%nat /\
    (count is_fetch calls <= 2)%nat /\
    (count is_getSecret calls <= 1)%nat /\
    forall t1 t2 rest,
      calls = GFetchWithAuth url t1 :: GTryRefresh
              :: GFetchWithAuth url t2 :: rest ->
      (rest = [GGetSecret url] /\
       c = Normal (mkResponse 200 (secret url))) \/
      (rest = [GOnUnauthorized] /\ c = Normal unauthorized /\
       session w' = empty_session).

(** A lower-case hexadecimal digit. *)
Definition is_hex_lower (c : N) : bool :=
  ((48 <=? c) && (c <=? 57) || (97 <=? c) && (c <=? 102))%N.

(** What [cryptoRandom] returns from the bytes [arr] of
    [crypto.getRandomValues]: two lower-case hexadecimal digits a byte,
    so a text that does not start with x. *)
Definition hex_of_bytes (arr : list N) (w : World) : Prop :=
  exists s w',
    cryptoRandom w = (Normal s, w') /\
    length s = (2 * length arr)%nat /\
    forallb is_hex_lower s = true /\
    (arr <> [] -> refresh_rejected (Some s) = false) /\
    session w' = session w /\ network w' = network w.

(** What [RequireAuth] renders. *)
Definition auth_gate_outcome {host : Host} (location : jstring) (w : World)
  : Prop :=
  exists el,
    RequireAuth location w = Normal el /\
    (el = checking <-> loading w = true) /\
    (el = Outlet <->
       loading w = false /\
       exists u tok,
         user (session w) = Some u /\
         accessToken (session w) = Some tok /\
         usable (JStr tok) w) /\
    (el <> checking -> el <> Outlet ->
     el = Navigate (lit "/login") (Some location) true).

(** *** The fixed parts of the JSON texts the program writes *)

(** [{"sub":], [,"name":], [,"roles":] and [,"exp":] *)
Definition claims_k1 : jstring :=
  Eval vm_compute in (lit "{" ++ Browser.quote (lit "sub") ++ lit ":").
Definition claims_k2 : jstring :=
  Eval vm_compute in (lit "," ++ Browser.quote (lit "name") ++ lit ":").
Definition claims_k3 : jstring :=
  Eval vm_compute in (lit "," ++ Browser.quote (lit "roles") ++ lit ":").
Definition claims_k4 : jstring :=
  Eval vm_compute in (lit "," ++ Browser.quote (lit "exp") ++ lit ":").

(** [{"id":] *)
Definition user_k1 : jstring :=
  Eval vm_compute in (lit "{" ++ Browser.quote (lit "id") ++ lit ":").

(** [{"user":], [,"accessToken":] and [,"refreshToken":] *)
Definition snapshot_k1 : jstring :=
  Eval vm_compute in (lit "{" ++ Browser.quote (lit "user") ++ lit ":").
Definition snapshot_k2 : jstring :=
  Eval vm_compute in
    (lit "," ++ Browser.quote (lit "accessToken") ++ lit ":").
Definition snapshot_k3 : jstring :=
  Eval vm_compute in
    (lit "," ++ Browser.quote (lit "refreshToken") ++ lit ":").

(** What may follow a number in a JSON text the program writes: a
    comma, a closing brace or a closing bracket. *)
Definition ends_number (c : N) : bool :=
  ((c =? 44) || (c =? 125) || (c =? 93))%N.

(** The token [MockAPI.login] builds for [username] when the clock
    reads [t]. *)
Definition login_claims (username : jstring) (t : Z) : JsVal :=
  claims 1 username (roles_of username) (t / 1000 + 60).

Definition login_token (username : jstring) (t : Z) : jstring :=
  bearer (Browser.b64_encode
            (Browser.JSON_stringify (login_claims username t))).

(** What a login with a Latin-1 user name and an accepted password
    does in a browser: it returns the user, replaces the whole session,
    and the access token it stores decodes to claims with the user's
    name and roles and an expiry 60 seconds after the clock reading
    [date_now w'] at which the backend answered. *)
Definition login_establishes (username : jstring)
  (password : option jstring) (w : World) : Prop :=
  exists rt w',
    let u := mkUser (next_ref w) 1 username (roles_of username) in
    @AuthProvider.login browser username password w = (Normal u, w') /\
    session w'
    = mkSession (Some u) (Some (login_token username (date_now w')))
        (Some rt) /\
    @decodeJWT browser (JStr (login_token username (date_now w')))
    = Normal (login_claims username (date_now w')) /\
    date_now w + 600 <= date_now w' /\
    network w' = network w ++ [CallLogin username] /\
    localStorage w' = localStorage w.

(** The world once [MockAPI.login] has been called, its timer has fired
    and the user object has been allocated. *)
Definition after_login_call (username : jstring) (w : World) : World :=
  let w1 := snd (sleep 600 (snd (log_call (CallLogin username) w))) in
  set_next_ref (S (next_ref w1)) w1.

(** What the role gate renders right after a login as [username]. *)
Definition gates_by_username (username : jstring) (w' : World) : Prop :=
  (RequireRoles (Some [lit "ADMIN"]) w' = Outlet
   <-> username = lit "admin") /\
  (RequireRoles (Some [lit "MODERATOR"]) w' = Outlet
   <-> username = lit "mod" \/ username = lit "moderator") /\
  RequireRoles (Some [lit "USER"]) w' = Outlet /\
  forall required,
    RequireRoles required w' = Outlet \/
    RequireRoles required w' = Navigate (lit "/403") None true.

(** A world a while after the login of [login_establishes]. *)
Definition admin_logged_in (t : Z) : World :=
  quiet_world t
    (mkSession (Some admin_user)
       (Some (login_token (lit "admin") 1700000000600))
       (Some (lit "abababab")))
    false.

(** What a refresh right after a login does, where the login drew its
    refresh token from [crypto.getRandomValues]: it succeeds, keeps the
    user, and the role gate renders what it rendered before. *)
Definition login_then_refresh (username : jstring)
  (password : option jstring) (w : World) : Prop :=
  exists u w1 w2,
    @AuthProvider.login browser username password w = (Normal u, w1) /\
    @AuthProvider.tryRefresh browser w1 = (Normal true, w2) /\
    user (session w2) = Some u /\
    refreshToken (session w2) = refreshToken (session w1) /\
    accessToken (session w2) = Some (demo_token (date_now w2)) /\
    forall required,
      RequireRoles required w2 = RequireRoles required w1.

(** The refresh token [cryptoRandom] draws in world [w]. *)
Definition drawn_token (w : World) : jstring :=
  match random_bytes w (draws w) with
  | Some arr => concat (map hex2 arr)
  | None => skipn 2 (math_random36 w (draws w))
  end.

(** The world a successful login in a browser leaves. *)
Definition after_login (username : jstring) (w : World) : World :=
  let w2 := after_login_call username w in
  set_session
    (mkSession (Some (mkUser (next_ref w) 1 username (roles_of username)))
       (Some (login_token username (date_now w2)))
       (Some (drawn_token w)))
    (set_draws (S (draws w)) w2).

(** The world a successful refresh in a browser leaves. *)
Definition after_refresh (w : World) : World :=
  let w1 := after_refresh_call (refreshToken (session w)) w in
  set_session
    (mkSession (user (session w)) (Some (demo_token (date_now w1)))
       (refreshToken (session w)))
    w1.

(** ** The boot effect of [AuthProvider] *)

(** [v.k] for a key no prototype carries, as [user], [accessToken] and
    [refreshToken] are: reading from [null] or [undefined] throws, an
    object gives its own property, any other value [undefined]. *)
Definition js_member (v : JsVal) (k : jstring) : completion JsVal :=
  match v with
  | JUndefined | JNull => Throw TypeError
  | JObj fields =>
      Normal (match assoc k fields with
              | Some x => x
              | None => JUndefined
              end)
  | _ => Normal JUndefined
  end.

(** [v ?? null] *)
Definition or_null (v : JsVal) : JsVal :=
  match v with
  | JUndefined | JNull => JNull
  | _ => v
  end.

(** What the boot effect passes to [setUser], to [setAccessToken] and
    to [refreshRef.current]. *)
Record Restored : Type := mkRestored {
  restored_user : JsVal;
  restored_accessToken : JsVal;
  restored_refreshToken : JsVal
}.

Section Boot.
Context {host : Host}.

(** [if (saved) { const parsed = JSON.parse(saved); ... }]: [None]
    where nothing is restored. *)
Definition boot_read (saved : option jstring)
  : completion (option Restored) :=
  match saved with
  | None => Normal None
  | Some text =>
      if negb (truthy (JStr text)) then Normal None
      else
        cbind (JSON_parse text) (fun parsed =>
        cbind (js_member parsed (lit "user")) (fun u =>
        cbind (js_member parsed (lit "accessToken")) (fun a =>
        cbind (js_member parsed (lit "refreshToken")) (fun r =>
        Normal (Some (mkRestored (or_null u) (or_null a) (or_null r)))))))
  end.

(** The boot effect: it reads the snapshot, hands the restored values
    to the setters (they are the result here) and ends loading. An
    error thrown on the way leaves [loading] as it was. *)
Definition boot : M (option Restored) :=
  bind (gets (fun w => localStorage w !! demo_auth)) (fun saved =>
  bind (lift_c (boot_read saved)) (fun restored =>
  bind (modify (set_loading false)) (fun _ =>
  ret restored))).

End Boot.

(** The values the stored session [s] is restored as. *)
Definition restored_of (s : Session) : Restored :=
  mkRestored
    (match user s with Some u => user_js u | None => JNull end)
    (opt_js (accessToken s)) (opt_js (refreshToken s)).

(** A world whose stored snapshot is the text [null]. *)
Definition null_snapshot_world : World :=
  set_localStorage {[ demo_auth := lit "null" ]} loading_world.

(** ** The protected-route demo

    [src/unnamed/part_000]: [validateToken], [ProtectedRoute] and the
    login page's [handleLogin]. Its [decodeJWT] is, letter for letter,
    the one above. *)
Module ProtectedRouteDemo.

Definition access_token : jstring := lit "access_token".

Section Demo.
Context {host : Host}.

(** [data.exp && data.exp > now] gives its left operand where that is
    falsy. *)
Definition validateToken (token : JsVal) : M JsVal :=
  bind (sleep 800) (fun _ =>
  bind (lift_c (decodeJWT token)) (fun data =>
  if negb (truthy data) then ret (JBool false)
  else
    bind (gets date_now) (fun t =>
    let now := t / 1000 in
    if truthy (get_exp data) then ret (JBool (js_gt_num (get_exp data) now))
    else ret (get_exp data)))).

(** The effect [ProtectedRoute] runs when it mounts; its result is the
    value [isValid] is set to. *)
Definition check_stored_token : M JsVal :=
  bind (gets (fun w => localStorage w !! access_token)) (fun token =>
  match token with
  | None => ret (JBool false)
  | Some t =>
      if negb (truthy (JStr t)) then ret (JBool false)
      else validateToken (JStr t)
  end).

(** What [ProtectedRoute] renders for a value of [isValid]; it starts
    as [null]. *)
Definition ProtectedRoute (isValid : JsVal) : Element :=
  match isValid with
  | JNull => ScreenMsg "Checking authentication..."
  | v =>
      if negb (truthy v) then Navigate (lit "/login") None true
      else Outlet
  end.

(** [{ user: "demo", exp }] *)
Definition fake_claims (exp : Z) : JsVal :=
  JObj [(lit "user", JStr (lit "demo")); (lit "exp", JNum exp)].

(** [handleLogin]; the result is the address it navigates to. *)
Definition handleLogin : M jstring :=
  bind (gets date_now) (fun t =>
  let exp := t / 1000 + 60 in
  bind (lift_c (btoa (JSON_stringify (fake_claims exp)))) (fun fakePayload =>
  let token := bearer fakePayload in
  bind (setItem access_token token) (fun _ =>
  ret (lit "/dashboard")))).

End Demo.
End ProtectedRouteDemo.

(** [validateToken] and [isExpired] on the same token: a token the
    first accepts is unexpired for the second at the clock reading
    [validateToken] used, and for a payload with no [exp] or a numeric
    one the two agree. *)
Definition validation_agrees {host : Host} (token : JsVal) (w : World)
  : Prop :=
  exists v w',
    ProtectedRouteDemo.validateToken token w = (Normal v, w') /\
    date_now w + 800 <= date_now w' /\
    (truthy v = true -> isExpired token (date_now w') = Normal false) /\
    forall p, decodeJWT token = Normal p -> exp_absent_or_number p ->
      (truthy v = true <-> isExpired token (date_now w') = Normal false).

(** What [ProtectedRoute] renders once its effect has run in world
    [w]. *)
Definition protected_route_outcome {host : Host} (w : World) : Prop :=
  exists v w',
    ProtectedRouteDemo.check_stored_token w = (Normal v, w') /\
    let el := ProtectedRouteDemo.ProtectedRoute v in
    (el = Outlet <->
       exists t p,
         localStorage w !! ProtectedRouteDemo.access_token = Some t /\
         t <> [] /\ decodeJWT (JStr t) = Normal p /\ truthy p = true /\
         truthy (get_exp p) = true /\
         js_gt_num (get_exp p) (date_now w' / 1000) = true) /\
    (el = ScreenMsg "Checking authentication..." <->
       exists t p,
         localStorage w !! ProtectedRouteDemo.access_token = Some t /\
         t <> [] /\ decodeJWT (JStr t) = Normal p /\ truthy p = true /\
         get_exp p = JNull) /\
    (el <> Outlet -> el <> ScreenMsg "Checking authentication..." ->
     el = Navigate (lit "/login") None true).

(** [{"user":"demo","exp":] *)
Definition fake_prefix : jstring :=
  Eval vm_compute in
    (lit "{" ++ Browser.quote (lit "user") ++ lit ":"
     ++ Browser.quote (lit "demo") ++ lit ","
     ++ Browser.quote (lit "exp") ++ lit ":").

(** The token [handleLogin] stores when the clock reads [t]. *)
Definition fake_token (t : Z) : jstring :=
  bearer (Browser.b64_encode
            (Browser.JSON_stringify
               (ProtectedRouteDemo.fake_claims (t / 1000 + 60)))).

(** What the login page's button does in world [w], and what
    [ProtectedRoute] renders in a later world [w2] that still holds the
    token: the outlet before the token's expiry second, the redirect
    from then on. *)
Definition fake_login_lifetime (w w2 : World) : Prop :=
  exists w1,
    @ProtectedRouteDemo.handleLogin browser w
    = (Normal (lit "/dashboard"), w1) /\
    localStorage w1 !! ProtectedRouteDemo.access_token
    = Some (fake_token (date_now w)) /\
    session w1 = session w /\
    (localStorage w2 !! ProtectedRouteDemo.access_token
     = Some (fake_token (date_now w)) ->
     exists v w2',
       @ProtectedRouteDemo.check_stored_token browser w2
       = (Normal v, w2') /\
       date_now w2 + 800 <= date_now w2' /\
       ProtectedRouteDemo.ProtectedRoute v
       = if date_now w2' / 1000 <? date_now w / 1000 + 60 then Outlet
         else Navigate (lit "/login") None true).

(** ** The login form

    [src/server.js], below the Express stub: the [LoginForm] component
    with its [validate] and [handleSubmit]. *)

(** [try { body } finally { fin }] *)
Definition finally {S A} (body : ST S A) (fin : ST S unit) : ST S A :=
  fun s =>
    match body s with
    | (r, s') =>
        match fin s' with
        | (Normal _, s'') => (r, s'')
        | (Throw e, s'') => (Throw e, s'')
        end
    end.

Module LoginForm.

(** *** Regular expressions

    The pattern of the form is built from character classes,
    concatenation and repetition. On a pattern anchored at both ends
    [test] decides whether the whole string belongs to the pattern's
    language; it is computed here with derivatives. *)
Inductive regex : Type :=
| Nul
| Eps
| Cls (p : N -> bool)
| Cat (a b : regex)
| Alt (a b : regex)
| Star (a : regex).

(** [a+] and [a{2,}] *)
Definition Plus (a : regex) : regex := Cat a (Star a).
Definition AtLeast2 (a : regex) : regex := Cat a (Cat a (Star a)).

Fixpoint nullable (r : regex) : bool :=
  match r with
  | Nul => false
  | Eps => true
  | Cls _ => false
  | Cat a b => nullable a && nullable b
  | Alt a b => nullable a || nullable b
  | Star _ => true
  end.

Fixpoint deriv (c : N) (r : regex) : regex :=
  match r with
  | Nul => Nul
  | Eps => Nul
  | Cls p => if p c then Eps else Nul
  | Cat a b =>
      if nullable a then Alt (Cat (deriv c a) b) (deriv c b)
      else Cat (deriv c a) b
  | Alt a b => Alt (deriv c a) (deriv c b)
  | Star a => Cat (deriv c a) (Star a)
  end.

Fixpoint test (r : regex) (s : jstring) : bool :=
  match s with
  | [] => nullable r
  | c :: s' => test (deriv c r) s'
  end.

(** The language of a pattern. *)
Inductive star (P : jstring -> Prop) : jstring -> Prop :=
| star_nil : star P []
| star_app (s1 s2 : jstring) : P s1 -> star P s2 -> star P (s1 ++ s2).

Fixpoint lang (r : regex) : jstring -> Prop :=
  match r with
  | Nul => fun _ => False
  | Eps => fun s => s = []
  | Cls p => fun s => exists c, s = [c] /\ p c = true
  | Cat a b =>
      fun s => exists s1 s2, s = s1 ++ s2 /\ lang a s1 /\ lang b s2
  | Alt a b => fun s => lang a s \/ lang b s
  | Star a => star (lang a)
  end.

(** [[^\s@]], [@] and [\.] *)
Definition plain (c : N) : bool :=
  negb (Browser.is_str_ws c || (c =? 64)%N).
Definition at_sign (c : N) : bool := (c =? 64)%N.
Definition dot (c : N) : bool := (c =? 46)%N.

(** [/^[^\s@]+@[^\s@]+\.[^\s@]{2,}$/] *)
Definition email_pattern : regex :=
  Cat (Plus (Cls plain))
    (Cat (Cls at_sign)
       (Cat (Plus (Cls plain))
          (Cat (Cls dot) (AtLeast2 (Cls plain))))).

(** *** The component's state *)

Inductive Status : Type := idle | submitting | success | error.

(** The object [validate] builds: a key is present where a message
    is. *)
Record Errors : Type := mkErrors {
  email_error : option string;
  password_error : option string
}.

(** [Object.keys(v).length] *)
Definition present (m : option string) : nat :=
  match m with
  | Some _ => 1
  | None => 0
  end.

Definition keys (v : Errors) : nat :=
  (present (email_error v) + present (password_error v))%nat.

Record Form : Type := mkForm {
  email : jstring;
  password : jstring;
  remember : bool;
  showPassword : bool;
  errors : Errors;
  status : Status;
  serverError : string
}.

Definition setErrors (v : Errors) (f : Form) : Form :=
  mkForm (email f) (password f) (remember f) (showPassword f) v
    (status f) (serverError f).

Definition setStatus (s : Status) (f : Form) : Form :=
  mkForm (email f) (password f) (remember f) (showPassword f) (errors f)
    s (serverError f).

Definition setServerError (m : string) (f : Form) : Form :=
  mkForm (email f) (password f) (remember f) (showPassword f) (errors f)
    (status f) m.

Definition saved_email : jstring := lit "saved_email".

Definition is_empty (s : jstring) : bool :=
  match s with
  | [] => true
  | _ :: _ => false
  end.

Definition validate (email password : jstring) : Errors :=
  mkErrors
    (if is_empty (Browser.trim email) then Some "Email is required"%string
     else if negb (test email_pattern email)
          then Some "Enter a valid email"%string
          else None)
    (if is_empty password then Some "Password is required"%string
     else if (length password <? 6)%nat then Some "Min 6 characters"%string
          else None).

Definition invalid_login : JsError :=
  Error "Invalid email or password" None.

(** [err?.message || "Login failed"]. The messages of the built-in
    errors are the host's; the body of the [try] throws none of
    them. *)
Definition message_or (err : JsError) (fallback : string) : string :=
  match err with
  | Error EmptyString _ => fallback
  | Error m _ => m
  | _ => fallback
  end.

(** [handleSubmit], from the state of the render it was created in to
    the state after it. *)
Definition handleSubmit (f : Form) : M Form :=
  let f0 := setServerError EmptyString f in
  let v := validate (email f) (password f) in
  let f1 := setErrors v f0 in
  if negb (keys v =? 0)%nat then ret f1
  else
    let f2 := setStatus submitting f1 in
    finally
      (catch
         (bind (sleep 900) (fun _ =>
          if negb (jstr_eqb (password f) (lit "secret123"))
          then throw invalid_login
          else ret (setStatus success f2)))
         (fun err =>
            ret (setStatus error
                   (setServerError (message_or err "Login failed") f2))))
      (if remember f
       then catch (setItem saved_email (email f)) (fun _ => ret tt)
       else ret tt).

End LoginForm.

(** An address the form's pattern accepts: one [@], no white space, a
    non-empty local part, and after the [@] a non-empty part, a dot and
    at least two more code units. *)
Definition well_formed_email (s : jstring) : Prop :=
  exists l d t,
    s = l ++ 64%N :: d ++ 46%N :: t /\
    l <> [] /\ d <> [] /\ (2 <= length t)%nat /\
    forallb LoginForm.plain (l ++ d ++ t) = true.

(** What [validate] reports for each field. *)
Definition validate_reports (email password : jstring) : Prop :=
  let v := LoginForm.validate email password in
  (LoginForm.email_error v
   = if forallb Browser.is_str_ws email then Some "Email is required"%string
     else if LoginForm.test LoginForm.email_pattern email then None
          else Some "Enter a valid email"%string) /\
  (LoginForm.password_error v
   = if (length password =? 0)%nat then Some "Password is required"%string
     else if (length password <? 6)%nat then Some "Min 6 characters"%string
          else None) /\
  (LoginForm.keys v = 0%nat
   <-> well_formed_email email /\ (6 <= length password)%nat).

(** What one submission does to the form [f] and the world [w]. *)
Definition submission (f : LoginForm.Form) (w : World) : Prop :=
  exists f' w',
    LoginForm.handleSubmit f w = (Normal f', w') /\
    LoginForm.email f' = LoginForm.email f /\
    LoginForm.password f' = LoginForm.password f /\
    LoginForm.remember f' = LoginForm.remember f /\
    LoginForm.errors f'
    = LoginForm.validate (LoginForm.email f) (LoginForm.password f) /\
    (LoginForm.keys (LoginForm.errors f') <> 0%nat ->
     w' = w /\ LoginForm.status f' = LoginForm.status f /\
     LoginForm.serverError f' = EmptyString) /\
    (LoginForm.keys (LoginForm.errors f') = 0%nat ->
     date_now w + 900 <= date_now w' /\
     network w' = network w /\ session w' = session w /\
     localStorage w'
     = (if LoginForm.remember f
        then <[LoginForm.saved_email := LoginForm.email f]> (localStorage w)
        else localStorage w) /\
     (LoginForm.password f = lit "secret123" /\
      LoginForm.status f' = LoginForm.success /\
      LoginForm.serverError f' = EmptyString \/
      LoginForm.password f <> lit "secret123" /\
      LoginForm.status f' = LoginForm.error /\
      LoginForm.serverError f' = "Invalid email or password"%string)).

(** A fresh form filled with an address and a password. *)
Definition filled_form (email password : string) (remember : bool)
  : LoginForm.Form :=
  LoginForm.mkForm (lit email) (lit password) remember false
    (LoginForm.mkErrors None None) LoginForm.idle EmptyString.

(** * Token inspector *)

Section TokenFacts.
Context {host : Host}.

Lemma decodeJWT_returns (token : JsVal) : returns (decodeJWT token).
Proof.
  unfold decodeJWT, try_catch, returns.
  destruct (decodeJWT_try token); eauto.
Qed.

Lemma decodeJWT_malformed (token : JsVal) (e : JsError) :
  decodeJWT_try token = Throw e -> decodeJWT token = Normal JNull.
Proof. intros H. unfold decodeJWT. now rewrite H. Qed.

Lemma decodeJWT_not_a_string (token : JsVal) :
  (forall s, token <> JStr s) -> decodeJWT token = Normal JNull.
Proof.
  intros H. destruct token; try reflexivity. now destruct (H s).
Qed.

Lemma isExpired_of_decoded (token p : JsVal) (t : Z) :
  decodeJWT token = Normal p ->
  isExpired token t =
    Normal (negb (truthy (get_exp p)) || js_le_num (get_exp p) (t / 1000)).
Proof.
  intros H. unfold isExpired. rewrite H. simpl.
  now destruct (truthy (get_exp p)).
Qed.

Lemma isExpired_returns (token : JsVal) (t : Z) : returns (isExpired token t).
Proof.
  destruct (decodeJWT_returns token) as [p Hp].
  rewrite (isExpired_of_decoded _ _ _ Hp). now eexists.
Qed.

(** An expired token stays expired. *)
Lemma isExpired_mono (token : JsVal) (t1 t2 : Z) :
  t1 <= t2 -> isExpired token t1 = Normal true ->
  isExpired token t2 = Normal true.
Proof.
  intros Ht. destruct (decodeJWT_returns token) as [p Hp].
  rewrite !(isExpired_of_decoded _ _ _ Hp). intros [= H]. f_equal.
  apply orb_true_iff in H. apply orb_true_iff.
  destruct H as [H|H]; [now left|right].
  unfold js_le_num in *. destruct (ToNumber (get_exp p)); [|discriminate].
  apply Z.leb_le in H. apply Z.leb_le.
  pose proof (Z.div_le_mono t1 t2 1000 ltac:(lia) Ht). lia.
Qed.

End TokenFacts.

(** C7, amended. With the clock at or after the epoch: [decodeJWT]
    never throws and gives [null] where the token is malformed; and for
    a token whose payload has no [exp] or a numeric one, [isExpired] is
    true iff the payload is [null], or has no [exp], or [exp <= now],
    and false exactly when the payload decodes and [exp > now]. *)
Theorem isExpired_contract {host : Host} (token : JsVal) (t : Z) :
  0 <= t -> expiry_contract token t.
Proof.
  intros Ht. destruct (decodeJWT_returns token) as [p Hp].
  assert (0 <= t / 1000) as Hn by (apply Z.div_pos; lia).
  exists p. split; [exact Hp|]. split.
  - intros e He. rewrite (decodeJWT_malformed _ _ He) in Hp. congruence.
  - rewrite (isExpired_of_decoded _ _ _ Hp).
    intros [Hu|[exp He]].
    + rewrite Hu. simpl. split; split.
      * auto.
      * reflexivity.
      * discriminate.
      * intros (_ & exp & [=] & _).
    + rewrite He. unfold js_le_num. simpl. split; split.
      * intros [= H]. right. right. exists exp. split; [reflexivity|].
        apply orb_true_iff in H as [H|H].
        -- apply negb_true_iff, negb_false_iff, Z.eqb_eq in H. lia.
        -- now apply Z.leb_le.
      * intros [->|[[=]|(exp' & [= <-] & H)]]; [discriminate|].
        f_equal. apply orb_true_iff. right. now apply Z.leb_le.
      * intros [= H]. apply orb_false_iff in H as [_ H].
        apply Z.leb_gt in H. split; [intros ->; discriminate|].
        exists exp. auto.
      * intros (_ & exp' & [= <-] & H). f_equal. apply orb_false_iff. split.
        -- apply negb_false_iff, negb_true_iff, Z.eqb_neq. lia.
        -- apply Z.leb_gt. lia.
Qed.

Lemma isExpired_contract_witness :
  0 <= 1700000000000 /\
  @expiry_contract browser (JStr expired_token) 1700000000000.
Proof.
  split; [lia | apply (@isExpired_contract browser); lia].
Defined.

(** The token of the witness has a numeric [exp] and is expired. *)
Lemma expired_token_decoded :
  @decodeJWT browser (JStr expired_token)
    = Normal (JObj [(lit "exp", JNum 1)]) /\
  @exp_absent_or_number browser (JObj [(lit "exp", JNum 1)]) /\
  @isExpired browser (JStr expired_token) 1700000000000 = Normal true.
Proof.
  split; [vm_compute; reflexivity|]. split; [right; now exists 1|].
  vm_compute. reflexivity.
Qed.

(** Before the epoch the first equivalence fails: [!p?.exp] takes an
    [exp] of 0 for a missing one. *)
Lemma isExpired_zero_exp_before_epoch :
  @decodeJWT browser (JStr zero_exp_token)
    = Normal (JObj [(lit "exp", JNum 0)]) /\
  @isExpired browser (JStr zero_exp_token) (-1000) = Normal true /\
  @js_le_num browser (JNum 0) (-1000 / 1000) = false.
Proof. vm_compute. repeat split. Qed.

(** C7 as stated fails: a token whose [exp] is the string "never"
    decodes, carries an [exp], and is reported unexpired although its
    [exp] is not greater than the current time. *)
Lemma isExpired_never_token :
  @decodeJWT browser (JStr never_token)
    = Normal (JObj [(lit "exp", JStr (lit "never"))]) /\
  @isExpired browser (JStr never_token) 1700000000000 = Normal false /\
  @js_gt_num browser (JStr (lit "never")) (1700000000000 / 1000) = false.
Proof. vm_compute. repeat split. Qed.

(** * Mock API *)

Ltac st_unfold :=
  unfold bind, ret, throw, modify, gets, lift_c, catch, log_call, sleep in *.

Section BackendFacts.
Context {host : Host}.

Lemma password_rejected_iff (p : option jstring) :
  password_rejected p = true <-> absent_or_short p.
Proof.
  unfold absent_or_short. destruct p as [s|]; simpl.
  - rewrite orb_true_iff. split.
    + intros H. right. exists s. split; [reflexivity|].
      destruct H as [H|H].
      * destruct s; [simpl; lia|discriminate].
      * apply Z.ltb_lt in H. lia.
    + intros [H|(s' & [= <-] & H)]; [discriminate|].
      right. apply Z.ltb_lt. lia.
  - split; auto.
Qed.

Lemma MockAPI_login_rejected (u : jstring) (p : option jstring) (w : World) :
  password_rejected p = true ->
  exists w',
    MockAPI_login u p w = (Throw invalid_credentials, w') /\
    session w' = session w /\
    localStorage w' = localStorage w /\
    network w' = network w ++ [CallLogin u].
Proof.
  intros H. unfold MockAPI_login. st_unfold. simpl. rewrite H.
  eexists. split; [reflexivity|]. simpl. auto.
Qed.

(** The password enters [MockAPI.login] through the length check only. *)
Lemma MockAPI_login_password_blind (u : jstring) (p1 p2 : option jstring)
  (w : World) :
  password_rejected p1 = false -> password_rejected p2 = false ->
  MockAPI_login u p1 w = MockAPI_login u p2 w.
Proof.
  intros H1 H2. unfold MockAPI_login. st_unfold. simpl.
  now rewrite H1, H2.
Qed.

Lemma MockAPI_login_user (u : jstring) (p : option jstring) (w w' : World)
  (r : LoginResult) :
  MockAPI_login u p w = (Normal r, w') ->
  lr_user r = mkUser (next_ref w) 1 u (roles_of u).
Proof.
  unfold MockAPI_login, cryptoRandom. st_unfold. simpl.
  destruct (password_rejected p); [discriminate|]. simpl.
  destruct (btoa _); [|discriminate].
  destruct (random_bytes w (draws w)); intros [= <- _]; reflexivity.
Qed.

Lemma MockAPI_refresh_session (rt : option jstring) (w : World) :
  session (snd (MockAPI_refresh rt w)) = session w.
Proof.
  unfold MockAPI_refresh. st_unfold. simpl.
  destruct (refresh_rejected rt); [reflexivity|]. simpl.
  destruct (btoa _); reflexivity.
Qed.

Lemma MockAPI_refresh_accepted (rt : option jstring) (w : World) :
  refresh_rejected rt = false ->
  MockAPI_refresh rt w
  = (cbind (btoa (JSON_stringify
                    (claims 1 (lit "demo") [lit "USER"]
                       (date_now (after_refresh_call rt w) / 1000 + 60))))
       (fun payload => Normal (bearer payload)),
     after_refresh_call rt w).
Proof.
  intros H. unfold MockAPI_refresh, after_refresh_call. st_unfold.
  cbn -[Z.div]. rewrite H. cbn -[Z.div].
  destruct (btoa _); reflexivity.
Qed.

Lemma MockAPI_refresh_network (rt : option jstring) (w : World) :
  network (snd (MockAPI_refresh rt w)) = network w ++ [CallRefresh rt].
Proof.
  unfold MockAPI_refresh. st_unfold. simpl.
  destruct (refresh_rejected rt); [reflexivity|]. simpl.
  destruct (btoa _); reflexivity.
Qed.

Lemma MockAPI_refresh_clock (rt : option jstring) (w : World) :
  date_now w <= date_now (snd (MockAPI_refresh rt w)).
Proof.
  unfold MockAPI_refresh. st_unfold. simpl.
  destruct (refresh_rejected rt); simpl; [lia|].
  destruct (btoa _); simpl; lia.
Qed.

End BackendFacts.

(** * Session manager *)

(** C6. A password that is absent or shorter than 6 characters makes
    [login] throw the "Invalid credentials" error to its caller after a
    single backend call, with the session and the stored snapshot as
    they were. *)
Theorem login_invalid_credentials {host : Host} (username : jstring)
  (password : option jstring) (w : World) :
  absent_or_short password ->
  exists w',
    AuthProvider.login username password w = (Throw invalid_credentials, w') /\
    session w' = session w /\
    localStorage w' = localStorage w /\
    network w' = network w ++ [CallLogin username].
Proof.
  intros H. apply password_rejected_iff in H.
  destruct (MockAPI_login_rejected username password w H) as (w' & E & Hs).
  exists w'. split; [|exact Hs].
  unfold AuthProvider.login. unfold bind at 1. now rewrite E.
Qed.

Lemma login_invalid_credentials_witness :
  absent_or_short (Some (lit "12345")) /\
  exists w',
    @AuthProvider.login browser (lit "admin") (Some (lit "12345"))
      (quiet_world 1700000000000 empty_session false)
    = (Throw invalid_credentials, w') /\
    session w' = session (quiet_world 1700000000000 empty_session false) /\
    localStorage w'
    = localStorage (quiet_world 1700000000000 empty_session false) /\
    network w'
    = network (quiet_world 1700000000000 empty_session false)
      ++ [CallLogin (lit "admin")].
Proof.
  assert (absent_or_short (Some (lit "12345"))) as H.
  { right. eexists. split; [reflexivity|]. simpl. lia. }
  split; [exact H|].
  exact (@login_invalid_credentials browser _ _ _ H).
Defined.

(** C5. [refresh] always returns a boolean. Where the backend issues a
    token it returns true and only the access token changes: the user
    and the refresh token are the ones held before. Where the backend
    call fails it returns false and the session is untouched. *)
Theorem tryRefresh_frame {host : Host} (w : World) : refresh_contract w.
Proof.
  unfold refresh_contract, AuthProvider.tryRefresh.
  pose proof (MockAPI_refresh_session (refreshToken (session w)) w) as Hs.
  unfold catch, bind, gets, ret, setAccessToken, modify.
  destruct (MockAPI_refresh (refreshToken (session w)) w) as [[tok|e] w1];
    simpl in *.
  - eexists _, _. split; [reflexivity|]. simpl. rewrite Hs. auto.
  - eexists _, _. split; [reflexivity|]. rewrite Hs. auto.
Qed.

Lemma existsb_jstr_In (r : jstring) (l : list jstring) :
  existsb (jstr_eqb r) l = true <-> In r l.
Proof.
  rewrite existsb_exists. unfold jstr_eqb. split.
  - intros (x & Hx & E). apply bool_decide_eq_true in E. now subst.
  - intros H. exists r. split; [exact H|]. now apply bool_decide_eq_true.
Qed.

Lemma hasAnyRole_empty (u : option User) :
  AuthProvider.hasAnyRole u (Some []) = true.
Proof. reflexivity. Qed.

Lemma hasAnyRole_no_user (required : list jstring) :
  required <> [] -> AuthProvider.hasAnyRole None (Some required) = false.
Proof.
  intros H. unfold AuthProvider.hasAnyRole.
  destruct required as [|r rs]; [congruence|]. simpl.
  clear H. induction rs as [|r' rs IH]; [reflexivity|exact IH].
Qed.

Lemma hasAnyRole_user (u : User) (required : list jstring) :
  required <> [] ->
  AuthProvider.hasAnyRole (Some u) (Some required) = true
  <-> shares_a_role u required.
Proof.
  intros H. unfold AuthProvider.hasAnyRole, shares_a_role.
  destruct required as [|r rs]; [congruence|].
  change (length (r :: rs) =? 0)%nat with false. cbv iota.
  rewrite existsb_exists. split.
  - intros (x & Hx & E). exists x. split; [exact Hx|].
    now apply existsb_jstr_In.
  - intros (x & Hx & E). exists x. split; [exact Hx|].
    now apply existsb_jstr_In.
Qed.

(** C8. [hasAnyRole] is a total boolean function. It is true for the
    empty requirement whatever the session, also with no user; for a
    non-empty requirement it is true with a user present iff the user's
    roles and the requirement share an element, and false with no
    user. *)
Theorem hasAnyRole_contract :
  (forall u, AuthProvider.hasAnyRole u (Some []) = true) /\
  (forall u r rs,
     AuthProvider.hasAnyRole (Some u) (Some (r :: rs)) = true
     <-> shares_a_role u (r :: rs)) /\
  (forall r rs, AuthProvider.hasAnyRole None (Some (r :: rs)) = false).
Proof.
  split; [exact hasAnyRole_empty|]. split.
  - intros u r rs. now apply hasAnyRole_user.
  - intros r rs. now apply hasAnyRole_no_user.
Qed.

(** The handler itself empties the session and removes the key. *)
Lemma logout_handler {host : Host} (w : World) :
  exists w',
    AuthProvider.logout w = (Normal tt, w') /\
    session w' = empty_session /\
    localStorage w' !! demo_auth = None.
Proof.
  eexists. split; [reflexivity|]. simpl. split; [reflexivity|].
  apply lookup_delete_eq.
Qed.

(** With a user in the session, the render after [logout] runs the
    persist effect, which stores a snapshot again. *)
Lemma logout_then_persist {host : Host} (w : World) (u : User) :
  fst (persisted w) = Some u ->
  exists w',
    logout_settled w = (Normal tt, w') /\
    session w' = empty_session /\
    localStorage w' !! demo_auth
    = Some (JSON_stringify (snapshot_js empty_session)).
Proof.
  intros H. unfold logout_settled, AuthProvider.logout, AuthProvider.rerender,
    AuthProvider.persist, setUser, setAccessToken, setRefresh, removeItem,
    setItem.
  st_unfold. simpl. rewrite H. simpl.
  eexists. split; [reflexivity|]. simpl. split; [reflexivity|].
  apply lookup_insert_eq.
Qed.

(** C2, at a logged-in session: after [logout] the session is empty,
    but the store holds a snapshot again under [demo_auth], written by
    the persist effect of the following render; a second [logout] then
    removes that snapshot, so it does change the store. *)
Theorem logout_leaves_snapshot :
  exists w1 w2,
    @logout_settled browser admin_world = (Normal tt, w1) /\
    session w1 = empty_session /\
    localStorage w1 !! demo_auth = Some empty_snapshot /\
    @logout_settled browser w1 = (Normal tt, w2) /\
    session w2 = empty_session /\
    localStorage w2 !! demo_auth = None.
Proof.
  destruct (@logout_then_persist browser admin_world admin_user eq_refl)
    as (w1 & E1 & S1 & L1).
  exists w1. eexists. split; [exact E1|]. split; [exact S1|].
  split; [exact L1|].
  assert (persisted w1 = (None, None)) as P1.
  { revert E1. unfold logout_settled, AuthProvider.logout,
      AuthProvider.rerender, AuthProvider.persist, setUser, setAccessToken,
      setRefresh, removeItem, setItem. st_unfold. simpl.
    intros [= <-]. reflexivity. }
  unfold logout_settled, AuthProvider.logout, AuthProvider.rerender,
    AuthProvider.persist, setUser, setAccessToken, setRefresh, removeItem,
    setItem. st_unfold. simpl. rewrite P1. simpl.
  split; [reflexivity|]. simpl. split; [reflexivity|].
  apply lookup_delete_eq.
Qed.

(** * Route guards *)

(** C3, amended. While the session is loading, [RequireAuth] renders
    the checking screen, neither redirecting nor passing through.
    [RequireRoles] does not look at the loading flag: it never renders
    the checking screen and decides from [hasAnyRole] alone, the same
    way while loading as afterwards. *)
Theorem guards_while_loading {host : Host} (w : World)
  (location : jstring) (required : option (list jstring)) :
  loading w = true ->
  RequireAuth location w = Normal checking /\
  RequireRoles required w = RequireRoles required (set_loading false w) /\
  RequireRoles required w
  = (if AuthProvider.hasAnyRole (user (session w)) required
     then Outlet else Navigate (lit "/403") None true).
Proof.
  intros H. unfold RequireAuth. rewrite H. split; [reflexivity|].
  split; [reflexivity|].
  unfold RequireRoles.
  now destruct (AuthProvider.hasAnyRole (user (session w)) required).
Qed.

Lemma guards_while_loading_witness :
  loading loading_world = true /\
  @RequireAuth browser (lit "/admin") loading_world = Normal checking /\
  RequireRoles (Some [lit "ADMIN"]) loading_world
  = RequireRoles (Some [lit "ADMIN"]) (set_loading false loading_world) /\
  RequireRoles (Some [lit "ADMIN"]) loading_world
  = (if AuthProvider.hasAnyRole (user (session loading_world))
          (Some [lit "ADMIN"])
     then Outlet else Navigate (lit "/403") None true).
Proof.
  split; [reflexivity|].
  exact (@guards_while_loading browser loading_world (lit "/admin")
           (Some [lit "ADMIN"]) eq_refl).
Defined.

(** C3 as stated fails: while loading, the role gate asked for ADMIN
    redirects to /403, and asked for no role it passes through. *)
Lemma RequireRoles_decides_while_loading :
  loading loading_world = true /\
  RequireRoles (Some [lit "ADMIN"]) loading_world
  = Navigate (lit "/403") None true /\
  RequireRoles (Some []) loading_world = Outlet.
Proof. repeat split. Qed.

(** Under [RequireAuth], nothing is decided while loading. *)
Lemma guarded_route_while_loading {host : Host} (w : World)
  (location : jstring) (required : option (list jstring)) :
  loading w = true -> guarded_route required location w = Normal checking.
Proof.
  intros H. unfold guarded_route, RequireAuth. now rewrite H.
Qed.

(** * Login and the password *)

Lemma roles_of_cases (username : jstring) :
  (username = lit "admin" /\ roles_of username = [lit "ADMIN"; lit "USER"]) \/
  ((username = lit "mod" \/ username = lit "moderator") /\
   roles_of username = [lit "MODERATOR"; lit "USER"]) \/
  (username <> lit "admin" /\ username <> lit "mod" /\
   username <> lit "moderator" /\ roles_of username = [lit "USER"]).
Proof.
  unfold roles_of, jstr_eqb.
  destruct (bool_decide_reflect (username = lit "admin")) as [E|N1]; auto.
  destruct (bool_decide_reflect (username = lit "mod")) as [E|N2];
    [right; left; auto|].
  destruct (bool_decide_reflect (username = lit "moderator")) as [E|N3];
    [right; left; auto|].
  right; right. auto.
Qed.

(** With any host, two passwords of 6 characters or more give the same
    outcome, and a returned user is [{ id: 1, name: username, roles }]
    with the roles of the user name. *)
Lemma login_password_blind {host : Host} (username p1 p2 : jstring)
  (w : World) :
  (6 <= length p1)%nat -> (6 <= length p2)%nat ->
  MockAPI_login username (Some p1) w = MockAPI_login username (Some p2) w /\
  forall r w', MockAPI_login username (Some p1) w = (Normal r, w') ->
    lr_user r = mkUser (next_ref w) 1 username (roles_of username).
Proof.
  intros H1 H2.
  assert (forall p, (6 <= length p)%nat -> password_rejected (Some p) = false)
    as Hok.
  { intros p Hp. simpl. apply orb_false_iff. split.
    - destruct p; [simpl in Hp; lia|reflexivity].
    - apply Z.ltb_ge. lia. }
  split.
  - apply MockAPI_login_password_blind; now apply Hok.
  - intros r w'. apply MockAPI_login_user.
Qed.

(** C10, at a user name outside Latin-1: [btoa] rejects the payload,
    so [login] throws although the password passes the length check,
    and no user record is returned. *)
Theorem login_rejects_wide_username :
  (6 <= length secret123)%nat /\
  fst (@MockAPI_login browser nihon (Some secret123)
         (quiet_world 1700000000000 empty_session false))
  = Throw InvalidCharacterError /\
  fst (@AuthProvider.login browser nihon (Some secret123)
         (quiet_world 1700000000000 empty_session false))
  = Throw InvalidCharacterError.
Proof. vm_compute. repeat split; lia. Qed.

(** * Request helper *)

Section GatewayFacts.
Context {host : Host}.

(** [fetchWithAuth] answers 401 by itself for a missing or expired
    token, and otherwise calls the backend once and answers 200. *)
Lemma fetchWithAuth_cases (url : jstring) (token : JsVal) (w : World)
  (l : list GatewayCall) :
  ((truthy token = false \/ isExpired token (date_now w) = Normal true) /\
   fetchWithAuth url token (w, l)
   = (Normal unauthorized, (w, l ++ [GFetchWithAuth url token]))) \/
  (truthy token = true /\ isExpired token (date_now w) = Normal false /\
   fetchWithAuth url token (w, l)
   = (Normal (mkResponse 200 (secret url)),
      (snd (MockAPI_getSecret url w),
       (l ++ [GFetchWithAuth url token]) ++ [GGetSecret url]))).
Proof.
  unfold fetchWithAuth, called, lift. st_unfold. simpl.
  destruct (truthy token) eqn:Ht; simpl.
  - destruct (isExpired_returns token (date_now w)) as [b Hb].
    rewrite Hb. destruct b; simpl.
    + left. auto.
    + right. auto.
  - left. auto.
Qed.

End GatewayFacts.

Ltac gw_unfold :=
  unfold run_get, get, call_onUnauthorized, called, lift;
  unfold bind, ret, throw, modify, gets, lift_c; simpl.

Ltac no_retry :=
  do 3 eexists; split; [reflexivity|]; simpl;
  repeat split; try lia; intros ? ? ? [= ].

Lemma gives_up_none (cfg : HttpConfig) (w : World) :
  onUnauthorized cfg = None -> gives_up cfg w [] (Normal unauthorized) w.
Proof. intros E. unfold gives_up. now rewrite E. Qed.

Lemma gives_up_returns (cfg : HttpConfig) (f : M unit) (w w' : World) :
  onUnauthorized cfg = Some f -> f w = (Normal tt, w') ->
  gives_up cfg w [GOnUnauthorized] (Normal unauthorized) w'.
Proof. intros E F. unfold gives_up. now rewrite E, F. Qed.

Lemma gives_up_throws (cfg : HttpConfig) (f : M unit) (w w' : World)
  (e : JsError) :
  onUnauthorized cfg = Some f -> f w = (Throw e, w') ->
  gives_up cfg w [GOnUnauthorized] (Throw e) w'.
Proof. intros E F. unfold gives_up. now rewrite E, F. Qed.

Create HintDb gateway.
#[local] Hint Resolve gives_up_none gives_up_returns gives_up_throws
  : gateway.

(** C4. For every configuration, URL and world, one call of [get]
    invokes [tryRefresh] at most once and [fetchWithAuth] at most twice
    (the backend resource call at most once). When the fetch after a
    successful refresh answers 401 again, nothing is refreshed or
    fetched any more: the unauthorized callback is called, once where
    one is configured, and that 401 is the result, unless the callback
    itself throws. With the callback of the program, [logout], which
    does not throw, the 401 is the result. *)
Theorem get_single_retry {host : Host} (cfg : HttpConfig) (url : jstring)
  (w : World) : single_retry cfg url w /\ gateway_single_retry url w.
Proof.
  assert (S : forall cfg0, single_retry cfg0 url w).
  { intros cfg0. unfold single_retry. gw_unfold.
    destruct (getAccessToken cfg0 w) as [[t1|e] w1] eqn:E1; simpl;
      [|no_retry].
    destruct (fetchWithAuth_cases url t1 w1 []) as [[U1 F1]|(_ & _ & F1)];
      rewrite F1; clear F1; simpl; [|no_retry].
    destruct (tryRefresh cfg0 w1) as [[[|]|e] w2] eqn:E2; simpl.
    - destruct (getAccessToken cfg0 w2) as [[t2|e] w3] eqn:E3; simpl;
        [|no_retry].
      destruct (fetchWithAuth_cases url t2 w3
                  [GFetchWithAuth url t1; GTryRefresh])
        as [[U2 F2]|(T2 & X2 & F2)]; rewrite F2; clear F2; simpl.
      + destruct (onUnauthorized cfg0) as [f|] eqn:EO; simpl;
          [destruct (f w3) as [[[]|e] w4] eqn:EF; simpl|];
          do 3 eexists; (split; [reflexivity|]); simpl;
          (repeat split; try lia); intros ? ? ? [= <- <- <-];
          exists w1, w2, w3; repeat split; auto;
          right; (split; [exact U2|]); eauto with gateway.
      + do 3 eexists. split; [reflexivity|]. simpl.
        repeat split; try lia. intros ? ? ? [= <- <- <-].
        exists w1, w2, w3. repeat split; auto. left. now repeat split.
    - destruct (onUnauthorized cfg0) as [f|]; simpl;
        [destruct (f w2) as [[[]|e] w4]; simpl|]; no_retry.
    - no_retry. }
  split; [apply S|].
  destruct (S (AuthProvider.http (accessToken (session w))))
    as (c & w' & calls & E & R & F & G & H).
  exists c, w', calls. split; [exact E|]. repeat split; auto.
  intros t1 t2 rest Hc.
  destruct (H _ _ _ Hc)
    as (w1 & w2 & w3 & _ & _ & _ & [(_ & -> & ->)|(_ & Hg)]);
    [now left|right].
  destruct (logout_handler w3) as (w4 & L & Hs & _).
  unfold gives_up in Hg. cbn [onUnauthorized AuthProvider.http] in Hg.
  rewrite L in Hg. cbn [fst snd] in Hg. destruct Hg as (-> & -> & ->).
  now repeat split.
Qed.

Section ProviderFacts.
Context {host : Host}.

Lemma tryRefresh_effects (w : World) :
  exists b w',
    AuthProvider.tryRefresh w = (Normal b, w') /\
    network w' = network w ++ [CallRefresh (refreshToken (session w))] /\
    date_now w <= date_now w'.
Proof.
  unfold AuthProvider.tryRefresh.
  pose proof (MockAPI_refresh_network (refreshToken (session w)) w) as Hn.
  pose proof (MockAPI_refresh_clock (refreshToken (session w)) w) as Hc.
  unfold catch, bind, gets, ret, setAccessToken, modify.
  destruct (MockAPI_refresh (refreshToken (session w)) w) as [[tok|e] w1];
    simpl in *; eexists _, _; (split; [reflexivity|]); simpl; auto.
Qed.

Lemma fetchWithAuth_unusable (url : jstring) (token : JsVal) (w : World)
  (l : list GatewayCall) :
  truthy token = false \/ isExpired token (date_now w) = Normal true ->
  fetchWithAuth url token (w, l)
  = (Normal unauthorized, (w, l ++ [GFetchWithAuth url token])).
Proof.
  intros H.
  destruct (fetchWithAuth_cases url token w l) as [[_ F]|(Ht & He & _)];
    [exact F|].
  destruct H as [H|H]; congruence.
Qed.

(** In this program a request with an unusable token always ends in
    401 and a logout, also where the refresh succeeds: the retry reads
    the token of the render again. *)
Lemma request_unusable_token (url : jstring) (w : World) :
  token_unusable w -> logs_out_on_local_401 url w.
Proof.
  unfold token_unusable, unusable, logs_out_on_local_401, request.
  intros H.
  set (tok := opt_js (accessToken (session w))) in *.
  destruct (tryRefresh_effects w) as (b & w2 & ER & Hn & Hc).
  assert (truthy tok = false \/ isExpired tok (date_now w2) = Normal true)
    as H2.
  { destruct H as [H|H]; [now left|right].
    now apply (isExpired_mono tok (date_now w) (date_now w2)). }
  destruct b.
  - eexists _, _. gw_unfold. fold tok.
    rewrite (fetchWithAuth_unusable url tok w [] H). simpl.
    rewrite ER. simpl.
    rewrite (fetchWithAuth_unusable url tok w2 _ H2). simpl.
    split; [reflexivity|]. simpl. rewrite Hn. auto.
  - eexists _, _. gw_unfold. fold tok.
    rewrite (fetchWithAuth_unusable url tok w [] H). simpl.
    rewrite ER. simpl.
    split; [reflexivity|]. simpl. rewrite Hn. auto.
Qed.

End ProviderFacts.

(** C1, amended. When the access token [get] reads is absent or
    expired, the first attempt is answered 401 without a call of the
    protected-resource operation, and the refresh operation is called
    exactly once. Where the refresh fails, or the token read after it
    is absent or expired again, the protected-resource operation is
    never called, the unauthorized callback is called, once where one
    is configured, and the result is that 401, unless the callback
    itself throws, whose error is then the result. *)
Theorem get_with_unusable_token {host : Host} (cfg : HttpConfig)
  (url : jstring) (w : World) (token : JsVal) (w1 : World) :
  getAccessToken cfg w = (Normal token, w1) ->
  unusable token w1 ->
  refresh_on_local_401 cfg url w token w1.
Proof.
  intros E1 U1. unfold refresh_on_local_401. gw_unfold. rewrite E1. simpl.
  rewrite (fetchWithAuth_unusable url token w1 [] U1). simpl.
  destruct (tryRefresh cfg w1) as [[[|]|e] w2]; simpl.
  - destruct (getAccessToken cfg w2) as [[t2|e] w3] eqn:E2; simpl.
    + destruct (fetchWithAuth_cases url t2 w3
                  [GFetchWithAuth url token; GTryRefresh])
        as [[U2 F]|(T2 & X2 & F)]; rewrite F; clear F; simpl.
      * destruct (onUnauthorized cfg) as [f|] eqn:EO; simpl;
          [destruct (f w3) as [[[]|e] w4] eqn:EF; simpl|];
          do 3 eexists; (split; [reflexivity|]); simpl;
          (split; [reflexivity|]); (split; [intros ? [=]|]);
          intros w2' tk w3' [= <-] G _; rewrite E2 in G;
          injection G as <- <-; (split; [reflexivity|]);
          eexists; (split; [reflexivity|]); eauto with gateway.
      * do 3 eexists. split; [reflexivity|]. simpl.
        split; [reflexivity|]. split; [intros ? [=]|].
        intros w2' tk w3' [= <-] G U. rewrite E2 in G.
        injection G as <- <-. destruct U; congruence.
    + do 3 eexists. split; [reflexivity|]. simpl.
      split; [reflexivity|]. split; [intros ? [=]|].
      intros w2' tk w3' [= <-] G. rewrite E2 in G. discriminate.
  - destruct (onUnauthorized cfg) as [f|] eqn:EO; simpl;
      [destruct (f w2) as [[[]|e] w4] eqn:EF; simpl|];
      do 3 eexists; (split; [reflexivity|]); simpl;
      (split; [reflexivity|]); (split; [|intros ? ? ? [=]]);
      intros ? [= <-]; repeat split; eauto with gateway.
  - do 3 eexists. split; [reflexivity|]. simpl.
    split; [reflexivity|]. split; [intros ? [=]|intros ? ? ? [=]].
Qed.

Lemma get_with_unusable_token_witness :
  getAccessToken
    (@AuthProvider.http browser (accessToken (session expired_world)))
    expired_world
  = (Normal (JStr expired_token), expired_world) /\
  @unusable browser (JStr expired_token) expired_world /\
  @refresh_on_local_401 browser
     (@AuthProvider.http browser (accessToken (session expired_world)))
     (lit "/api/secret") expired_world (JStr expired_token) expired_world.
Proof.
  assert (@unusable browser (JStr expired_token) expired_world) as U.
  { right. vm_compute. reflexivity. }
  split; [reflexivity|]. split; [exact U|].
  exact (@get_with_unusable_token browser
           (@AuthProvider.http browser (accessToken (session expired_world)))
           (lit "/api/secret") expired_world (JStr expired_token)
           expired_world eq_refl U).
Defined.

(** C1 as stated fails: with an expired access token the request does
    reach the backend, through one call of the refresh operation. *)
Lemma expired_token_reaches_backend :
  @isExpired browser (JStr expired_token) (date_now expired_world)
  = Normal true /\
  exists w' calls,
    @request browser (lit "/api/secret") expired_world
    = (Normal unauthorized, (w', calls)) /\
    calls = [GFetchWithAuth (lit "/api/secret") (JStr expired_token);
             GTryRefresh;
             GFetchWithAuth (lit "/api/secret") (JStr expired_token);
             GOnUnauthorized] /\
    network w' = [CallRefresh (Some (lit "abababab"))].
Proof.
  split; [vm_compute; reflexivity|].
  eexists _, _. split; [vm_compute; reflexivity|].
  split; reflexivity.
Qed.

(** * The browser's built-ins invert each other *)

Module BrowserFacts.
Import Browser.

#[local] Open Scope N_scope.

Lemma list_ind3 {A} (P : list A -> Prop) :
  P [] -> (forall a, P [a]) -> (forall a b, P [a; b]) ->
  (forall a b c l, P l -> P (a :: b :: c :: l)) ->
  forall l, P l.
Proof.
  intros H0 H1 H2 H3 l.
  enough (P l /\ (forall a, P (a :: l)) /\ (forall a b, P (a :: b :: l)))
    by tauto.
  induction l as [|x l (IH0 & IH1 & IH2)]; auto.
Qed.

Lemma b64_encode_parts (s : list N) :
  b64_encode s = map b64_char (sextets s) ++ padding s.
Proof.
  induction s as [| a | a b | a b c l IH] using list_ind3; try reflexivity.
  simpl. now rewrite IH.
Qed.

Lemma sextets_bound (s : list N) :
  latin1 s = true -> Forall (fun i => i < 64) (sextets s).
Proof.
  induction s as [| a | a b | a b c l IH] using list_ind3; simpl; intros H.
  - constructor.
  - rewrite andb_true_r in H. apply N.ltb_lt in H.
    repeat constructor.
    + apply N.Div0.div_lt_upper_bound. lia.
    + assert (a mod 4 < 4) by (apply N.mod_lt; lia). lia.
  - apply andb_prop in H as [Ha H]. rewrite andb_true_r in H.
    apply N.ltb_lt in Ha, H.
    assert (a mod 4 < 4) by (apply N.mod_lt; lia).
    assert (b mod 16 < 16) by (apply N.mod_lt; lia).
    assert (b / 16 < 16) by (apply N.Div0.div_lt_upper_bound; lia).
    repeat constructor; try lia.
    apply N.Div0.div_lt_upper_bound. lia.
  - apply andb_prop in H as [Ha H]. apply andb_prop in H as [Hb H].
    apply andb_prop in H as [Hc H].
    apply N.ltb_lt in Ha, Hb, Hc.
    assert (a mod 4 < 4) by (apply N.mod_lt; lia).
    assert (b mod 16 < 16) by (apply N.mod_lt; lia).
    assert (c mod 64 < 64) by (apply N.mod_lt; lia).
    assert (b / 16 < 16) by (apply N.Div0.div_lt_upper_bound; lia).
    assert (c / 64 < 4) by (apply N.Div0.div_lt_upper_bound; lia).
    repeat constructor; try lia.
    + apply N.Div0.div_lt_upper_bound. lia.
    + apply IH, H.
Qed.

Lemma div_mod_join (a k : N) : a / k * k + a mod k = a.
Proof. rewrite N.mul_comm. symmetry. apply N.Div0.div_mod. Qed.

Lemma b64_decode_sextets (s : list N) :
  latin1 s = true -> b64_decode (sextets s) = s.
Proof.
  induction s as [| a | a b | a b c l IH] using list_ind3; simpl; intros H.
  - reflexivity.
  - f_equal.
    rewrite N.div_mul by lia. apply div_mod_join.
  - apply andb_prop in H as [Ha H]. rewrite andb_true_r in H.
    apply N.ltb_lt in Ha, H.
    assert (b / 16 < 16) by (apply N.Div0.div_lt_upper_bound; lia).
    assert (((a mod 4) * 16 + b / 16) / 16 = a mod 4) as E1.
    { rewrite N.div_add_l by lia. rewrite (N.div_small (b / 16)) by lia. lia. }
    assert (((a mod 4) * 16 + b / 16) mod 16 = b / 16) as E2.
    { rewrite N.add_comm, N.Div0.mod_add. apply N.mod_small. lia. }
    rewrite E1, E2. rewrite N.div_mul by lia.
    f_equal; [|f_equal].
    + apply div_mod_join.
    + apply div_mod_join.
  - apply andb_prop in H as [Ha H]. apply andb_prop in H as [Hb H].
    apply andb_prop in H as [Hc H].
    apply N.ltb_lt in Ha, Hb, Hc.
    assert (b / 16 < 16) by (apply N.Div0.div_lt_upper_bound; lia).
    assert (c / 64 < 4) by (apply N.Div0.div_lt_upper_bound; lia).
    assert (((a mod 4) * 16 + b / 16) / 16 = a mod 4) as E1.
    { rewrite N.div_add_l by lia. rewrite (N.div_small (b / 16)) by lia. lia. }
    assert (((a mod 4) * 16 + b / 16) mod 16 = b / 16) as E2.
    { rewrite N.add_comm, N.Div0.mod_add. apply N.mod_small. lia. }
    assert (((b mod 16) * 4 + c / 64) / 4 = b mod 16) as E3.
    { rewrite N.div_add_l by lia. rewrite (N.div_small (c / 64)) by lia. lia. }
    assert (((b mod 16) * 4 + c / 64) mod 4 = c / 64) as E4.
    { rewrite N.add_comm, N.Div0.mod_add. apply N.mod_small. lia. }
    rewrite E1, E2, E3, E4, (IH H).
    f_equal; [|f_equal; [|f_equal]].
    + apply div_mod_join.
    + apply div_mod_join.
    + apply div_mod_join.
Qed.

Lemma alphabet_table :
  forallb alphabet_ok (map N.of_nat (seq 0 64)) = true.
Proof. vm_compute. reflexivity. Qed.

Lemma b64_char_ok (i : N) : i < 64 -> alphabet_ok i = true.
Proof.
  intros H. pose proof alphabet_table as T.
  rewrite forallb_forall in T. apply T.
  apply in_map_iff. exists (N.to_nat i). split; [apply N2Nat.id|].
  apply in_seq. lia.
Qed.

Lemma b64_char_facts (i : N) :
  i < 64 ->
  b64_index (b64_char i) = Some i /\
  is_ascii_whitespace (b64_char i) = false /\
  b64_char i <> pad /\ b64_char i <> dot.
Proof.
  intros H. apply b64_char_ok in H. unfold alphabet_ok in H.
  apply andb_prop in H as [H Hd]. apply andb_prop in H as [H Hp].
  apply andb_prop in H as [Hi Hw].
  apply negb_true_iff in Hd, Hp, Hw. apply N.eqb_neq in Hd, Hp.
  destruct (b64_index (b64_char i)) as [j|]; [|discriminate].
  apply N.eqb_eq in Hi. subst. auto.
Qed.

Lemma b64_indices_chars (ix : list N) :
  Forall (fun i => i < 64) ix -> b64_indices (map b64_char ix) = Some ix.
Proof.
  induction 1 as [|i ix Hi _ IH]; [reflexivity|]. simpl.
  destruct (b64_char_facts i Hi) as (E & _). now rewrite E, IH.
Qed.

(** No character of an encoding is white space or a dot. *)
Lemma encoding_chars (ix : list N) (c : N) :
  Forall (fun i => i < 64) ix -> In c (map b64_char ix) ->
  is_ascii_whitespace c = false /\ c <> pad /\ c <> dot.
Proof.
  intros H Hc. apply in_map_iff in Hc as (i & <- & Hi).
  rewrite List.Forall_forall in H.
  destruct (b64_char_facts i (H i Hi)) as (_ & ? & ? & ?). auto.
Qed.

Lemma padding_cases (s : list N) :
  padding s = [] \/ padding s = [pad] \/ padding s = [pad; pad].
Proof.
  induction s as [| a | a b | a b c l IH] using list_ind3; simpl; auto.
Qed.

Lemma filter_keeps {A} (p : A -> bool) (l : list A) :
  (forall x, In x l -> p x = true) -> List.filter p l = l.
Proof.
  induction l as [|x l IH]; simpl; intros H; [reflexivity|].
  rewrite (H x) by auto. f_equal. apply IH. auto.
Qed.

Lemma strip_padding_none (x : list N) :
  (forall c, In c x -> c <> pad) -> strip_padding x = x.
Proof.
  intros H. unfold strip_padding.
  destruct (rev x) as [|c1 r1] eqn:E; [reflexivity|].
  assert (In c1 x) as Hc by (apply in_rev; rewrite E; now left).
  apply H, N.eqb_neq in Hc. now rewrite Hc.
Qed.

Lemma strip_padding_one (x : list N) :
  (forall c, In c x -> c <> pad) -> strip_padding (x ++ [pad]) = x.
Proof.
  intros H. unfold strip_padding. rewrite rev_app_distr. simpl.
  destruct (rev x) as [|c2 r2] eqn:E.
  - rewrite <- (rev_involutive x), E. reflexivity.
  - assert (In c2 x) as Hc by (apply in_rev; rewrite E; now left).
    apply H, N.eqb_neq in Hc. rewrite Hc, <- E. apply rev_involutive.
Qed.

Lemma strip_padding_two (x : list N) :
  strip_padding (x ++ [pad; pad]) = x.
Proof.
  unfold strip_padding. rewrite rev_app_distr. simpl. apply rev_involutive.
Qed.

Lemma sextets_length (s : list N) :
  exists k, (length (sextets s) = 4 * k \/ length (sextets s) = 4 * k + 2
             \/ length (sextets s) = 4 * k + 3)%nat.
Proof.
  induction s as [| a | a b | a b c l [k IH]] using list_ind3; simpl.
  - exists 0%nat. auto.
  - exists 0%nat. auto.
  - exists 0%nat. auto.
  - exists (S k). lia.
Qed.

Lemma b64_encode_length (s : list N) :
  exists k, (length (b64_encode s) = 4 * k)%nat.
Proof.
  induction s as [| a | a b | a b c l [k IH]] using list_ind3; simpl.
  - exists 0%nat. reflexivity.
  - exists 1%nat. reflexivity.
  - exists 1%nat. reflexivity.
  - exists (S k). lia.
Qed.

Lemma mod4_of_nat (k r : nat) :
  (r < 4)%nat -> N.of_nat (4 * k + r) mod 4 = N.of_nat r.
Proof.
  intros H.
  replace (N.of_nat (4 * k + r)) with (N.of_nat r + N.of_nat k * 4) by lia.
  rewrite N.Div0.mod_add. apply N.mod_small. lia.
Qed.

Lemma b64_encode_no_dot (s : list N) (c : N) :
  latin1 s = true -> In c (b64_encode s) -> c <> dot.
Proof.
  intros H Hc. rewrite b64_encode_parts in Hc.
  apply in_app_or in Hc as [Hc|Hc].
  - now destruct (encoding_chars _ c (sextets_bound s H) Hc) as (_ & _ & ?).
  - destruct (padding_cases s) as [E|[E|E]]; rewrite E in Hc; simpl in Hc;
      intuition (subst; discriminate).
Qed.

(** [atob(btoa(s))] is [s]. *)
Lemma atob_b64_encode (s : list N) :
  latin1 s = true -> atob (b64_encode s) = Normal s.
Proof.
  intros H. unfold atob.
  pose proof (sextets_bound s H) as Hb.
  set (x := map b64_char (sextets s)).
  assert (forall c, In c x -> c <> pad) as Hx.
  { intros c Hc. now destruct (encoding_chars _ c Hb Hc) as (_ & ? & _). }
  rewrite filter_keeps.
  2:{ intros c Hc. rewrite b64_encode_parts in Hc.
      apply in_app_or in Hc as [Hc|Hc].
      - destruct (encoding_chars _ c Hb Hc) as (E & _). now rewrite E.
      - destruct (padding_cases s) as [E|[E|E]]; rewrite E in Hc;
          simpl in Hc; intuition (subst; reflexivity). }
  destruct (b64_encode_length s) as [k Hk]. rewrite Hk.
  replace (4 * k)%nat with (4 * k + 0)%nat by lia.
  rewrite mod4_of_nat by lia. simpl.
  assert (strip_padding (b64_encode s) = x) as ->.
  { rewrite b64_encode_parts. fold x.
    destruct (padding_cases s) as [E|[E|E]]; rewrite E.
    - rewrite app_nil_r. now apply strip_padding_none.
    - now apply strip_padding_one.
    - apply strip_padding_two. }
  unfold x. rewrite length_map.
  destruct (sextets_length s) as (j & [E|[E|E]]); rewrite E.
  - replace (4 * j)%nat with (4 * j + 0)%nat by lia.
    rewrite mod4_of_nat by lia. simpl.
    rewrite (b64_indices_chars _ Hb). now rewrite b64_decode_sextets.
  - rewrite mod4_of_nat by lia. simpl.
    rewrite (b64_indices_chars _ Hb). now rewrite b64_decode_sextets.
  - rewrite mod4_of_nat by lia. simpl.
    rewrite (b64_indices_chars _ Hb). now rewrite b64_decode_sextets.
Qed.

(** *** Numbers print and parse back *)

Lemma lit_cons (a : ascii) (s : string) :
  lit (String a s) = N_of_ascii a :: lit s.
Proof. reflexivity. Qed.

Lemma read_uint_printed (d : Decimal.uint) (r : list N) :
  read_uint (lit (NilEmpty.string_of_uint d) ++ 125 :: r) = (d, 125 :: r).
Proof.
  induction d; cbn [NilEmpty.string_of_uint]; rewrite ?lit_cons;
    [reflexivity|..];
    cbn -[lit NilEmpty.string_of_uint]; rewrite IHd; reflexivity.
Qed.

Lemma to_uint_normal (p : positive) :
  Decimal.unorm (Pos.to_uint p) = Pos.to_uint p.
Proof.
  rewrite <- (DecimalPos.Unsigned.to_of (Pos.to_uint p)).
  now rewrite DecimalPos.Unsigned.of_to.
Qed.

Lemma to_uint_head (p : positive) (u : Decimal.uint) :
  Pos.to_uint p <> Decimal.D0 u.
Proof.
  intros E. pose proof (to_uint_normal p) as H. rewrite E in H.
  rewrite DecimalFacts.unorm_D0 in H.
  assert (u = Decimal.Nil \/ u <> Decimal.Nil) as [->|Hu]
    by (destruct u; [now left | right; discriminate ..]).
  - apply (DecimalPos.Unsigned.to_uint_nonzero p). exact E.
  - pose proof (DecimalFacts.nb_digits_unorm u Hu) as L.
    rewrite H in L. simpl in L. lia.
Qed.

Lemma of_to_uint (p : positive) : Z.of_uint (Pos.to_uint p) = Zpos p.
Proof. exact (DecimalZ.of_to (Zpos p)). Qed.

Lemma read_int_printed (negative : bool) (p : positive) (r : list N) :
  read_int negative (lit (NilEmpty.string_of_uint (Pos.to_uint p)) ++ 125 :: r)
  = Normal (JNum (if negative then Zneg p else Zpos p), 125 :: r).
Proof.
  pose proof (read_uint_printed (Pos.to_uint p) r) as R.
  pose proof (to_uint_head p) as H0.
  pose proof (DecimalPos.Unsigned.to_uint_nonnil p) as Hn.
  pose proof (of_to_uint p) as V.
  assert (Z.of_int (Decimal.Neg (Pos.to_uint p)) = Zneg p) as Vn.
  { simpl. rewrite V. reflexivity. }
  assert (Z.of_int (Decimal.Pos (Pos.to_uint p)) = Zpos p) as Vp by exact V.
  destruct (Pos.to_uint p) as [| u | u | u | u | u | u | u | u | u | u];
    [now destruct Hn | now destruct (H0 u) | ..];
    unfold read_int;
    cbn [NilEmpty.string_of_uint] in R |- *; rewrite lit_cons in R |- *;
    cbn -[lit NilEmpty.string_of_uint read_uint Z.of_int] in R |- *;
    rewrite R; cbn -[Z.of_int];
    destruct negative; rewrite ?Vn, ?Vp; reflexivity.
Qed.

Lemma string_of_to_uint (p : positive) :
  NilZero.string_of_uint (Pos.to_uint p)
  = NilEmpty.string_of_uint (Pos.to_uint p).
Proof.
  pose proof (DecimalPos.Unsigned.to_uint_nonnil p) as Hn.
  now destruct (Pos.to_uint p).
Qed.

Lemma Z_to_jstring_pos (p : positive) :
  Z_to_jstring (Zpos p) = lit (NilEmpty.string_of_uint (Pos.to_uint p)).
Proof.
  unfold Z_to_jstring. cbn [Z.to_int NilZero.string_of_int].
  now rewrite string_of_to_uint.
Qed.

Lemma Z_to_jstring_neg (p : positive) :
  Z_to_jstring (Zneg p)
  = 45 :: lit (NilEmpty.string_of_uint (Pos.to_uint p)).
Proof.
  unfold Z_to_jstring. cbn [Z.to_int NilZero.string_of_int].
  now rewrite string_of_to_uint.
Qed.

(** A printed integer followed by a closing brace parses back. *)
Lemma parse_value_number (f : nat) (n : Z) (r : list N) :
  parse_value (S f) (Z_to_jstring n ++ 125 :: r)
  = Normal (JNum n, 125 :: r).
Proof.
  destruct n as [|p|p].
  - reflexivity.
  - rewrite Z_to_jstring_pos.
    pose proof (read_int_printed false p r) as RI.
    pose proof (to_uint_head p) as H0.
    pose proof (DecimalPos.Unsigned.to_uint_nonnil p) as Hn.
    destruct (Pos.to_uint p) as [| u | u | u | u | u | u | u | u | u | u];
      [now destruct Hn | now destruct (H0 u) | ..];
      cbn [NilEmpty.string_of_uint] in RI |- *; rewrite lit_cons in RI |- *;
      cbn -[lit NilEmpty.string_of_uint read_int] in RI |- *;
      exact RI.
  - rewrite Z_to_jstring_neg.
    cbn -[lit NilEmpty.string_of_uint read_int].
    apply (read_int_printed true).
Qed.

(** *** The claims of a refreshed token print and parse back *)

Lemma stringify_demo (n : Z) :
  JSON_stringify (demo_claims n) = demo_prefix ++ Z_to_jstring n ++ [125].
Proof. reflexivity. Qed.

Lemma parse_value_eq (f : nat) (s : list N) :
  parse_value (S f) s
  = match skip_ws s with
    | [] => Throw SyntaxError
    | c :: r =>
        if c =? 123 then
          match skip_ws r with
          | 125 :: r' => Normal (JObj [], r')
          | _ =>
              cbind (parse_members f r) (fun p =>
              Normal (object_of (fst p), snd p))
          end
        else if c =? 91 then
          match skip_ws r with
          | 93 :: r' => Normal (JArr [], r')
          | _ =>
              cbind (parse_elements f r) (fun p =>
              Normal (JArr (fst p), snd p))
          end
        else if c =? 34 then
          cbind (read_string r) (fun p => Normal (JStr (fst p), snd p))
        else if c =? 45 then read_int true r
        else if is_digit c then read_int false (c :: r)
        else
          match expect (lit "true") (c :: r),
                expect (lit "false") (c :: r),
                expect (lit "null") (c :: r) with
          | Some r', _, _ => Normal (JBool true, r')
          | _, Some r', _ => Normal (JBool false, r')
          | _, _, Some r' => Normal (JNull, r')
          | _, _, _ => Throw SyntaxError
          end
    end.
Proof. reflexivity. Qed.

Lemma parse_elements_eq (f : nat) (s : list N) :
  parse_elements (S f) s
  = cbind (parse_value f s) (fun p =>
    match skip_ws (snd p) with
    | c :: r =>
        if c =? 44 then
          cbind (parse_elements f r) (fun q =>
          Normal (fst p :: fst q, snd q))
        else if c =? 93 then Normal ([fst p], r)
        else Throw SyntaxError
    | [] => Throw SyntaxError
    end).
Proof. reflexivity. Qed.

Lemma parse_members_eq (f : nat) (s : list N) :
  parse_members (S f) s
  = match skip_ws s with
    | c :: r =>
        if c =? 34 then
          cbind (read_string r) (fun k =>
          match skip_ws (snd k) with
          | c1 :: r1 =>
              if c1 =? 58 then
                cbind (parse_value f r1) (fun p =>
                match skip_ws (snd p) with
                | c2 :: r2 =>
                    if c2 =? 44 then
                      cbind (parse_members f r2) (fun q =>
                      Normal ((fst k, fst p) :: fst q, snd q))
                    else if c2 =? 125 then Normal ([(fst k, fst p)], r2)
                    else Throw SyntaxError
                | [] => Throw SyntaxError
                end)
              else Throw SyntaxError
          | [] => Throw SyntaxError
          end)
        else Throw SyntaxError
    | [] => Throw SyntaxError
    end.
Proof. reflexivity. Qed.

Ltac parse_step :=
  first [ rewrite parse_value_number
        | rewrite parse_value_eq
        | rewrite parse_members_eq
        | rewrite parse_elements_eq ];
  cbn -[parse_value parse_members parse_elements Z_to_jstring].

Lemma parse_demo (n : Z) :
  JSON_parse (JSON_stringify (demo_claims n)) = Normal (demo_claims n).
Proof.
  rewrite stringify_demo. unfold JSON_parse, demo_prefix.
  cbn -[parse_value parse_members parse_elements Z_to_jstring].
  repeat parse_step. reflexivity.
Qed.

(** *** Tokens decode to the claims they were built from *)

Lemma lit_latin1 (s : string) : latin1 (lit s) = true.
Proof.
  induction s as [|a s IH]; [reflexivity|].
  rewrite lit_cons. simpl. rewrite IH, andb_true_r.
  apply N.ltb_lt, N_ascii_bounded.
Qed.

Lemma latin1_app (a b : list N) : latin1 (a ++ b) = latin1 a && latin1 b.
Proof. apply forallb_app. Qed.

Lemma stringify_demo_latin1 (n : Z) :
  latin1 (JSON_stringify (demo_claims n)) = true.
Proof.
  rewrite stringify_demo, !latin1_app. unfold Z_to_jstring.
  now rewrite lit_latin1.
Qed.

Lemma split_on_plain (sep : N) (a : list N) :
  (forall c, In c a -> c <> sep) -> split_on sep a = [a].
Proof.
  induction a as [|c a IH]; intros H; [reflexivity|]. simpl.
  assert (c <> sep) as Hc by (apply H; now left).
  apply N.eqb_neq in Hc. rewrite Hc.
  rewrite IH by (intros; apply H; now right). reflexivity.
Qed.

Lemma split_on_app (sep : N) (a r : list N) :
  (forall c, In c a -> c <> sep) ->
  split_on sep (a ++ sep :: r) = a :: split_on sep r.
Proof.
  induction a as [|c a IH]; intros H; simpl.
  - now rewrite N.eqb_refl.
  - assert (c <> sep) as Hc by (apply H; now left).
    apply N.eqb_neq in Hc. rewrite Hc.
    rewrite IH by (intros; apply H; now right). reflexivity.
Qed.

Lemma split_bearer (payload : list N) :
  (forall c, In c payload -> c <> dot) ->
  split_on dot (bearer payload)
  = [lit "header"; payload; lit "signature"].
Proof.
  intros H. unfold bearer.
  change (lit "header." ++ payload ++ lit ".signature")
    with (lit "header" ++ dot :: (payload ++ dot :: lit "signature")).
  rewrite split_on_app.
  2:{ intros c Hc. simpl in Hc. intuition (subst; discriminate). }
  rewrite split_on_app by exact H.
  rewrite split_on_plain; [reflexivity|].
  intros c Hc. simpl in Hc. intuition (subst; discriminate).
Qed.

(** A bearer token built from a Latin-1 text decodes to what the text
    parses to. *)
Lemma decode_bearer (text : list N) :
  latin1 text = true ->
  @decodeJWT browser (JStr (bearer (b64_encode text)))
  = try_catch (JSON_parse text) (fun _ => Normal JNull).
Proof.
  intros H. unfold decodeJWT, decodeJWT_try, token_split.
  cbn [cbind]. rewrite split_bearer by (intros c; now apply b64_encode_no_dot).
  cbn -[atob JSON_parse b64_encode].
  rewrite atob_b64_encode by exact H. reflexivity.
Qed.

Lemma decode_demo_token (t : Z) :
  @decodeJWT browser (JStr (demo_token t))
  = Normal (demo_claims (t / 1000 + 60)).
Proof.
  unfold demo_token. rewrite decode_bearer by apply stringify_demo_latin1.
  now rewrite parse_demo.
Qed.

End BrowserFacts.

(** * Refresh *)

(** [!refreshToken || refreshToken.startsWith("x")] is false exactly
    for a non-empty string that does not start with x. *)
Lemma refresh_accepted_iff (rt : option jstring) :
  refresh_rejected rt = false <->
  exists c s, rt = Some (c :: s) /\ c <> 120%N.
Proof.
  destruct rt as [[|c s]|]; simpl; split; try discriminate.
  - intros (c & s & [=] & _).
  - intros H. apply N.eqb_neq in H. eauto.
  - intros (c' & s' & [= <- <-] & H). now apply N.eqb_neq.
  - intros (c & s & [=] & _).
Qed.

(** C9. With a refresh token the backend accepts, the refresh operation
    returns a token whose decoded claims are sub 1, name "demo", roles
    ["USER"] and an expiry 60 seconds after the clock reading at which
    it is built, whatever the session's user; [refresh] stores that
    token next to the unchanged user, whose roles may differ from the
    token's. *)
Theorem refresh_issues_demo_claims (rt : option jstring) (w : World) :
  refresh_rejected rt = false -> refresh_yields_demo rt w.
Proof.
  intros H. unfold refresh_yields_demo.
  assert (exists w1,
    @MockAPI_refresh browser rt w
    = (Normal (demo_token (date_now w1)), w1) /\
    date_now w + 400 <= date_now w1 /\ session w1 = session w)
    as (w1 & E & Hc & Hs).
  { exists (after_refresh_call rt w).
    rewrite (@MockAPI_refresh_accepted browser _ _ H).
    change (@btoa browser ?x) with (Browser.btoa x).
    change (@JSON_stringify browser ?x) with (Browser.JSON_stringify x).
    unfold Browser.btoa.
    rewrite (BrowserFacts.stringify_demo_latin1 _).
    split; [reflexivity|]. cbn -[Z.div]. split; [lia|reflexivity]. }
  exists w1. split; [exact E|]. split; [exact Hc|].
  split; [apply BrowserFacts.decode_demo_token|].
  intros <-.
  unfold AuthProvider.tryRefresh, catch, bind, gets, ret, setAccessToken,
    modify.
  rewrite E. eexists. split; [reflexivity|].
  cbn [session set_session accessToken user refreshToken]. rewrite Hs.
  split; [reflexivity|]. split; [reflexivity|].
  intros u _ Hr [= Hm]. apply Hr.
  destruct (roles u) as [|r [|r' rs]]; simpl in Hm; try discriminate.
  now injection Hm as ->.
Qed.

Lemma refresh_issues_demo_claims_witness :
  refresh_rejected (refreshToken (session admin_world)) = false /\
  refresh_yields_demo (refreshToken (session admin_world)) admin_world.
Proof.
  split; [reflexivity|].
  exact (refresh_issues_demo_claims (refreshToken (session admin_world))
           admin_world eq_refl).
Defined.

(** * Further properties of the request helper *)

Lemma MockAPI_getSecret_effects {host : Host} (url : jstring) (w : World) :
  exists w',
    MockAPI_getSecret url w = (Normal (secret url), w') /\
    network w' = network w ++ [CallGetSecret url] /\
    session w' = session w /\
    localStorage w' = localStorage w /\
    date_now w + 300 <= date_now w'.
Proof.
  unfold MockAPI_getSecret. st_unfold. cbn -[Z.add Z.max].
  eexists. split; [reflexivity|]. cbn -[Z.add Z.max]. repeat split. lia.
Qed.

(** X1. With a present, unexpired access token [get] answers 200 with
    the backend's payload after exactly one fetch and one backend call;
    it neither refreshes nor calls the unauthorized callback, and the
    session and the store stay as they were. *)
Theorem get_with_usable_token {host : Host} (cfg : HttpConfig)
  (url : jstring) (w : World) (token : JsVal) (w1 : World) :
  getAccessToken cfg w = (Normal token, w1) ->
  usable token w1 ->
  direct_success cfg url w token w1.
Proof.
  intros E [Ht He]. unfold direct_success.
  destruct (MockAPI_getSecret_effects url w1) as (w' & G & Hn & Hs & Hl & Hc).
  exists w'. split; [|auto].
  gw_unfold. rewrite E. simpl.
  destruct (fetchWithAuth_cases url token w1 []) as [[[U|U] _]|(_ & _ & F)];
    [congruence | congruence |].
  rewrite F, G. reflexivity.
Qed.

Lemma get_with_usable_token_witness :
  getAccessToken
    (@AuthProvider.http browser (accessToken (session admin_world)))
    admin_world
  = (Normal (JStr admin_token), admin_world) /\
  @usable browser (JStr admin_token) admin_world /\
  @direct_success browser
     (@AuthProvider.http browser (accessToken (session admin_world)))
     (lit "/api/secret") admin_world (JStr admin_token) admin_world.
Proof.
  assert (@usable browser (JStr admin_token) admin_world) as U.
  { split; vm_compute; reflexivity. }
  split; [reflexivity|]. split; [exact U|].
  exact (@get_with_usable_token browser
           (@AuthProvider.http browser (accessToken (session admin_world)))
           (lit "/api/secret") admin_world (JStr admin_token)
           admin_world eq_refl U).
Defined.

(** X2. In this program the [http] object of a render keeps the token
    that render saw. A request made with an absent or expired token
    therefore always ends in 401 and a logout, also where the refresh
    succeeds: one refresh call reaches the backend, the protected
    resource is never called, and the session is empty afterwards. *)
Theorem stale_token_logs_out {host : Host} (url : jstring) (w : World) :
  token_unusable w -> logs_out_on_local_401 url w.
Proof. apply request_unusable_token. Qed.

Lemma stale_token_logs_out_witness :
  @token_unusable browser expired_world /\
  @logs_out_on_local_401 browser (lit "/api/secret") expired_world.
Proof.
  assert (@token_unusable browser expired_world) as U.
  { right. vm_compute. reflexivity. }
  split; [exact U|].
  exact (@stale_token_logs_out browser (lit "/api/secret") expired_world U).
Defined.

(** * Further properties of refresh *)

Lemma MockAPI_refresh_rejected {host : Host} (rt : option jstring)
  (w : World) :
  refresh_rejected rt = true ->
  MockAPI_refresh rt w = (Throw refresh_invalid, after_refresh_call rt w).
Proof.
  intros H. unfold MockAPI_refresh, after_refresh_call. st_unfold.
  cbn -[Z.div]. now rewrite H.
Qed.

Lemma MockAPI_refresh_browser (rt : option jstring) (w : World) :
  refresh_rejected rt = false ->
  @MockAPI_refresh browser rt w
  = (Normal (demo_token (date_now (after_refresh_call rt w))),
     after_refresh_call rt w).
Proof.
  intros H. rewrite (@MockAPI_refresh_accepted browser _ _ H).
  change (@btoa browser ?x) with (Browser.btoa x).
  change (@JSON_stringify browser ?x) with (Browser.JSON_stringify x).
  unfold Browser.btoa.
  now rewrite (BrowserFacts.stringify_demo_latin1 _).
Qed.

(** X3. In a browser the backend refuses a refresh token that is
    absent, empty or starts with x, with the error "Refresh token
    invalid" of status 401, and accepts every other one; [refresh]
    returns true exactly for the accepted ones. *)
Theorem refresh_decided_by_token (w : World) :
  let rt := refreshToken (session w) in
  (refresh_rejected rt = false <->
     exists c s, rt = Some (c :: s) /\ c <> 120%N) /\
  fst (@MockAPI_refresh browser rt w)
  = (if refresh_rejected rt then Throw refresh_invalid
     else Normal (demo_token (date_now (after_refresh_call rt w)))) /\
  fst (@AuthProvider.tryRefresh browser w)
  = Normal (negb (refresh_rejected rt)).
Proof.
  intros rt. split; [apply refresh_accepted_iff|].
  unfold AuthProvider.tryRefresh, catch, bind, gets, ret, setAccessToken,
    modify.
  fold rt. destruct (refresh_rejected rt) eqn:H.
  - rewrite (@MockAPI_refresh_rejected browser _ w H). auto.
  - rewrite (MockAPI_refresh_browser _ w H). auto.
Qed.

(** * cryptoRandom *)

Lemma hex_digit_lower (d : N) :
  (d < 16)%N -> is_hex_lower (hex_digit d) = true.
Proof.
  intros H. unfold is_hex_lower, hex_digit.
  destruct (N.ltb_spec d 10).
  - apply orb_true_iff. left. apply andb_true_iff.
    split; apply N.leb_le; lia.
  - apply orb_true_iff. right. apply andb_true_iff.
    split; apply N.leb_le; lia.
Qed.

Lemma hex2_lower (b : N) :
  (b < 256)%N -> forallb is_hex_lower (hex2 b) = true.
Proof.
  intros H. unfold hex2. simpl.
  rewrite !hex_digit_lower; [reflexivity| |].
  - apply N.mod_lt. lia.
  - apply N.Div0.div_lt_upper_bound. lia.
Qed.

Lemma hex_of_bytes_length (arr : list N) :
  length (concat (map hex2 arr)) = (2 * length arr)%nat.
Proof. induction arr as [|b arr IH]; simpl; [reflexivity|]. lia. Qed.

Lemma hex_of_bytes_lower (arr : list N) :
  forallb (fun b => b <? 256)%N arr = true ->
  forallb is_hex_lower (concat (map hex2 arr)) = true.
Proof.
  induction arr as [|b arr IH]; simpl; [reflexivity|].
  intros H. apply andb_prop in H as [Hb H]. apply N.ltb_lt in Hb.
  change (hex2 b ++ concat (map hex2 arr))
    with (hex_digit (b / 16) :: hex_digit (b mod 16)
          :: concat (map hex2 arr)).
  pose proof (hex2_lower b Hb) as L. simpl in L. simpl.
  apply andb_prop in L as [L1 L2]. rewrite andb_true_r in L2.
  now rewrite L1, L2, IH.
Qed.

(** X4. Where [crypto.getRandomValues] fills the array, [cryptoRandom]
    returns two lower-case hexadecimal digits for every byte (32 for
    the 16 bytes it asks for), a text the backend's refresh check
    accepts since it is not empty and cannot start with x; it touches
    neither the session nor the network. *)
Theorem cryptoRandom_hex (w : World) (arr : list N) :
  random_bytes w (draws w) = Some arr ->
  forallb (fun b => b <? 256)%N arr = true ->
  hex_of_bytes arr w.
Proof.
  intros E Hb. unfold hex_of_bytes, cryptoRandom. rewrite E.
  eexists _, _. split; [reflexivity|].
  split; [apply hex_of_bytes_length|].
  split; [now apply hex_of_bytes_lower|].
  split; [|split; reflexivity].
  intros Hne. destruct arr as [|b arr]; [congruence|].
  simpl in Hb. apply andb_prop in Hb as [Hb _]. apply N.ltb_lt in Hb.
  pose proof (hex2_lower b Hb) as L. simpl in L.
  apply andb_prop in L as [L _].
  unfold is_hex_lower in L. simpl.
  destruct (N.eqb_spec (hex_digit (b / 16)) 120) as [E120|]; [|reflexivity].
  rewrite E120 in L. discriminate.
Qed.

Lemma cryptoRandom_hex_witness :
  random_bytes (quiet_world 1700000000000 empty_session false)
    (draws (quiet_world 1700000000000 empty_session false))
  = Some (repeat 171%N 16) /\
  forallb (fun b => b <? 256)%N (repeat 171%N 16) = true /\
  hex_of_bytes (repeat 171%N 16)
    (quiet_world 1700000000000 empty_session false).
Proof.
  split; [reflexivity|]. split; [reflexivity|].
  exact (cryptoRandom_hex (quiet_world 1700000000000 empty_session false)
           (repeat 171%N 16) eq_refl eq_refl).
Defined.

(** * Expiry over time *)

(** X5. A token that is expired at one clock reading is expired at
    every later one, and a token that is unexpired was unexpired at
    every earlier one, whatever its payload. *)
Theorem expiry_is_final {host : Host} (token : JsVal) (t1 t2 : Z) :
  t1 <= t2 ->
  (isExpired token t1 = Normal true -> isExpired token t2 = Normal true) /\
  (isExpired token t2 = Normal false -> isExpired token t1 = Normal false).
Proof.
  intros Ht. split; [now apply isExpired_mono|].
  intros H2. destruct (isExpired_returns token t1) as [[|] H1]; [|exact H1].
  rewrite (isExpired_mono token t1 t2 Ht H1) in H2. discriminate.
Qed.

Lemma expiry_is_final_witness :
  1700000060000 <= 1700000061000 /\
  @isExpired browser (JStr admin_token) 1700000060000 = Normal true /\
  @isExpired browser (JStr admin_token) 1700000061000 = Normal true /\
  1700000000000 <= 1700000059999 /\
  @isExpired browser (JStr admin_token) 1700000059999 = Normal false /\
  @isExpired browser (JStr admin_token) 1700000000000 = Normal false.
Proof.
  assert (@isExpired browser (JStr admin_token) 1700000060000 = Normal true)
    as Late by (vm_compute; reflexivity).
  assert (@isExpired browser (JStr admin_token) 1700000059999
          = Normal false) as Early by (vm_compute; reflexivity).
  split; [lia|]. split; [exact Late|]. split.
  - exact (proj1 (@expiry_is_final browser (JStr admin_token)
                    1700000060000 1700000061000 ltac:(lia)) Late).
  - split; [lia|]. split; [exact Early|].
    exact (proj2 (@expiry_is_final browser (JStr admin_token)
                    1700000000000 1700000059999 ltac:(lia)) Early).
Defined.

(** * The authentication gate *)

(** X6. [RequireAuth] never throws. It renders the checking screen
    exactly while loading; it renders the outlet exactly when, after
    loading, a user is present and the access token is a non-empty
    string that is not expired; in every other case it redirects to
    /login, replacing the history entry and carrying the location it
    was asked for. *)
Theorem RequireAuth_outcome {host : Host} (location : jstring) (w : World) :
  auth_gate_outcome location w.
Proof.
  unfold auth_gate_outcome, RequireAuth, session_invalid, usable.
  destruct (loading w) eqn:L.
  - eexists. split; [reflexivity|]. split; [tauto|]. split.
    + split; [discriminate|]. intros [[=] _].
    + intros H. now destruct H.
  - destruct (user (session w)) as [u|] eqn:U; simpl.
    2:{ eexists. split; [reflexivity|]. split; [split; discriminate|]. split.
        - split; [discriminate|]. intros (_ & ? & ? & [=] & _).
        - reflexivity. }
    destruct (accessToken (session w)) as [tok|] eqn:A; simpl.
    2:{ eexists. split; [reflexivity|]. split; [split; discriminate|]. split.
        - split; [discriminate|]. intros (_ & ? & ? & _ & [=] & _).
        - reflexivity. }
    destruct tok as [|c tok]; simpl.
    { eexists. split; [reflexivity|]. split; [split; discriminate|]. split.
      - split; [discriminate|].
        intros (_ & ? & ? & _ & [= <-] & [=] & _).
      - reflexivity. }
    destruct (isExpired_returns (JStr (c :: tok)) (date_now w)) as [b Hb].
    rewrite Hb. destruct b; simpl.
    + eexists. split; [reflexivity|]. split; [split; discriminate|]. split.
      * split; [discriminate|].
        intros (_ & ? & ? & _ & [= <-] & _ & H). congruence.
      * reflexivity.
    + eexists. split; [reflexivity|]. split; [split; discriminate|]. split.
      * split; [|reflexivity]. intros _. split; [reflexivity|].
        exists u, (c :: tok). auto.
      * intros _ H. now destruct H.
Qed.

(** * JSON texts parse back *)

Module JsonFacts.
Import Browser.

#[local] Open Scope N_scope.

Lemma hex_table :
  forallb (fun d => match hex_value (hex_digit d) with
                    | Some x => x =? d
                    | None => false
                    end) (map N.of_nat (seq 0 16)) = true.
Proof. vm_compute. reflexivity. Qed.

Lemma hex_value_digit (d : N) : d < 16 -> hex_value (hex_digit d) = Some d.
Proof.
  intros H. pose proof hex_table as T. rewrite forallb_forall in T.
  specialize (T d). destruct (hex_value (hex_digit d)) as [x|].
  - f_equal. apply N.eqb_eq, T, in_map_iff. exists (N.to_nat d).
    split; [apply N2Nat.id|]. apply in_seq. lia.
  - assert (false = true) as F; [|discriminate].
    apply T, in_map_iff. exists (N.to_nat d).
    split; [apply N2Nat.id|]. apply in_seq. lia.
Qed.

Lemma hex4_value_hex4 (c : N) :
  c < 65536 ->
  match hex4 c with
  | [a; b; x; d] => hex4_value a b x d = Some c
  | _ => False
  end.
Proof.
  intros H. unfold hex4, hex4_value.
  assert (c / 4096 < 16) by (apply N.Div0.div_lt_upper_bound; lia).
  assert ((c / 256) mod 16 < 16) by (apply N.mod_lt; lia).
  assert ((c / 16) mod 16 < 16) by (apply N.mod_lt; lia).
  assert (c mod 16 < 16) by (apply N.mod_lt; lia).
  rewrite !hex_value_digit by assumption. f_equal.
  pose proof (N.Div0.div_mod c 16) as E1.
  pose proof (N.Div0.div_mod (c / 16) 16) as E2.
  pose proof (N.Div0.div_mod (c / 256) 16) as E3.
  rewrite N.Div0.div_div in E2. rewrite N.Div0.div_div in E3.
  change (16 * 16) with 256 in E2. change (256 * 16) with 4096 in E3.
  lia.
Qed.

Lemma push_normal {A} (c : N) (s : list N) (r : A) :
  push c (Normal (s, r)) = Normal (c :: s, r).
Proof. reflexivity. Qed.

Lemma read_plain (c : N) (r : list N) :
  c <> 34 -> c <> 92 -> 32 <= c ->
  read_string (c :: r) = push c (read_string r).
Proof.
  intros H1 H2 H3. cbn [read_string].
  apply N.eqb_neq in H1, H2. rewrite H1, H2.
  assert ((c <? 32) = false) as E by (apply N.ltb_ge; lia).
  now rewrite E.
Qed.

Lemma read_escape (e u : N) (r : list N) :
  e <> 117 -> unescape e = Some u ->
  read_string (92 :: e :: r) = push u (read_string r).
Proof.
  intros H1 H2. cbn [read_string]. cbn [N.eqb Pos.eqb].
  apply N.eqb_neq in H1. now rewrite H1, H2.
Qed.

Lemma read_u_escape (c : N) (r : list N) :
  c < 65536 -> read_string (u_escape c ++ r) = push c (read_string r).
Proof.
  intros H. pose proof (hex4_value_hex4 c H) as E.
  unfold u_escape. destruct (hex4 c) as [|a [|b [|x [|d [|]]]]];
    try contradiction.
  cbn [app read_string]. cbn [N.eqb Pos.eqb]. now rewrite E.
Qed.

(** A quoted string reads back as the string, every code unit of it. *)
Lemma read_string_quoted (n : nat) :
  forall (s r : list N), (length s <= n)%nat ->
  read_string (quote_units s ++ 34 :: r) = Normal (s, r).
Proof.
  induction n as [|n IH]; intros s r Hn.
  - destruct s; [reflexivity|simpl in Hn; lia].
  - destruct s as [|c rest]; [reflexivity|]. simpl in Hn.
    assert (read_string (quote_units rest ++ 34 :: r) = Normal (rest, r))
      as IHr by (apply IH; lia).
    cbn [quote_units].
    destruct (N.eqb_spec c 34) as [->|H34].
    { cbn [app]. rewrite (read_escape 34 34) by (discriminate || reflexivity).
      now rewrite IHr. }
    destruct (N.eqb_spec c 92) as [->|H92].
    { cbn [app]. rewrite (read_escape 92 92) by (discriminate || reflexivity).
      now rewrite IHr. }
    destruct (N.eqb_spec c 8) as [->|H8].
    { cbn [app]. rewrite (read_escape 98 8) by (discriminate || reflexivity).
      now rewrite IHr. }
    destruct (N.eqb_spec c 9) as [->|H9].
    { cbn [app]. rewrite (read_escape 116 9) by (discriminate || reflexivity).
      now rewrite IHr. }
    destruct (N.eqb_spec c 10) as [->|H10].
    { cbn [app]. rewrite (read_escape 110 10) by (discriminate || reflexivity).
      now rewrite IHr. }
    destruct (N.eqb_spec c 12) as [->|H12].
    { cbn [app]. rewrite (read_escape 102 12) by (discriminate || reflexivity).
      now rewrite IHr. }
    destruct (N.eqb_spec c 13) as [->|H13].
    { cbn [app]. rewrite (read_escape 114 13) by (discriminate || reflexivity).
      now rewrite IHr. }
    destruct (N.ltb_spec c 32) as [L|L].
    { rewrite <- app_assoc, read_u_escape by lia. now rewrite IHr. }
    destruct (is_high_surrogate c) eqn:Hh.
    { unfold is_high_surrogate in Hh. apply andb_prop in Hh as [_ Hh].
      apply N.leb_le in Hh.
      destruct rest as [|d rest'].
      - cbn [app]. change (u_escape c ++ 34 :: r)
          with (u_escape c ++ ([] ++ 34 :: r)).
        rewrite read_u_escape by lia. reflexivity.
      - destruct (is_low_surrogate d) eqn:Hl.
        + unfold is_low_surrogate in Hl. apply andb_prop in Hl as [Hl _].
          apply N.leb_le in Hl. cbn [app].
          rewrite read_plain by lia. rewrite read_plain by lia.
          rewrite IH by (simpl in Hn; lia). reflexivity.
        + rewrite <- app_assoc, read_u_escape by lia. now rewrite IHr. }
    destruct (is_low_surrogate c) eqn:Hl.
    { unfold is_low_surrogate in Hl. apply andb_prop in Hl as [_ Hl].
      apply N.leb_le in Hl.
      rewrite <- app_assoc, read_u_escape by lia. now rewrite IHr. }
    cbn [app]. rewrite read_plain by lia. now rewrite IHr.
Qed.

Lemma parse_value_string (f : nat) (s r : list N) :
  parse_value (S f) (quote s ++ r) = Normal (JStr s, r).
Proof.
  rewrite BrowserFacts.parse_value_eq. unfold quote.
  cbn -[parse_value parse_members parse_elements read_string quote_units].
  rewrite <- app_assoc. cbn [app].
  rewrite (read_string_quoted (length s)) by lia. reflexivity.
Qed.

(** *** Numbers, before a comma, brace or bracket *)

Lemma ends_number_cases (c : N) :
  ends_number c = true -> c = 44 \/ c = 125 \/ c = 93.
Proof.
  unfold ends_number. intros H.
  apply orb_true_iff in H as [H|H]; [apply orb_true_iff in H as [H|H]|];
    apply N.eqb_eq in H; auto.
Qed.

Lemma read_uint_before (d : Decimal.uint) (c : N) (r : list N) :
  ends_number c = true ->
  read_uint (lit (NilEmpty.string_of_uint d) ++ c :: r) = (d, c :: r).
Proof.
  intros H.
  induction d; cbn [NilEmpty.string_of_uint];
    rewrite ?BrowserFacts.lit_cons;
    [destruct (ends_number_cases c H) as [->|[->| ->]]; reflexivity|..];
    cbn -[lit NilEmpty.string_of_uint]; rewrite IHd; reflexivity.
Qed.

Lemma read_int_before (negative : bool) (p : positive) (c : N)
  (r : list N) :
  ends_number c = true ->
  read_int negative
    (lit (NilEmpty.string_of_uint (Pos.to_uint p)) ++ c :: r)
  = Normal (JNum (if negative then Zneg p else Zpos p), c :: r).
Proof.
  intros H.
  pose proof (read_uint_before (Pos.to_uint p) c r H) as R.
  pose proof (BrowserFacts.to_uint_head p) as H0.
  pose proof (DecimalPos.Unsigned.to_uint_nonnil p) as Hn.
  pose proof (BrowserFacts.of_to_uint p) as V.
  assert (Z.of_int (Decimal.Neg (Pos.to_uint p)) = Zneg p) as Vn.
  { simpl. rewrite V. reflexivity. }
  assert (Z.of_int (Decimal.Pos (Pos.to_uint p)) = Zpos p) as Vp by exact V.
  assert (forall n, end_of_integer n (c :: r) = Normal (JNum n, c :: r))
    as En.
  { intros n. destruct (ends_number_cases c H) as [->|[->| ->]];
      reflexivity. }
  destruct (Pos.to_uint p) as [| u | u | u | u | u | u | u | u | u | u];
    [now destruct Hn | now destruct (H0 u) | ..];
    unfold read_int;
    cbn [NilEmpty.string_of_uint] in R |- *;
    rewrite BrowserFacts.lit_cons in R |- *;
    cbn -[lit NilEmpty.string_of_uint read_uint Z.of_int end_of_integer]
      in R |- *;
    rewrite R, En; destruct negative; rewrite ?Vn, ?Vp; reflexivity.
Qed.

Lemma parse_value_number_before (f : nat) (n : Z) (c : N) (r : list N) :
  ends_number c = true ->
  parse_value (S f) (Z_to_jstring n ++ c :: r) = Normal (JNum n, c :: r).
Proof.
  intros H. destruct n as [|p|p].
  - destruct (ends_number_cases c H) as [->|[->| ->]]; reflexivity.
  - rewrite BrowserFacts.Z_to_jstring_pos.
    pose proof (read_int_before false p c r H) as RI.
    pose proof (BrowserFacts.to_uint_head p) as H0.
    pose proof (DecimalPos.Unsigned.to_uint_nonnil p) as Hn.
    destruct (Pos.to_uint p) as [| u | u | u | u | u | u | u | u | u | u];
      [now destruct Hn | now destruct (H0 u) | ..];
      cbn [NilEmpty.string_of_uint] in RI |- *;
      rewrite BrowserFacts.lit_cons in RI |- *;
      cbn -[lit NilEmpty.string_of_uint read_int] in RI |- *;
      exact RI.
  - rewrite BrowserFacts.Z_to_jstring_neg.
    cbn -[lit NilEmpty.string_of_uint read_int].
    now apply (read_int_before true).
Qed.

(** *** Arrays of strings *)

Lemma stringify_strings (rs : list jstring) :
  JSON_stringify (JArr (map JStr rs))
  = 91 :: join (lit ",") (map quote rs) ++ [93].
Proof.
  cbn [JSON_stringify]. rewrite map_map.
  change (lit "[") with [91]. change (lit "]") with [93].
  change (fun x => JSON_stringify (JStr x)) with quote. reflexivity.
Qed.

Lemma parse_elements_strings (rs : list jstring) :
  forall (s : jstring) (f : nat) (r : list N),
  (length rs < f)%nat ->
  parse_elements (S f) (join (lit ",") (map quote (s :: rs)) ++ 93 :: r)
  = Normal (JStr s :: map JStr rs, r).
Proof.
  induction rs as [|s' rs IH]; intros s f r Hf;
    (destruct f as [|f]; [simpl in Hf; lia|]);
    rewrite BrowserFacts.parse_elements_eq.
  - cbn [map join]. rewrite parse_value_string. reflexivity.
  - change (join (lit ",") (map quote (s :: s' :: rs)))
      with (quote s ++ 44 :: join (lit ",") (map quote (s' :: rs))).
    rewrite <- app_assoc. cbn [app].
    rewrite parse_value_string.
    cbn [cbind fst snd skip_ws is_json_ws N.eqb Pos.eqb orb].
    rewrite IH by (simpl in Hf; lia). reflexivity.
Qed.

Lemma parse_value_strings (rs : list jstring) (f : nat) (r : list N) :
  (length rs < f)%nat ->
  parse_value (S f) (JSON_stringify (JArr (map JStr rs)) ++ r)
  = Normal (JArr (map JStr rs), r).
Proof.
  intros Hf. rewrite stringify_strings.
  destruct rs as [|s rs]; [reflexivity|].
  destruct f as [|f]; [lia|].
  cbn [app]. rewrite <- app_assoc. cbn [app].
  remember (join (lit ",") (map quote (s :: rs)) ++ 93 :: r) as X eqn:EX.
  assert (exists tl, X = 34 :: tl) as [tl HX].
  { subst X. destruct rs; eexists; reflexivity. }
  rewrite BrowserFacts.parse_value_eq. rewrite HX.
  cbn -[parse_value parse_members parse_elements].
  rewrite <- HX, EX.
  rewrite parse_elements_strings by (simpl in Hf; lia). reflexivity.
Qed.
(** *** The claims of a token *)

Lemma stringify_claims (sub : Z) (nm : jstring) (rs : list jstring)
  (exp : Z) :
  JSON_stringify (claims sub nm rs exp)
  = claims_k1 ++ Z_to_jstring sub ++ claims_k2 ++ quote nm ++ claims_k3
    ++ JSON_stringify (JArr (map JStr rs)) ++ claims_k4
    ++ Z_to_jstring exp ++ [125].
Proof.
  unfold claims.
  cbn [JSON_stringify map List.filter fst snd is_undefined negb join].
  generalize (Z_to_jstring sub) (quote nm) (Z_to_jstring exp)
    (join (lit ",") (map JSON_stringify (map JStr rs))).
  intros A B D C. rewrite <- !app_assoc. reflexivity.
Qed.

Lemma parse_value_null (f : nat) (r : list N) :
  parse_value (S f) (lit "null" ++ r) = Normal (JNull, r).
Proof. reflexivity. Qed.

Ltac json_step :=
  first [ rewrite parse_value_string
        | rewrite parse_value_null
        | rewrite parse_value_number_before by reflexivity
        | rewrite parse_value_strings by (simpl in *; lia)
        | rewrite BrowserFacts.parse_value_eq
        | rewrite BrowserFacts.parse_members_eq ];
  cbn -[parse_value parse_members parse_elements Z_to_jstring quote
        JSON_stringify].

Lemma parse_claims (sub : Z) (nm : jstring) (rs : list jstring) (exp : Z)
  (f : nat) :
  (length rs + 8 <= f)%nat ->
  parse_value f (JSON_stringify (claims sub nm rs exp))
  = Normal (claims sub nm rs exp, []).
Proof.
  intros Hf. rewrite stringify_claims.
  unfold claims_k1, claims_k2, claims_k3, claims_k4.
  do 8 (destruct f as [|f]; [lia|]).
  cbn -[parse_value parse_members parse_elements Z_to_jstring quote
        JSON_stringify].
  repeat json_step. reflexivity.
Qed.

Lemma join_quote_length (rs : list jstring) :
  (length rs <= length (join (lit ",") (map quote rs)))%nat.
Proof.
  induction rs as [|s rs IH]; [simpl; lia|].
  destruct rs as [|s' rs].
  - simpl. lia.
  - change (join (lit ",") (map quote (s :: s' :: rs)))
      with (quote s ++ 44 :: join (lit ",") (map quote (s' :: rs))).
    rewrite length_app. simpl length at 2. simpl in IH |- *. lia.
Qed.

Lemma strings_text_length (rs : list jstring) :
  (length rs <= length (JSON_stringify (JArr (map JStr rs))))%nat.
Proof.
  rewrite stringify_strings. simpl. rewrite length_app.
  pose proof (join_quote_length rs). lia.
Qed.

(** [JSON.parse(JSON.stringify(claims))] gives the claims back. *)
Lemma parse_stringify_claims (sub : Z) (nm : jstring) (rs : list jstring)
  (exp : Z) :
  JSON_parse (JSON_stringify (claims sub nm rs exp))
  = Normal (claims sub nm rs exp).
Proof.
  unfold JSON_parse. rewrite parse_claims; [reflexivity|].
  rewrite stringify_claims, !length_app.
  pose proof (strings_text_length rs).
  change (length claims_k1) with 7%nat.
  change (length claims_k2) with 8%nat. lia.
Qed.

(** *** Latin-1 texts stay Latin-1 *)

Lemma hex_digit_latin1 (d : N) : d < 16 -> (hex_digit d <? 256) = true.
Proof.
  intros H. apply N.ltb_lt. unfold hex_digit.
  destruct (d <? 10); lia.
Qed.

Lemma u_escape_latin1 (c : N) : c < 256 -> latin1 (u_escape c) = true.
Proof.
  intros H. unfold u_escape, hex4. cbn [latin1 forallb].
  assert (c / 4096 < 16) by (apply N.Div0.div_lt_upper_bound; lia).
  assert ((c / 256) mod 16 < 16) by (apply N.mod_lt; lia).
  assert ((c / 16) mod 16 < 16) by (apply N.mod_lt; lia).
  assert (c mod 16 < 16) by (apply N.mod_lt; lia).
  now rewrite !hex_digit_latin1 by assumption.
Qed.

Lemma quote_units_latin1 (s : list N) :
  latin1 s = true -> latin1 (quote_units s) = true.
Proof.
  induction s as [|c s IH]; [reflexivity|]. intros H.
  cbn [latin1 forallb] in H. apply andb_prop in H as [Hc H].
  specialize (IH H). pose proof Hc as Hc'. apply N.ltb_lt in Hc'.
  cbn [quote_units].
  repeat match goal with
         | |- context [if ?c =? ?k then _ else _] =>
             destruct (c =? k); [exact IH|]
         end.
  destruct (c <? 32).
  { rewrite BrowserFacts.latin1_app, u_escape_latin1 by lia. exact IH. }
  assert (is_high_surrogate c = false) as ->.
  { unfold is_high_surrogate. apply andb_false_iff. left.
    apply N.leb_gt. lia. }
  assert (is_low_surrogate c = false) as ->.
  { unfold is_low_surrogate. apply andb_false_iff. left.
    apply N.leb_gt. lia. }
  cbn [latin1 forallb]. rewrite Hc. exact IH.
Qed.

Lemma quote_latin1 (s : list N) :
  latin1 s = true -> latin1 (quote s) = true.
Proof.
  intros H. unfold quote. cbn [latin1 forallb].
  change (forallb (fun c => c <? 256) ?x) with (latin1 x).
  rewrite BrowserFacts.latin1_app, quote_units_latin1 by exact H.
  reflexivity.
Qed.

Lemma strings_latin1 (rs : list jstring) :
  forallb latin1 rs = true ->
  latin1 (JSON_stringify (JArr (map JStr rs))) = true.
Proof.
  intros H. rewrite stringify_strings. cbn [latin1 forallb].
  change (forallb (fun c => c <? 256) ?x) with (latin1 x).
  rewrite BrowserFacts.latin1_app. cbn [andb].
  rewrite andb_true_r.
  induction rs as [|s rs IH]; [reflexivity|].
  cbn [forallb] in H. apply andb_prop in H as [Hs H].
  destruct rs as [|s' rs].
  - cbn [map join]. now apply quote_latin1.
  - change (join (lit ",") (map quote (s :: s' :: rs)))
      with (quote s ++ 44 :: join (lit ",") (map quote (s' :: rs))).
    rewrite BrowserFacts.latin1_app, quote_latin1 by exact Hs.
    cbn [latin1 forallb andb].
    change (forallb (fun c => c <? 256) ?x) with (latin1 x).
    now apply IH.
Qed.

Lemma claims_latin1 (sub : Z) (nm : jstring) (rs : list jstring) (exp : Z) :
  latin1 nm = true -> forallb latin1 rs = true ->
  latin1 (JSON_stringify (claims sub nm rs exp)) = true.
Proof.
  intros Hn Hr. rewrite stringify_claims, !BrowserFacts.latin1_app.
  rewrite quote_latin1, strings_latin1 by assumption.
  unfold Z_to_jstring. now rewrite !BrowserFacts.lit_latin1.
Qed.

(** A token built from Latin-1 claims decodes to them. *)
Lemma decode_claims_token (sub : Z) (nm : jstring) (rs : list jstring)
  (exp : Z) :
  latin1 nm = true -> forallb latin1 rs = true ->
  @decodeJWT browser
    (JStr (bearer (b64_encode (JSON_stringify (claims sub nm rs exp)))))
  = Normal (claims sub nm rs exp).
Proof.
  intros Hn Hr.
  rewrite BrowserFacts.decode_bearer by now apply claims_latin1.
  now rewrite parse_stringify_claims.
Qed.

(** *** The stored snapshot *)

Lemma parse_value_opt (o : option jstring) (f : nat) (r : list N) :
  parse_value (S f) (JSON_stringify (opt_js o) ++ r) = Normal (opt_js o, r).
Proof.
  destruct o as [s|]; [apply parse_value_string|apply parse_value_null].
Qed.

Lemma stringify_user (u : User) :
  JSON_stringify (user_js u)
  = user_k1 ++ Z_to_jstring (id u) ++ claims_k2 ++ quote (name u)
    ++ claims_k3 ++ JSON_stringify (JArr (map JStr (roles u))) ++ [125].
Proof.
  unfold user_js.
  cbn [JSON_stringify map List.filter fst snd is_undefined negb join].
  generalize (Z_to_jstring (id u)) (quote (name u))
    (join (lit ",") (map JSON_stringify (map JStr (roles u)))).
  intros A B C. rewrite <- !app_assoc. reflexivity.
Qed.

Lemma parse_user (u : User) (f : nat) (r : list N) :
  (length (roles u) + 6 <= f)%nat ->
  parse_value f (JSON_stringify (user_js u) ++ r) = Normal (user_js u, r).
Proof.
  intros Hf. rewrite stringify_user.
  unfold user_k1, claims_k2, claims_k3.
  do 6 (destruct f as [|f]; [lia|]).
  rewrite <- !app_assoc.
  cbn -[parse_value parse_members parse_elements Z_to_jstring quote
        JSON_stringify].
  repeat json_step. reflexivity.
Qed.

Lemma stringify_snapshot (s : Session) :
  JSON_stringify (snapshot_js s)
  = snapshot_k1
    ++ JSON_stringify (match user s with
                       | Some u => user_js u
                       | None => JNull
                       end)
    ++ snapshot_k2 ++ JSON_stringify (opt_js (accessToken s))
    ++ snapshot_k3 ++ JSON_stringify (opt_js (refreshToken s)) ++ [125].
Proof.
  unfold snapshot_js.
  assert (forall o, is_undefined (opt_js o) = false) as Ho
    by (now intros [|]).
  assert (is_undefined (match user s with
                        | Some u => user_js u
                        | None => JNull
                        end) = false) as Hu by (now destruct (user s)).
  cbn [JSON_stringify map]. rewrite Hu, !Ho.
  cbn [List.filter negb fst snd map join].
  generalize (JSON_stringify (match user s with
                              | Some u => user_js u
                              | None => JNull
                              end))
    (JSON_stringify (opt_js (accessToken s)))
    (JSON_stringify (opt_js (refreshToken s))).
  intros A B C. rewrite <- !app_assoc. reflexivity.
Qed.

Lemma parse_snapshot (s : Session) (f : nat) :
  (match user s with Some u => length (roles u) | None => 0 end + 10 <= f)%nat
  -> parse_value f (JSON_stringify (snapshot_js s))
     = Normal (snapshot_js s, []).
Proof.
  intros Hf. rewrite stringify_snapshot.
  unfold snapshot_k1, snapshot_k2, snapshot_k3, snapshot_js.
  do 5 (destruct f as [|f]; [lia|]).
  cbn -[parse_value parse_members parse_elements Z_to_jstring quote
        JSON_stringify].
  destruct (user s) as [u|].
  - do 2 json_step. rewrite parse_user by lia.
    cbn -[parse_value parse_members parse_elements Z_to_jstring quote
          JSON_stringify].
    json_step. rewrite parse_value_opt.
    cbn -[parse_value parse_members parse_elements Z_to_jstring quote
          JSON_stringify].
    json_step. rewrite parse_value_opt. reflexivity.
  - do 2 json_step. change (JSON_stringify JNull) with (lit "null").
    rewrite parse_value_null.
    cbn -[parse_value parse_members parse_elements Z_to_jstring quote
          JSON_stringify].
    json_step. rewrite parse_value_opt.
    cbn -[parse_value parse_members parse_elements Z_to_jstring quote
          JSON_stringify].
    json_step. rewrite parse_value_opt. reflexivity.
Qed.


Lemma user_text_length (u : User) :
  (length (roles u) <= length (JSON_stringify (user_js u)))%nat.
Proof.
  rewrite stringify_user, !length_app.
  pose proof (strings_text_length (roles u)). lia.
Qed.

(** [JSON.parse(JSON.stringify(snapshot))] gives the snapshot back. *)
Lemma parse_stringify_snapshot (s : Session) :
  JSON_parse (JSON_stringify (snapshot_js s)) = Normal (snapshot_js s).
Proof.
  unfold JSON_parse. rewrite parse_snapshot; [reflexivity|].
  rewrite stringify_snapshot, !length_app.
  change (length snapshot_k1) with 8%nat.
  change (length snapshot_k2) with 15%nat.
  destruct (user s) as [u|]; [|lia].
  pose proof (user_text_length u). lia.
Qed.

Lemma snapshot_text_nonempty (s : Session) :
  truthy (JStr (JSON_stringify (snapshot_js s))) = true.
Proof. rewrite stringify_snapshot. reflexivity. Qed.


(** *** The claims of the protected-route demo *)

Lemma stringify_fake (n : Z) :
  JSON_stringify (ProtectedRouteDemo.fake_claims n)
  = fake_prefix ++ Z_to_jstring n ++ [125].
Proof. reflexivity. Qed.

Lemma parse_stringify_fake (n : Z) :
  JSON_parse (JSON_stringify (ProtectedRouteDemo.fake_claims n))
  = Normal (ProtectedRouteDemo.fake_claims n).
Proof.
  rewrite stringify_fake. unfold JSON_parse, fake_prefix.
  cbn -[parse_value parse_members parse_elements Z_to_jstring quote
        JSON_stringify].
  repeat json_step. reflexivity.
Qed.

Lemma fake_latin1 (n : Z) :
  latin1 (JSON_stringify (ProtectedRouteDemo.fake_claims n)) = true.
Proof.
  rewrite stringify_fake, !BrowserFacts.latin1_app. unfold Z_to_jstring.
  now rewrite BrowserFacts.lit_latin1.
Qed.

Lemma decode_fake_token (t : Z) :
  @decodeJWT browser (JStr (fake_token t))
  = Normal (ProtectedRouteDemo.fake_claims (t / 1000 + 60)).
Proof.
  unfold fake_token. rewrite BrowserFacts.decode_bearer by apply fake_latin1.
  now rewrite parse_stringify_fake.
Qed.

End JsonFacts.

(** * Login *)

Lemma MockAPI_login_accepted {host : Host} (username : jstring)
  (password : option jstring) (w : World) :
  password_rejected password = false ->
  MockAPI_login username password w
  = let w2 := after_login_call username w in
    let u := mkUser (next_ref w) 1 username (roles_of username) in
    match btoa (JSON_stringify
                  (claims 1 username (roles_of username)
                     (date_now w2 / 1000 + 60))) with
    | Normal payload =>
        (Normal (mkLoginResult u (bearer payload)
                   (match random_bytes w (draws w) with
                    | Some arr => concat (map hex2 arr)
                    | None => skipn 2 (math_random36 w (draws w))
                    end)),
         set_draws (S (draws w)) w2)
    | Throw e => (Throw e, w2)
    end.
Proof.
  intros H. unfold MockAPI_login, after_login_call, cryptoRandom. st_unfold.
  cbn -[Z.div]. rewrite H. cbn -[Z.div].
  destruct (btoa _); [|reflexivity]. cbn -[Z.div].
  destruct (random_bytes w (draws w)); reflexivity.
Qed.

Lemma roles_of_latin1 (username : jstring) :
  forallb Browser.latin1 (roles_of username) = true.
Proof.
  unfold roles_of.
  destruct (jstr_eqb username (lit "admin")); [reflexivity|].
  destruct (jstr_eqb username (lit "mod")
            || jstr_eqb username (lit "moderator")); reflexivity.
Qed.

(** X7. In a browser, a login with a Latin-1 user name and a password
    of at least 6 characters returns the user [{ id: 1, name, roles }]
    and replaces the whole session; the access token it stores decodes
    to claims carrying that user's name and roles and an expiry 60
    seconds after the clock reading at which the backend answered;
    exactly one backend call is made and the store is untouched. *)
Theorem login_establishes_session (username : jstring)
  (password : option jstring) (w : World) :
  Browser.latin1 username = true ->
  password_rejected password = false ->
  login_establishes username password w.
Proof.
  intros Hl Hp. unfold login_establishes.
  pose proof (@MockAPI_login_accepted browser username password w Hp) as E.
  cbv zeta in E.
  change (@btoa browser ?x) with (Browser.btoa x) in E.
  change (@JSON_stringify browser ?x) with (Browser.JSON_stringify x) in E.
  unfold Browser.btoa in E.
  rewrite (JsonFacts.claims_latin1 1 username (roles_of username) _ Hl
             (roles_of_latin1 username)) in E.
  eexists _, _. cbv zeta.
  unfold AuthProvider.login. unfold bind at 1. rewrite E.
  split; [reflexivity|].
  unfold login_token, login_claims.
  split; [reflexivity|].
  split.
  { apply JsonFacts.decode_claims_token; [exact Hl|apply roles_of_latin1]. }
  cbn -[Z.add Z.max]. repeat split. lia.
Qed.

Lemma login_establishes_session_witness :
  Browser.latin1 (lit "admin") = true /\
  password_rejected (Some secret123) = false /\
  login_establishes (lit "admin") (Some secret123)
    (quiet_world 1700000000000 empty_session false).
Proof.
  split; [reflexivity|]. split; [reflexivity|].
  exact (login_establishes_session (lit "admin") (Some secret123)
           (quiet_world 1700000000000 empty_session false)
           eq_refl eq_refl).
Defined.

(** The token of a login is expired exactly from its expiry second on. *)
Lemma login_token_expiry (username : jstring) (t0 t : Z) :
  Browser.latin1 username = true -> 0 <= t0 ->
  @isExpired browser (JStr (login_token username t0)) t
  = Normal (t0 / 1000 + 60 <=? t / 1000).
Proof.
  intros Hl Ht.
  rewrite (isExpired_of_decoded _ (login_claims username t0)).
  2:{ apply JsonFacts.decode_claims_token;
        [exact Hl|apply roles_of_latin1]. }
  assert (0 <= t0 / 1000) as Hn by (apply Z.div_pos; lia).
  change (get_exp (login_claims username t0))
    with (JNum (t0 / 1000 + 60)).
  unfold js_le_num. cbn [truthy ToNumber].
  destruct (Z.eqb_spec (t0 / 1000 + 60) 0); [lia|]. reflexivity.
Qed.

(** X8. After a login at or after the epoch, and once loading is over,
    [RequireAuth] lets the session through while the clock is before
    the token's expiry second, 60 seconds after the login, and
    redirects to /login from that second on. *)
Theorem fresh_login_passes_for_a_minute (username : jstring) (t0 : Z)
  (u : User) (rt : option jstring) (location : jstring) (w : World) :
  Browser.latin1 username = true ->
  0 <= t0 ->
  loading w = false ->
  session w = mkSession (Some u) (Some (login_token username t0)) rt ->
  @RequireAuth browser location w
  = Normal (if date_now w / 1000 <? t0 / 1000 + 60 then Outlet
            else Navigate (lit "/login") (Some location) true).
Proof.
  intros Hl Ht Hload Hs. unfold RequireAuth, session_invalid.
  rewrite Hload, Hs. cbn [user accessToken opt_js].
  change (truthy (JStr (login_token username t0))) with true.
  cbn [negb]. rewrite (login_token_expiry _ _ _ Hl Ht). cbn [cbind].
  destruct (Z.leb_spec (t0 / 1000 + 60) (date_now w / 1000));
    destruct (Z.ltb_spec (date_now w / 1000) (t0 / 1000 + 60));
    try lia; reflexivity.
Qed.

Lemma fresh_login_passes_for_a_minute_witness :
  Browser.latin1 (lit "admin") = true /\
  0 <= 1700000000600 /\
  loading (admin_logged_in 1700000030000) = false /\
  session (admin_logged_in 1700000030000)
  = mkSession (Some admin_user)
      (Some (login_token (lit "admin") 1700000000600))
      (Some (lit "abababab")) /\
  @RequireAuth browser (lit "/admin") (admin_logged_in 1700000030000)
  = Normal (if date_now (admin_logged_in 1700000030000) / 1000
               <? 1700000000600 / 1000 + 60
            then Outlet
            else Navigate (lit "/login") (Some (lit "/admin")) true).
Proof.
  split; [reflexivity|]. split; [lia|]. split; [reflexivity|].
  split; [reflexivity|].
  exact (fresh_login_passes_for_a_minute (lit "admin") 1700000000600
           admin_user (Some (lit "abababab")) (lit "/admin")
           (admin_logged_in 1700000030000)
           eq_refl ltac:(lia) eq_refl eq_refl).
Defined.

(** * Role gates after a login *)

Lemma login_sets_user {host : Host} (username : jstring)
  (password : option jstring) (w w' : World) (u : User) :
  AuthProvider.login username password w = (Normal u, w') ->
  user (session w') = Some u /\
  u = mkUser (next_ref w) 1 username (roles_of username).
Proof.
  unfold AuthProvider.login. unfold bind at 1.
  destruct (MockAPI_login username password w) as [[r|e] w1] eqn:E;
    [|discriminate].
  apply MockAPI_login_user in E.
  unfold bind, ret, setUser, setAccessToken, setRefresh, modify.
  intros [= <- <-]. split; [reflexivity|exact E].
Qed.

Lemma RequireRoles_cases (required : option (list jstring)) (w : World) :
  RequireRoles required w = Outlet \/
  RequireRoles required w = Navigate (lit "/403") None true.
Proof.
  unfold RequireRoles.
  destruct (AuthProvider.hasAnyRole (user (session w)) required); auto.
Qed.

Ltac eval_gate :=
  match goal with
  | |- context [if negb ?b then _ else _] =>
      let v := eval vm_compute in b in
      change b with v; cbv beta iota delta [negb]
  end.

(** X9. After a login as [username] the role gate passes the ADMIN
    requirement exactly for admin, the MODERATOR requirement exactly for
    mod and moderator, and the USER requirement for everybody; whatever
    the requirement it renders the outlet or the redirect to /403. *)
Theorem login_decides_role_gates {host : Host} (username : jstring)
  (password : option jstring) (w w' : World) (u : User) :
  AuthProvider.login username password w = (Normal u, w') ->
  gates_by_username username w'.
Proof.
  intros E. destruct (login_sets_user _ _ _ _ _ E) as [Hu ->].
  unfold gates_by_username, RequireRoles. rewrite Hu.
  cbn [AuthProvider.hasAnyRole length Nat.eqb roles].
  split; [|split; [|split]].
  4:{ intros required.
      destruct (AuthProvider.hasAnyRole _ required); auto. }
  all: destruct (roles_of_cases username)
         as [[-> R]|[[[->| ->] R]|(N1 & N2 & N3 & R)]];
       rewrite R; eval_gate.
  all: try reflexivity.
  all: try (split; [discriminate|]).
  all: try (split; [intros _|intros _; reflexivity]).
  all: auto.
  all: try (intros [H|H]; first [discriminate|contradiction]).
  all: try (intros H; first [discriminate|contradiction]).
Qed.

Lemma login_decides_role_gates_witness :
  exists u w',
    @AuthProvider.login browser (lit "mod") (Some secret123)
      (quiet_world 1700000000000 empty_session false)
    = (Normal u, w') /\
    gates_by_username (lit "mod") w'.
Proof.
  eexists _, _.
  assert (forall x y,
    @AuthProvider.login browser (lit "mod") (Some secret123)
      (quiet_world 1700000000000 empty_session false) = (Normal x, y) ->
    @AuthProvider.login browser (lit "mod") (Some secret123)
      (quiet_world 1700000000000 empty_session false) = (Normal x, y) /\
    gates_by_username (lit "mod") y) as H.
  { intros x y E. split; [exact E|].
    exact (@login_decides_role_gates browser _ _ _ _ _ E). }
  apply H. vm_compute. reflexivity.
Defined.

(** * Refresh after login *)

Lemma hex_token_accepted (arr : list N) :
  arr <> [] -> forallb (fun b => b <? 256)%N arr = true ->
  refresh_rejected (Some (concat (map hex2 arr))) = false.
Proof.
  intros Hne Hb. destruct arr as [|b arr]; [congruence|].
  simpl in Hb. apply andb_prop in Hb as [Hb _]. apply N.ltb_lt in Hb.
  pose proof (hex2_lower b Hb) as L. simpl in L.
  apply andb_prop in L as [L _].
  unfold is_hex_lower in L. simpl.
  destruct (N.eqb_spec (hex_digit (b / 16)) 120) as [E120|]; [|reflexivity].
  rewrite E120 in L. discriminate.
Qed.

Lemma login_browser (username : jstring) (password : option jstring)
  (w : World) :
  Browser.latin1 username = true ->
  password_rejected password = false ->
  @AuthProvider.login browser username password w
  = (Normal (mkUser (next_ref w) 1 username (roles_of username)),
     after_login username w).
Proof.
  intros Hl Hp.
  pose proof (@MockAPI_login_accepted browser username password w Hp) as E.
  cbv zeta in E.
  change (@btoa browser ?x) with (Browser.btoa x) in E.
  change (@JSON_stringify browser ?x) with (Browser.JSON_stringify x) in E.
  unfold Browser.btoa in E.
  rewrite (JsonFacts.claims_latin1 1 username (roles_of username) _ Hl
             (roles_of_latin1 username)) in E.
  unfold AuthProvider.login. unfold bind at 1. rewrite E. reflexivity.
Qed.

Lemma tryRefresh_browser (w : World) :
  refresh_rejected (refreshToken (session w)) = false ->
  @AuthProvider.tryRefresh browser w = (Normal true, after_refresh w).
Proof.
  intros H.
  unfold AuthProvider.tryRefresh, catch, bind, gets, ret, setAccessToken,
    modify.
  rewrite (MockAPI_refresh_browser _ w H).
  unfold after_refresh.
  pose proof (@MockAPI_refresh_session browser (refreshToken (session w)) w)
    as Hs.
  rewrite (MockAPI_refresh_browser _ w H) in Hs. cbn [snd] in Hs.
  cbv zeta. now rewrite Hs.
Qed.

(** X10. In a browser, where the login drew its refresh token from
    [crypto.getRandomValues], a refresh right after the login succeeds:
    the token is hexadecimal, so the backend accepts it. The refresh
    replaces the access token by the demo token and keeps the user and
    the refresh token, so every role gate renders what it rendered
    after the login. *)
Theorem refresh_after_login (username : jstring)
  (password : option jstring) (w : World) (arr : list N) :
  Browser.latin1 username = true ->
  password_rejected password = false ->
  random_bytes w (draws w) = Some arr ->
  arr <> [] ->
  forallb (fun b => b <? 256)%N arr = true ->
  login_then_refresh username password w.
Proof.
  intros Hl Hp Hr Hne Hb. unfold login_then_refresh.
  exists (mkUser (next_ref w) 1 username (roles_of username)),
    (after_login username w), (after_refresh (after_login username w)).
  split; [now apply login_browser|].
  assert (refreshToken (session (after_login username w))
          = Some (concat (map hex2 arr))) as Ht.
  { unfold after_login, drawn_token. now rewrite Hr. }
  split.
  { apply tryRefresh_browser. rewrite Ht. now apply hex_token_accepted. }
  repeat split.
Qed.

Lemma refresh_after_login_witness :
  Browser.latin1 (lit "admin") = true /\
  password_rejected (Some secret123) = false /\
  random_bytes (quiet_world 1700000000000 empty_session false)
    (draws (quiet_world 1700000000000 empty_session false))
  = Some (repeat 171%N 16) /\
  repeat 171%N 16 <> [] /\
  forallb (fun b => b <? 256)%N (repeat 171%N 16) = true /\
  login_then_refresh (lit "admin") (Some secret123)
    (quiet_world 1700000000000 empty_session false).
Proof.
  split; [reflexivity|]. split; [reflexivity|]. split; [reflexivity|].
  split; [discriminate|]. split; [reflexivity|].
  exact (refresh_after_login (lit "admin") (Some secret123)
           (quiet_world 1700000000000 empty_session false)
           (repeat 171%N 16) eq_refl eq_refl eq_refl
           ltac:(discriminate) eq_refl).
Defined.

(** * The boot effect *)

(** X11. With no snapshot stored, or an empty one, the boot effect
    restores nothing and ends loading; the session and the store stay
    as they were. *)
Theorem boot_without_snapshot {host : Host} (w : World) :
  localStorage w !! demo_auth = None
  \/ localStorage w !! demo_auth = Some [] ->
  boot w = (Normal None, set_loading false w).
Proof.
  intros H. unfold boot, bind, gets, lift_c, modify, ret.
  destruct H as [H|H]; rewrite H; reflexivity.
Qed.

Lemma boot_without_snapshot_witness :
  (localStorage loading_world !! demo_auth = None
   \/ localStorage loading_world !! demo_auth = Some []) /\
  @boot browser loading_world = (Normal None, set_loading false loading_world).
Proof.
  assert (localStorage loading_world !! demo_auth = None
          \/ localStorage loading_world !! demo_auth = Some []) as H
    by (left; reflexivity).
  split; [exact H|].
  exact (@boot_without_snapshot browser loading_world H).
Defined.

(** X12. A stored snapshot that [JSON.parse] rejects, or that parses to
    [null], makes the boot effect throw before it ends loading: the
    world, with its loading flag, stays as it was. *)
Theorem boot_stuck_on_bad_snapshot {host : Host} (w : World)
  (c : N) (text : jstring) :
  localStorage w !! demo_auth = Some (c :: text) ->
  (exists e, JSON_parse (c :: text) = Throw e)
  \/ JSON_parse (c :: text) = Normal JNull ->
  exists e, boot w = (Throw e, w).
Proof.
  intros Hs H. unfold boot, bind, gets, lift_c, modify, ret.
  rewrite Hs. unfold boot_read. cbn [truthy negb].
  destruct H as [[e H]|H]; rewrite H; eexists; reflexivity.
Qed.

Lemma boot_stuck_on_bad_snapshot_witness :
  localStorage null_snapshot_world !! demo_auth = Some (110%N :: lit "ull") /\
  ((exists e, @JSON_parse browser (110%N :: lit "ull") = Throw e)
   \/ @JSON_parse browser (110%N :: lit "ull") = Normal JNull) /\
  exists e, @boot browser null_snapshot_world = (Throw e, null_snapshot_world).
Proof.
  assert (localStorage null_snapshot_world !! demo_auth
          = Some (110%N :: lit "ull")) as Hs by (vm_compute; reflexivity).
  assert ((exists e, @JSON_parse browser (110%N :: lit "ull") = Throw e)
          \/ @JSON_parse browser (110%N :: lit "ull") = Normal JNull) as Hp
    by (right; vm_compute; reflexivity).
  split; [exact Hs|]. split; [exact Hp|].
  exact (@boot_stuck_on_bad_snapshot browser null_snapshot_world _ _ Hs Hp).
Defined.

(** X13. In a browser the boot effect reads back what the persist
    effect wrote: after [persist], [boot] restores the user, the access
    token and the refresh token of the session, [null] for an absent
    one, and ends loading. *)
Theorem boot_restores_persisted (w : World) :
  @boot browser (snd (@AuthProvider.persist browser w))
  = (Normal (Some (restored_of (session w))),
     set_loading false (snd (@AuthProvider.persist browser w))).
Proof.
  unfold AuthProvider.persist, setItem, boot, bind, gets, lift_c, modify, ret.
  cbn [fst snd localStorage set_localStorage].
  rewrite lookup_insert_eq. unfold boot_read.
  change (@JSON_stringify browser ?x) with (Browser.JSON_stringify x).
  change (@JSON_parse browser ?x) with (Browser.JSON_parse x).
  rewrite JsonFacts.snapshot_text_nonempty. cbn [negb].
  rewrite JsonFacts.parse_stringify_snapshot.
  unfold restored_of.
  destruct (session w) as [[u|] [a|] [r|]]; reflexivity.
Qed.

(** * The protected-route demo *)

Section DemoFacts.
Context {host : Host}.

Lemma gt_excludes_le (v : JsVal) (n : Z) :
  js_gt_num v n = true -> js_le_num v n = false.
Proof.
  unfold js_gt_num, js_le_num. destruct (ToNumber v); [|discriminate].
  intros H. apply Z.ltb_lt in H. apply Z.leb_gt. lia.
Qed.

Lemma validateToken_value (token p : JsVal) (w : World) :
  decodeJWT token = Normal p ->
  let w' := snd (sleep 800 w) in
  ProtectedRouteDemo.validateToken token w
  = (Normal (if negb (truthy p) then JBool false
             else if truthy (get_exp p)
                  then JBool (js_gt_num (get_exp p) (date_now w' / 1000))
                  else get_exp p),
     w').
Proof.
  intros Hp. unfold ProtectedRouteDemo.validateToken.
  unfold bind, lift_c, gets, ret, sleep, modify. cbn [fst snd].
  rewrite Hp. destruct (truthy p); cbn [negb]; [|reflexivity].
  destruct (truthy (get_exp p)); reflexivity.
Qed.

End DemoFacts.

(** X14. [validateToken] waits at least 800 ms and never throws. A
    token it accepts is unexpired for [isExpired] at the clock reading
    it used; for a payload with no [exp] or a numeric one the two
    checks agree exactly. *)
Theorem validateToken_agrees_with_isExpired {host : Host} (token : JsVal)
  (w : World) : validation_agrees token w.
Proof.
  unfold validation_agrees.
  destruct (decodeJWT_returns token) as [p Hp].
  rewrite (validateToken_value token p w Hp). cbv zeta.
  set (w' := snd (sleep 800 w)).
  eexists _, _. split; [reflexivity|]. split.
  { unfold w', sleep, modify. cbn -[Z.add Z.max]. lia. }
  rewrite (isExpired_of_decoded _ _ _ Hp). split.
  - destruct (truthy p); cbn [negb]; [|discriminate].
    destruct (truthy (get_exp p)) eqn:Te.
    + cbn [truthy negb orb]. intros H.
      now rewrite (gt_excludes_le _ _ H).
    + intros H. congruence.
  - intros p' Hp' [Hu|[e He]]; rewrite Hp in Hp'; injection Hp' as <-.
    + rewrite Hu. cbn [truthy negb orb].
      destruct (truthy p); simpl; split; intros; discriminate.
    + rewrite He. unfold js_gt_num, js_le_num. cbn [truthy ToNumber].
      destruct (Z.eqb_spec e 0) as [->|Hz]; cbn [negb orb].
      * destruct (truthy p); simpl; split; intros; discriminate.
      * destruct (truthy p) eqn:Tp; cbn [negb truthy].
        -- destruct (Z.ltb_spec (date_now w' / 1000) e);
             destruct (Z.leb_spec e (date_now w' / 1000)); try lia;
             split; congruence.
        -- exfalso. destruct p; simpl in Tp, He; discriminate.
Qed.

Lemma ProtectedRoute_cases (v : JsVal) :
  (ProtectedRouteDemo.ProtectedRoute v = Outlet <-> truthy v = true) /\
  (ProtectedRouteDemo.ProtectedRoute v
   = ScreenMsg "Checking authentication..." <-> v = JNull) /\
  (ProtectedRouteDemo.ProtectedRoute v <> Outlet ->
   ProtectedRouteDemo.ProtectedRoute v
   <> ScreenMsg "Checking authentication..." ->
   ProtectedRouteDemo.ProtectedRoute v = Navigate (lit "/login") None true).
Proof.
  destruct v as [| |[|]|n|[|c s]|l|f]; simpl;
    try destruct (Z.eqb_spec n 0); simpl;
    repeat split; try discriminate; try reflexivity; try tauto.
Qed.

Section DemoValue.
Context {host : Host}.

Lemma validated_truthy (p : JsVal) (now : Z) :
  truthy (if negb (truthy p) then JBool false
          else if truthy (get_exp p)
               then JBool (js_gt_num (get_exp p) now)
               else get_exp p) = true
  <-> truthy p = true /\ truthy (get_exp p) = true
      /\ js_gt_num (get_exp p) now = true.
Proof.
  destruct (truthy p); cbn [negb].
  - destruct (truthy (get_exp p)) eqn:Te.
    + cbn [truthy]. tauto.
    + rewrite Te. split; [discriminate|]. intros (_ & H & _). discriminate.
  - cbn [truthy]. split; [discriminate|]. intros (H & _). discriminate.
Qed.

Lemma validated_null (p : JsVal) (now : Z) :
  (if negb (truthy p) then JBool false
   else if truthy (get_exp p)
        then JBool (js_gt_num (get_exp p) now)
        else get_exp p) = JNull
  <-> truthy p = true /\ get_exp p = JNull.
Proof.
  destruct (truthy p); cbn [negb].
  - destruct (truthy (get_exp p)) eqn:Te.
    + split; [discriminate|]. intros (_ & H). rewrite H in Te. discriminate.
    + tauto.
  - split; [discriminate|]. intros (H & _). discriminate.
Qed.

End DemoValue.

(** X15. Once its effect has run, [ProtectedRoute] renders the outlet
    exactly when a non-empty token is stored whose payload is truthy
    and carries a truthy [exp] greater than the current second. It
    keeps rendering the checking screen exactly when the payload's
    [exp] is [null], because [validateToken] then answers [null], the
    value that stands for "still checking". Otherwise it redirects to
    /login. *)
Theorem ProtectedRoute_outcome {host : Host} (w : World) :
  protected_route_outcome w.
Proof.
  unfold protected_route_outcome, ProtectedRouteDemo.check_stored_token.
  unfold bind at 1. unfold gets at 1.
  destruct (localStorage w !! ProtectedRouteDemo.access_token)
    as [[|c t]|] eqn:L.
  - eexists _, _. split; [reflexivity|]. cbv zeta. simpl. split; [|split].
    + split; [discriminate|]. intros (t & p & [= <-] & H & _). now destruct H.
    + split; [discriminate|]. intros (t & p & [= <-] & H & _). now destruct H.
    + reflexivity.
  - destruct (decodeJWT_returns (JStr (c :: t))) as [p Hp].
    cbn [truthy negb].
    rewrite (validateToken_value _ p w Hp). cbv zeta.
    set (w' := snd (sleep 800 w)).
    eexists _, _. split; [reflexivity|].
    match goal with
    | |- context [ProtectedRouteDemo.ProtectedRoute ?x] => set (v := x)
    end.
    destruct (ProtectedRoute_cases v) as (HO & HC & HN).
    split; [|split; [|exact HN]].
    + rewrite HO. unfold v. rewrite validated_truthy. split.
      * intros (Tp & Te & G). exists (c :: t), p.
        repeat split; auto; discriminate.
      * intros (t' & p' & [= <-] & _ & Hp' & Tp & Te & G).
        rewrite Hp in Hp'. injection Hp' as <-. auto.
    + rewrite HC. unfold v. rewrite validated_null. split.
      * intros (Tp & Te). exists (c :: t), p.
        repeat split; auto; discriminate.
      * intros (t' & p' & [= <-] & _ & Hp' & Tp & Te).
        rewrite Hp in Hp'. injection Hp' as <-. auto.
  - eexists _, _. split; [reflexivity|]. cbv zeta. simpl. split; [|split].
    + split; [discriminate|]. intros (t & p & [=] & _).
    + split; [discriminate|]. intros (t & p & [=] & _).
    + reflexivity.
Qed.

Lemma handleLogin_browser (w : World) :
  @ProtectedRouteDemo.handleLogin browser w
  = (Normal (lit "/dashboard"),
     set_localStorage
       (<[ProtectedRouteDemo.access_token := fake_token (date_now w)]>
          (localStorage w)) w).
Proof.
  unfold ProtectedRouteDemo.handleLogin.
  unfold bind at 1. unfold gets at 1. cbv zeta.
  change (@btoa browser ?x) with (Browser.btoa x).
  unfold Browser.btoa.
  change (@JSON_stringify browser ?x) with (Browser.JSON_stringify x).
  rewrite JsonFacts.fake_latin1. reflexivity.
Qed.

(** X16. In a browser, the login page's button stores under
    [access_token] a token made from the clock reading and leaves the
    session alone; while that token is stored and the clock started at
    or after the epoch, [ProtectedRoute] renders the outlet if its
    check (which waits at least 800 ms) ends before the second
    [floor(now/1000)+60] of the login, and redirects to /login from
    then on. *)
Theorem fake_login_lasts_a_minute (w w2 : World) :
  0 <= date_now w -> fake_login_lifetime w w2.
Proof.
  intros H0. unfold fake_login_lifetime. eexists. split; [|split; [|split]].
  - apply handleLogin_browser.
  - cbn [localStorage set_localStorage]. apply lookup_insert_eq.
  - reflexivity.
  - intros L. unfold ProtectedRouteDemo.check_stored_token.
    unfold bind at 1. unfold gets at 1. rewrite L.
    assert (T : truthy (JStr (fake_token (date_now w))) = true)
      by reflexivity.
    rewrite T. cbn [negb].
    rewrite (validateToken_value _ _ w2 (JsonFacts.decode_fake_token _)).
    cbv zeta. set (w' := snd (sleep 800 w2)).
    eexists _, _. split; [reflexivity|]. split.
    + subst w'. unfold sleep, modify. cbn. lia.
    + set (e := date_now w / 1000 + 60).
      assert (E : 60 <= e)
        by (subst e; pose proof (Z.div_pos (date_now w) 1000); lia).
      change (truthy (ProtectedRouteDemo.fake_claims e)) with true.
      change (get_exp (ProtectedRouteDemo.fake_claims e)) with (JNum e).
      cbn [negb truthy]. destruct (Z.eqb_spec e 0); [lia|]. cbn [negb].
      unfold js_gt_num. cbn [ToNumber].
      destruct (date_now w' / 1000 <? e); reflexivity.
Qed.

Lemma fake_login_lasts_a_minute_witness :
  0 <= date_now admin_world /\
  fake_login_lifetime admin_world
    (set_localStorage
       {[ProtectedRouteDemo.access_token := fake_token 1700000000000]}
       admin_world).
Proof.
  split; [vm_compute; discriminate|].
  apply fake_login_lasts_a_minute. vm_compute. discriminate.
Defined.

(** ** The login form *)

Module FormFacts.
Import LoginForm.

Lemma nullable_lang (r : regex) : nullable r = true <-> lang r [].
Proof.
  induction r as [| |p|a IHa b IHb|a IHa b IHb|a IHa]; simpl.
  - split; [discriminate|tauto].
  - tauto.
  - split; [discriminate|]. intros (c & H & _). discriminate.
  - rewrite andb_true_iff, IHa, IHb. split.
    + intros [H1 H2]. now exists [], [].
    + intros (s1 & s2 & E & H1 & H2). symmetry in E.
      apply app_eq_nil in E as [-> ->]. now split.
  - now rewrite orb_true_iff, IHa, IHb.
  - split; [constructor|reflexivity].
Qed.

Lemma star_cons (P : jstring -> Prop) (c : N) (s : jstring) :
  star P (c :: s) ->
  exists s1 s2, s = s1 ++ s2 /\ P (c :: s1) /\ star P s2.
Proof.
  intros H. remember (c :: s) as x eqn:E. revert c s E.
  induction H as [|s1 s2 H1 H2 IH]; intros c s E; [discriminate|].
  destruct s1 as [|c1 s1].
  - simpl in E. now apply IH.
  - simpl in E. injection E as -> <-. now exists s1, s2.
Qed.

Lemma deriv_lang (r : regex) (c : N) (s : jstring) :
  lang (deriv c r) s <-> lang r (c :: s).
Proof.
  revert s. induction r as [| |p|a IHa b IHb|a IHa b IHb|a IHa]; intros s.
  - simpl. tauto.
  - simpl. split; [tauto|discriminate].
  - simpl. destruct (p c) eqn:Hp; simpl.
    + split.
      * intros ->. now exists c.
      * now intros (c' & [= <- ->] & _).
    + split; [tauto|]. intros (c' & [= <- ->] & H). congruence.
  - assert (L : lang (Cat (deriv c a) b) s \/
                (lang a [] /\ lang (deriv c b) s)
                <-> lang (Cat a b) (c :: s)).
    { simpl. split.
      - intros [(s1 & s2 & -> & H1 & H2)|[H1 H2]].
        + exists (c :: s1), s2. split; [reflexivity|]. split; [|exact H2].
          now apply IHa.
        + exists [], (c :: s). split; [reflexivity|]. split; [exact H1|].
          now apply IHb.
      - intros (s1 & s2 & E & H1 & H2). destruct s1 as [|c1 s1].
        + simpl in E. subst s2. right. split; [exact H1|]. now apply IHb.
        + simpl in E. injection E as <- ->. left. exists s1, s2.
          split; [reflexivity|]. split; [|exact H2]. now apply IHa. }
    rewrite <- L. cbn [deriv]. destruct (nullable a) eqn:Na.
    + apply nullable_lang in Na. cbn [lang]. tauto.
    + split; [now left|]. intros [H|[H _]]; [exact H|].
      apply nullable_lang in H. congruence.
  - simpl. now rewrite IHa, IHb.
  - simpl. split.
    + intros (s1 & s2 & -> & H1 & H2).
      change (c :: s1 ++ s2) with ((c :: s1) ++ s2).
      constructor; [|exact H2]. now apply IHa.
    + intros H. apply star_cons in H as (s1 & s2 & -> & H1 & H2).
      exists s1, s2. split; [reflexivity|]. split; [|exact H2].
      now apply IHa.
Qed.

(** [test] decides the language of the pattern. *)
Lemma test_lang (r : regex) (s : jstring) : test r s = true <-> lang r s.
Proof.
  revert r. induction s as [|c s IH]; intros r; simpl.
  - apply nullable_lang.
  - now rewrite IH, deriv_lang.
Qed.

Lemma lang_star_class (p : N -> bool) (s : jstring) :
  lang (Star (Cls p)) s <-> forallb p s = true.
Proof.
  simpl. split.
  - induction 1 as [|s1 s2 (c & -> & Hc) _ IH]; [reflexivity|].
    simpl. now rewrite Hc.
  - induction s as [|c s IH]; simpl; [constructor|].
    intros [Hc Hs]%andb_true_iff. change (c :: s) with ([c] ++ s).
    constructor; [now exists c|auto].
Qed.

Lemma lang_plus_class (p : N -> bool) (s : jstring) :
  lang (Plus (Cls p)) s <-> s <> [] /\ forallb p s = true.
Proof.
  unfold Plus. cbn [lang]. split.
  - intros (s1 & s2 & -> & (c & -> & Hc) & H2).
    apply (lang_star_class p) in H2. simpl. now rewrite Hc.
  - intros [Hn H]. destruct s as [|c s]; [congruence|].
    simpl in H. apply andb_true_iff in H as [Hc Hs].
    exists [c], s. split; [reflexivity|]. split; [now exists c|].
    now apply (lang_star_class p).
Qed.

Lemma lang_two_class (p : N -> bool) (s : jstring) :
  lang (AtLeast2 (Cls p)) s <-> (2 <= length s)%nat /\ forallb p s = true.
Proof.
  unfold AtLeast2. cbn [lang]. split.
  - intros (s1 & s2 & -> & (c & -> & Hc) & s3 & s4 & -> & (d & -> & Hd) & H).
    apply (lang_star_class p) in H. simpl. rewrite Hc, Hd. split; [lia|auto].
  - intros [Hl H]. destruct s as [|c [|d s]]; simpl in Hl; try lia.
    simpl in H. apply andb_true_iff in H as [Hc [Hd Hs]%andb_true_iff].
    exists [c], (d :: s). split; [reflexivity|]. split; [now exists c|].
    exists [d], s. split; [reflexivity|]. split; [now exists d|].
    now apply (lang_star_class p).
Qed.

Lemma lang_char (c : N) (s : jstring) :
  lang (Cls (fun x => (x =? c)%N)) s <-> s = [c].
Proof.
  simpl. split.
  - intros (x & -> & H). apply N.eqb_eq in H. now subst.
  - intros ->. exists c. split; [reflexivity|apply N.eqb_refl].
Qed.

Lemma email_pattern_lang (s : jstring) :
  lang email_pattern s <-> well_formed_email s.
Proof.
  unfold email_pattern, well_formed_email. split.
  - intros (l & s1 & -> & Hl & a & s2 & -> & Ha & d & s3 & -> & Hd
            & o & t & -> & Ho & Ht).
    apply lang_plus_class in Hl as [Hl1 Hl2].
    apply lang_plus_class in Hd as [Hd1 Hd2].
    apply lang_two_class in Ht as [Ht1 Ht2].
    apply (lang_char 64) in Ha. apply (lang_char 46) in Ho. subst a o.
    exists l, d, t. rewrite !forallb_app, Hl2, Hd2, Ht2. auto.
  - intros (l & d & t & -> & Hl & Hd & Ht & H).
    rewrite !forallb_app, !andb_true_iff in H. destruct H as (H1 & H2 & H3).
    exists l, (64%N :: d ++ 46%N :: t). split; [reflexivity|].
    split; [now apply lang_plus_class|].
    exists [64%N], (d ++ 46%N :: t). split; [reflexivity|].
    split; [now apply (lang_char 64)|].
    exists d, (46%N :: t). split; [reflexivity|].
    split; [now apply lang_plus_class|].
    exists [46%N], t. split; [reflexivity|].
    split; [now apply (lang_char 46)|now apply lang_two_class].
Qed.

Lemma trim_start_blank (s : jstring) :
  forallb Browser.is_str_ws (Browser.trim_start s)
  = forallb Browser.is_str_ws s.
Proof.
  induction s as [|c s IH]; [reflexivity|]. simpl.
  destruct (Browser.is_str_ws c) eqn:Hc; simpl; [exact IH|].
  now rewrite Hc.
Qed.

Lemma trim_start_empty (s : jstring) :
  is_empty (Browser.trim_start s) = forallb Browser.is_str_ws s.
Proof.
  induction s as [|c s IH]; [reflexivity|]. simpl.
  destruct (Browser.is_str_ws c); [exact IH|reflexivity].
Qed.

Lemma forallb_rev (p : N -> bool) (s : jstring) :
  forallb p (rev s) = forallb p s.
Proof.
  induction s as [|c s IH]; [reflexivity|]. simpl.
  rewrite forallb_app, IH. simpl. rewrite andb_true_r. apply andb_comm.
Qed.

Lemma is_empty_rev (s : jstring) : is_empty (rev s) = is_empty s.
Proof.
  destruct s as [|c s]; [reflexivity|]. simpl.
  now destruct (rev s).
Qed.

(** [!s.trim()] holds exactly for a string of white space. *)
Lemma trim_empty (s : jstring) :
  is_empty (Browser.trim s) = forallb Browser.is_str_ws s.
Proof.
  unfold Browser.trim.
  now rewrite is_empty_rev, trim_start_empty, forallb_rev, trim_start_blank.
Qed.

Lemma well_formed_not_blank (s : jstring) :
  well_formed_email s -> forallb Browser.is_str_ws s = false.
Proof.
  intros (l & d & t & -> & _). rewrite forallb_app. simpl.
  apply andb_false_r.
Qed.

End FormFacts.

(** X17. The pattern the form tests an address against accepts exactly
    the strings with a non-empty local part, one [@], and after it a
    non-empty part, a dot and at least two more code units, none of the
    parts holding white space or a second [@]; in particular an address
    with a space before or after it is refused. *)
Theorem email_pattern_accepts (s : jstring) :
  (LoginForm.test LoginForm.email_pattern s = true
   <-> well_formed_email s) /\
  (LoginForm.test LoginForm.email_pattern s = true ->
   forallb (fun c => negb (Browser.is_str_ws c)) s = true /\
   count_occ N.eq_dec s 64%N = 1%nat).
Proof.
  assert (E : LoginForm.test LoginForm.email_pattern s = true
              <-> well_formed_email s)
    by (rewrite FormFacts.test_lang; apply FormFacts.email_pattern_lang).
  split; [exact E|]. intros H. apply E in H as (l & d & t & -> & _ & _ & _ & H).
  assert (P : forall x, forallb LoginForm.plain x = true ->
              forallb (fun c => negb (Browser.is_str_ws c)) x = true /\
              count_occ N.eq_dec x 64%N = 0%nat).
  { induction x as [|c x IH]; [now split|]. simpl.
    intros [Hc Hx]%andb_true_iff. destruct (IH Hx) as [I1 I2].
    unfold LoginForm.plain in Hc. apply negb_true_iff, orb_false_iff in Hc.
    destruct Hc as [Hw Ha]. rewrite Hw, I1. split; [reflexivity|].
    apply N.eqb_neq in Ha.
    destruct (N.eq_dec c 64%N); [congruence|exact I2]. }
  rewrite !forallb_app, !andb_true_iff in H. destruct H as (H1 & H2 & H3).
  destruct (P _ H1) as [A1 B1], (P _ H2) as [A2 B2], (P _ H3) as [A3 B3].
  split.
  - rewrite forallb_app. simpl. rewrite forallb_app. simpl.
    now rewrite A1, A2, A3.
  - rewrite count_occ_app. simpl. rewrite count_occ_app. simpl.
    rewrite B1, B2, B3. reflexivity.
Qed.

Lemma validate_email_error (e p : jstring) :
  LoginForm.email_error (LoginForm.validate e p) = None
  <-> well_formed_email e.
Proof.
  unfold LoginForm.validate. cbn [LoginForm.email_error].
  rewrite FormFacts.trim_empty.
  rewrite <- FormFacts.email_pattern_lang, <- FormFacts.test_lang.
  destruct (LoginForm.test LoginForm.email_pattern e) eqn:T.
  - apply FormFacts.test_lang, FormFacts.email_pattern_lang in T.
    rewrite (FormFacts.well_formed_not_blank _ T). simpl. tauto.
  - destruct (forallb Browser.is_str_ws e); simpl;
      split; discriminate.
Qed.

Lemma validate_password_error (e p : jstring) :
  LoginForm.password_error (LoginForm.validate e p) = None
  <-> (6 <= length p)%nat.
Proof.
  unfold LoginForm.validate. cbn [LoginForm.password_error].
  destruct p as [|c p]; simpl LoginForm.is_empty; cbv iota.
  - simpl. split; [discriminate|lia].
  - destruct (Nat.ltb_spec (length (c :: p)) 6); split;
      try discriminate; try reflexivity; lia.
Qed.

Lemma keys_zero (v : LoginForm.Errors) :
  LoginForm.keys v = 0%nat
  <-> LoginForm.email_error v = None /\ LoginForm.password_error v = None.
Proof.
  unfold LoginForm.keys.
  destruct (LoginForm.email_error v), (LoginForm.password_error v); simpl;
    split; try discriminate; try tauto; intros [? ?]; discriminate.
Qed.

Lemma validate_keys (e p : jstring) :
  LoginForm.keys (LoginForm.validate e p) = 0%nat
  <-> well_formed_email e /\ (6 <= length p)%nat.
Proof.
  now rewrite keys_zero, validate_email_error, validate_password_error.
Qed.

(** X18. [validate] reports "Email is required" exactly for an address
    of white space only, "Enter a valid email" for any other address
    the pattern refuses, "Password is required" for the empty password
    and "Min 6 characters" for one of 1 to 5 code units; it reports
    nothing exactly for a well-formed address with a password of at
    least 6 code units. *)
Theorem validate_contract (email password : jstring) :
  validate_reports email password.
Proof.
  unfold validate_reports. cbv zeta. split; [|split].
  - unfold LoginForm.validate. cbn [LoginForm.email_error].
    rewrite FormFacts.trim_empty.
    destruct (forallb Browser.is_str_ws email); [reflexivity|].
    now destruct (LoginForm.test LoginForm.email_pattern email).
  - unfold LoginForm.validate. cbn [LoginForm.password_error].
    now destruct password.
  - apply validate_keys.
Qed.

Lemma handleSubmit_cases (f : LoginForm.Form) (w : World) :
  submission f w.
Proof.
  unfold submission, LoginForm.handleSubmit. cbv zeta.
  destruct (Nat.eqb_spec
              (LoginForm.keys
                 (LoginForm.validate (LoginForm.email f)
                    (LoginForm.password f))) 0) as [Z|NZ]; cbn [negb].
  - unfold finally, catch, bind, sleep, modify, throw, ret, jstr_eqb.
    cbn [fst snd].
    destruct (bool_decide_reflect
                (LoginForm.password f = lit "secret123")) as [P|P];
      cbn [negb]; destruct (LoginForm.remember f) eqn:R;
      unfold setItem, modify; cbn -[LoginForm.validate lit Z.add Z.max];
      eexists _, _; (split; [reflexivity|]);
      cbn -[LoginForm.validate lit Z.add Z.max];
      repeat match goal with
             | |- _ /\ _ => split
             | |- _ -> _ => intro
             end;
      try reflexivity; try lia; try contradiction; try exact R;
      try (left; repeat split; auto; fail);
      try (right; repeat split; auto; fail).
  - eexists _, _. split; [reflexivity|].
    cbn -[LoginForm.validate lit].
    repeat match goal with
           | |- _ /\ _ => split
           | |- _ -> _ => intro
           end;
      try reflexivity; contradiction.
Qed.

(** X19. A submission never throws. With a validation error it
    touches neither the clock nor the store and keeps the status it
    found, be it that of an earlier success. Otherwise it waits at
    least 900 ms, makes no backend call, and ends in success exactly
    when the password is "secret123" (the server error is then empty)
    and in error with "Invalid email or password" otherwise; the
    address is stored under [saved_email] exactly when "remember me" is
    ticked, whether or not the login succeeded. *)
Theorem handleSubmit_outcome (f : LoginForm.Form) (w : World) :
  submission f w.
Proof. apply handleSubmit_cases. Qed.

(** X20. Submitting a form that does not already show a success ends
    in success exactly when the address is well formed and the password
    is "secret123". *)
Theorem submit_succeeds_iff (f : LoginForm.Form) (w : World) :
  LoginForm.status f <> LoginForm.success ->
  exists f' w',
    LoginForm.handleSubmit f w = (Normal f', w') /\
    (LoginForm.status f' = LoginForm.success
     <-> well_formed_email (LoginForm.email f) /\
         LoginForm.password f = lit "secret123").
Proof.
  intros S. destruct (handleSubmit_cases f w)
    as (f' & w' & E & _ & _ & _ & V & Bad & Good).
  exists f', w'. split; [exact E|]. rewrite V in Bad, Good.
  pose proof (validate_keys (LoginForm.email f) (LoginForm.password f)) as K.
  destruct (Nat.eq_dec
              (LoginForm.keys
                 (LoginForm.validate (LoginForm.email f)
                    (LoginForm.password f))) 0%nat) as [Z|NZ].
  - destruct (Good Z) as (_ & _ & _ & _ & [(P & St & _)|(P & St & _)]).
    + split; [|intros _; exact St]. intros _. split; [now apply K|exact P].
    + rewrite St. split; [discriminate|]. intros [_ P']. contradiction.
  - destruct (Bad NZ) as (_ & St & _). rewrite St. split; [contradiction|].
    intros [W P]. exfalso. apply NZ, K. split; [exact W|].
    rewrite P. vm_compute. lia.
Qed.

Lemma submit_succeeds_iff_witness :
  LoginForm.status (filled_form "you@example.com" "secret123" true)
  <> LoginForm.success /\
  exists f' w',
    LoginForm.handleSubmit
      (filled_form "you@example.com" "secret123" true) admin_world
    = (Normal f', w') /\
    (LoginForm.status f' = LoginForm.success
     <-> well_formed_email (lit "you@example.com") /\
         lit "secret123" = lit "secret123").
Proof.
  split; [discriminate|].
  apply (submit_succeeds_iff
           (filled_form "you@example.com" "secret123" true) admin_world).
  discriminate.
Defined.
